(** * Fan control engine (fn-fan/app/server/fan_control.py)

    A shallow embedding of the control core of [fan_control.py]:
    the curve mapper ([linear_map], [calculate_pwm_from_curve],
    [calculate_pwm]), the rolling temperature histories ([_calc_avg],
    [_read_temps]), the control cycle ([_control_cycle]), the alert
    throttle ([_check_temp_alert]), the reflective configuration
    update ([FanConfig.update]) and the disk detection
    ([detect_all_disks]); and of the state machines of the LED service
    [fn-led/app/server/led_control.py] (module [Led]).

    Python integers are [Z].  Python floats are IEEE-754 binary64 values;
    module [Float64] represents a finite one by the integer number of
    units of [2^-1074] it holds and computes every operation as the exact
    result rounded to nearest, ties to even.  A Python exception is the
    [Raise] result of the small error monad below. *)

From Stdlib Require Import ZArith List String Ascii Bool Lia Permutation Sorted.
From Stdlib Require Import DecimalString DecimalNat.
Import ListNotations.
Open Scope string_scope.
Open Scope list_scope.
Open Scope Z_scope.

(** ** Exceptions *)

Inductive exn : Type :=
| OverflowError
| ZeroDivisionError
| IndexError
| TypeError
| AttributeError.

Inductive result (A : Type) : Type :=
| Ok (a : A)
| Raise (e : exn).
Arguments Ok {A} a.
Arguments Raise {A} e.

Definition bind {A B : Type} (r : result A) (k : A -> result B) : result B :=
  match r with
  | Ok a => k a
  | Raise e => Raise e
  end.

Notation "x <- c ;; k" := (bind c (fun x => k))
  (at level 61, c at next level, right associativity).
Notation "' p <- c ;; k" := (bind c (fun x => let p := x in k))
  (at level 61, p pattern, c at next level, right associativity).

(** ** IEEE-754 binary64 arithmetic, as Python's [float] uses it *)

Module Float64.

(** A finite double is an integer multiple of [2^-1074]; [float] holds
    that multiple.  [one] is 1.0 and [huge] is [2^1024], the first
    magnitude that is no longer finite. *)
Definition float : Type := Z.
Definition one : Z := 2 ^ 1074.
Definition huge : Z := 2 ^ 2098.

(** [n / d] rounded to the nearest integer, ties to even ([0 <= n], [0 < d]). *)
Definition rhe (n d : Z) : Z :=
  let q := n / d in
  let r := n mod d in
  if 2 * r <? d then q
  else if d <? 2 * r then q + 1
  else if Z.even q then q else q + 1.

(** The non-negative rational number of units [n / d] rounded to a
    double: below [2^53] units the doubles are one unit apart, above
    they keep 53 significant bits. *)
Definition round_pos (n d : Z) : Z :=
  let q := n / d in
  if q <? 2 ^ 53 then rhe n d
  else
    let s := Z.log2 q - 52 in
    rhe n (d * 2 ^ s) * 2 ^ s.

Definition round (n d : Z) : Z :=
  if 0 <=? n then round_pos n d else - round_pos (- n) d.

(** A rounded magnitude of [2^1024] or more is an overflow. *)
Definition finite (x : Z) : result float :=
  if Z.abs x <? huge then Ok x else Raise OverflowError.

(** The integers that are doubles: the finite fixed points of [round]. *)
Definition is_float (x : Z) : bool := (round x 1 =? x) && (Z.abs x <? huge).

(** [float(z)], the conversion Python applies to an [int] operand. *)
Definition of_int (z : Z) : result float := finite (round (z * one) 1).

(** [a / b] on two ints: the correctly rounded quotient. *)
Definition true_div (a b : Z) : result float :=
  if b =? 0 then Raise ZeroDivisionError
  else if 0 <? b then finite (round (a * one) b)
  else finite (round (- a * one) (- b)).

(** [x * y], [x + y] and [x - y] on two floats.  Python itself yields
    an infinity on overflow and raises only when the infinity reaches
    [int()]; every use below ends in [int()] or is bounded by its
    operands, so the overflow is reported where it arises. *)
Definition mul (x y : float) : result float := finite (round (x * y) one).
Definition add (x y : float) : result float := finite (round (x + y) 1).
Definition sub (x y : float) : result float := finite (round (x - y) 1).

(** [int(x)]: truncation toward zero. *)
Definition to_int (x : float) : Z := Z.quot x one.

(** [x - y >= z] for floats [x], [y] and an int [z]: the difference is
    rounded, an overflowing difference is an infinity (larger or smaller
    than every int), and the comparison with the int is exact. *)
Definition sub_ge_int (x y : float) (z : Z) : bool :=
  let d := round (x - y) 1 in
  if huge <=? d then true
  else if d <=? - huge then false
  else z * one <=? d.

End Float64.

(** ** PWM computation *)

(** [linear_map]: the float expression
    [out_min + (value - in_min) / (in_max - in_min) * (out_max - out_min)],
    truncated by [int()] and clamped by [max(out_min, min(out_max, _))]. *)
Definition linear_map (value in_min in_max out_min out_max : Z) : result Z :=
  if in_max <=? in_min then Ok out_min
  else
    ratio <- Float64.true_div (value - in_min) (in_max - in_min) ;;
    span <- Float64.of_int (out_max - out_min) ;;
    prod <- Float64.mul ratio span ;;
    base <- Float64.of_int out_min ;;
    res <- Float64.add base prod ;;
    Ok (Z.max out_min (Z.min out_max (Float64.to_int res))).

(** A curve point, the dict [{"temp": _, "pwm": _}]. *)
Record CurvePoint : Type := mkPoint { temp : Z; pwm : Z }.

Definition Curve : Type := list CurvePoint.

(** [sorted(curve, key=lambda p: p["temp"])]: Python's sort is stable, so
    is this insertion sort. *)
Fixpoint insert_point (p : CurvePoint) (l : Curve) : Curve :=
  match l with
  | [] => [p]
  | q :: l' => if temp p <=? temp q then p :: q :: l' else q :: insert_point p l'
  end.

Fixpoint sorted (curve : Curve) : Curve :=
  match curve with
  | [] => []
  | p :: l => insert_point p (sorted l)
  end.

Definition stage_of_pwm (v : Z) : string :=
  if v <? 60 then "idle"
  else if v <? 120 then "work"
  else if v <? 200 then "warning"
  else "critical".

(** The [for i in range(len(sorted_curve) - 1)] loop: the first adjacent
    pair that brackets [t] decides; running off the end yields the
    default [(100, "unknown")]. *)
Fixpoint interpolate (t : Z) (l : Curve) : result (Z * string) :=
  match l with
  | p1 :: ((p2 :: _) as rest) =>
      if (temp p1 <=? t) && (t <=? temp p2) then
        v <- linear_map t (temp p1) (temp p2) (pwm p1) (pwm p2) ;;
        Ok (v, stage_of_pwm v)
      else interpolate t rest
  | _ => Ok (100, "unknown")
  end.

Definition first_point (l : Curve) : CurvePoint := hd (mkPoint 0 0) l.
Definition last_point (l : Curve) : CurvePoint := last l (mkPoint 0 0).

Definition calculate_pwm_from_curve (t : Z) (curve : Curve) : result (Z * string) :=
  match curve with
  | [] => Ok (100, "unknown")
  | _ =>
      let sorted_curve := sorted curve in
      if t <=? temp (first_point sorted_curve) then
        Ok (pwm (first_point sorted_curve), "idle")
      else if temp (last_point sorted_curve) <=? t then
        Ok (pwm (last_point sorted_curve), "critical")
      else interpolate t sorted_curve
  end.


(** The interpolation formula
    [p1.pwm + (t - p1.temp) / (p2.temp - p1.temp) * (p2.pwm - p1.pwm)]
    written out in the double arithmetic of the source and truncated by
    [int()], before any clamp. *)
Definition interpolation (t : Z) (p1 p2 : CurvePoint) : result Z :=
  ratio <- Float64.true_div (t - temp p1) (temp p2 - temp p1) ;;
  span <- Float64.of_int (pwm p2 - pwm p1) ;;
  prod <- Float64.mul ratio span ;;
  base <- Float64.of_int (pwm p1) ;;
  res <- Float64.add base prod ;;
  Ok (Float64.to_int res).

Definition clamp (lo hi v : Z) : Z := Z.max lo (Z.min hi v).

Definition by_temp (p q : CurvePoint) : Prop := temp p <= temp q.
Definition by_pwm (p q : CurvePoint) : Prop := pwm p <= pwm q.

(** A curve whose PWM values do not decrease as the temperature grows:
    taken in the order of the sort, every point's PWM is at most that of
    every later point. *)
Definition nondecreasing_pwm (curve : Curve) : Prop :=
  StronglySorted by_pwm (sorted curve).

(** PWM values far inside the range of a double. *)
Definition pwm_bounded (curve : Curve) : Prop :=
  Forall (fun p => Z.abs (pwm p) <= 2 ^ 1000) curve.

Definition curve3 : Curve := [mkPoint 20 20; mkPoint 40 50; mkPoint 80 255].

(** ** Configuration *)

(** The fields of [FanConfig] the engine reads.  [check_interval] (only the
    sleep of the scheduler loop) and [pwm_enable_file] (only start-up) are
    read by code outside this development. *)
Record FanConfig : Type := mkConfig {
  enabled : bool;
  temp_history_size : Z;
  pwm_change_threshold : Z;
  alert_enabled : bool;
  cpu_alert_temp : Z;
  disk_alert_temp : Z;
  alert_interval : Z;
  alert_hostname : string;
  pwm_control_file : string;
  use_curve_mode : bool;
  cpu_curve : Curve;
  disk_curve : Curve;
  cpu_idle_temp_min : Z;
  cpu_idle_temp_max : Z;
  cpu_work_temp_max : Z;
  cpu_warning_temp_max : Z;
  cpu_critical_temp_max : Z;
  disk_idle_temp_min : Z;
  disk_idle_temp_max : Z;
  disk_work_temp_max : Z;
  disk_warning_temp_max : Z;
  disk_critical_temp_max : Z;
  idle_pwm_min : Z;
  idle_pwm_max : Z;
  work_pwm_min : Z;
  work_pwm_max : Z;
  warning_pwm_min : Z;
  warning_pwm_max : Z;
  critical_pwm_min : Z;
  critical_pwm_max : Z;
  active_disks : list string
}.

Definition DEFAULT_CPU_CURVE : Curve :=
  [mkPoint 20 20; mkPoint 30 30; mkPoint 40 50; mkPoint 50 80;
   mkPoint 60 120; mkPoint 65 160; mkPoint 70 210; mkPoint 80 255].

Definition DEFAULT_DISK_CURVE : Curve :=
  [mkPoint 20 20; mkPoint 26 35; mkPoint 32 55; mkPoint 38 85;
   mkPoint 44 130; mkPoint 50 175; mkPoint 55 220; mkPoint 60 255].

(** [FanConfig()] with the defaults of the dataclass. *)
Definition default_config : FanConfig :=
  {| enabled := true; temp_history_size := 4; pwm_change_threshold := 0;
     alert_enabled := true; cpu_alert_temp := 62; disk_alert_temp := 42;
     alert_interval := 60; alert_hostname := "MainNAS";
     pwm_control_file := "/sys/class/hwmon/hwmon4/pwm3";
     use_curve_mode := true;
     cpu_curve := DEFAULT_CPU_CURVE; disk_curve := DEFAULT_DISK_CURVE;
     cpu_idle_temp_min := 45; cpu_idle_temp_max := 50; cpu_work_temp_max := 62;
     cpu_warning_temp_max := 72; cpu_critical_temp_max := 80;
     disk_idle_temp_min := 38; disk_idle_temp_max := 40; disk_work_temp_max := 42;
     disk_warning_temp_max := 44; disk_critical_temp_max := 46;
     idle_pwm_min := 30; idle_pwm_max := 60; work_pwm_min := 60; work_pwm_max := 150;
     warning_pwm_min := 150; warning_pwm_max := 220;
     critical_pwm_min := 220; critical_pwm_max := 255;
     active_disks := [] |}.

(** [calculate_pwm]: the curve of the side asked for, or the legacy
    threshold bands when [use_curve_mode] is off. *)
Definition calculate_pwm (t : Z) (config : FanConfig) (is_cpu : bool)
  : result (Z * string) :=
  if use_curve_mode config then
    calculate_pwm_from_curve t (if is_cpu then cpu_curve config else disk_curve config)
  else
    let idle_min := if is_cpu then cpu_idle_temp_min config else disk_idle_temp_min config in
    let idle_max := if is_cpu then cpu_idle_temp_max config else disk_idle_temp_max config in
    let work_max := if is_cpu then cpu_work_temp_max config else disk_work_temp_max config in
    let warning_max :=
      if is_cpu then cpu_warning_temp_max config else disk_warning_temp_max config in
    let critical_max :=
      if is_cpu then cpu_critical_temp_max config else disk_critical_temp_max config in
    if t <? idle_max then
      v <- linear_map t idle_min idle_max (idle_pwm_min config) (idle_pwm_max config) ;;
      Ok (v, "idle")
    else if t <? work_max then
      v <- linear_map t idle_max work_max (work_pwm_min config) (work_pwm_max config) ;;
      Ok (v, "work")
    else if t <? warning_max then
      v <- linear_map t work_max warning_max (warning_pwm_min config) (warning_pwm_max config) ;;
      Ok (v, "warning")
    else if t <? critical_max then
      v <- linear_map t warning_max critical_max
             (critical_pwm_min config) (critical_pwm_max config) ;;
      Ok (v, "critical")
    else Ok (critical_pwm_max config, "emergency").

(** ** Python dictionaries with string keys

    A [dict] keeps its keys in insertion order; assigning to a key that is
    present keeps the key's place. *)

Definition dict (V : Type) : Type := list (string * V).

Fixpoint dict_get {V : Type} (k : string) (d : dict V) : option V :=
  match d with
  | [] => None
  | (k', v) :: d' => if String.eqb k k' then Some v else dict_get k d'
  end.

Fixpoint dict_set {V : Type} (k : string) (v : V) (d : dict V) : dict V :=
  match d with
  | [] => [(k, v)]
  | (k', v') :: d' =>
      if String.eqb k k' then (k, v) :: d' else (k', v') :: dict_set k v d'
  end.

Definition dict_mem {V : Type} (k : string) (d : dict V) : bool :=
  match dict_get k d with Some _ => true | None => false end.

(** [d.get(k, default)]. *)
Definition dict_get_default {V : Type} (k : string) (d : dict V) (default : V) : V :=
  match dict_get k d with Some v => v | None => default end.

Definition dict_keys {V : Type} (d : dict V) : list string := map fst d.

(** ** Disks, status and controller state *)

Module DiskInfo.
Record t : Type := mk {
  id : string;
  device : string;
  path : string;
  pci_path : string;
  model : string;
  serial : string;
  size : string;
  disk_type : string;
  temp : option Z;
  active : bool
}.

Definition with_temp (d : t) (v : option Z) : t :=
  mk (id d) (device d) (path d) (pci_path d) (model d) (serial d) (size d)
     (disk_type d) v (active d).

Definition with_active (d : t) (a : bool) : t :=
  mk (id d) (device d) (path d) (pci_path d) (model d) (serial d) (size d)
     (disk_type d) (temp d) a.
End DiskInfo.

(** The [status] dict of the controller, one field per key. *)
Module Status.
Record t : Type := mk {
  cpu_temp : option Z;
  cpu_avg_temp : option Z;
  disk_temps : dict (option Z);
  disk_avg_temps : dict (option Z);
  max_disk_temp : option Z;
  fan_rpm : option Z;
  current_pwm : option Z;
  target_pwm : option Z;
  trigger_source : option string;
  trigger_stage : option string;
  is_warmed_up : bool;
  warmup_progress : Z;
  last_update : option string
}.

Definition initial : t :=
  mk None None [] [] None None None None None None false 0 None.

(** The eight assignments that end [_read_temps]. *)
Definition with_readings (s : t) (cpu cpu_avg : option Z)
    (temps avgs : dict (option Z)) (max_disk rpm pwm_now : option Z)
    (stamp : string) : t :=
  mk cpu cpu_avg temps avgs max_disk rpm pwm_now
     (target_pwm s) (trigger_source s) (trigger_stage s)
     (is_warmed_up s) (warmup_progress s) (Some stamp).

Definition with_target (s : t) (target : Z) (source stage : string) : t :=
  mk (cpu_temp s) (cpu_avg_temp s) (disk_temps s) (disk_avg_temps s)
     (max_disk_temp s) (fan_rpm s) (current_pwm s)
     (Some target) (Some source) (Some stage)
     (is_warmed_up s) (warmup_progress s) (last_update s).

Definition with_warmup_progress (s : t) (p : Z) : t :=
  mk (cpu_temp s) (cpu_avg_temp s) (disk_temps s) (disk_avg_temps s)
     (max_disk_temp s) (fan_rpm s) (current_pwm s)
     (target_pwm s) (trigger_source s) (trigger_stage s)
     (is_warmed_up s) p (last_update s).

Definition with_is_warmed_up (s : t) (b : bool) : t :=
  mk (cpu_temp s) (cpu_avg_temp s) (disk_temps s) (disk_avg_temps s)
     (max_disk_temp s) (fan_rpm s) (current_pwm s)
     (target_pwm s) (trigger_source s) (trigger_stage s)
     b (warmup_progress s) (last_update s).
End Status.

Record FanController : Type := mkController {
  config : FanConfig;
  config_path : option string;
  running : bool;
  disks : list DiskInfo.t;
  cpu_temp_history : list Z;
  disk_temp_history : dict (list Z);
  warmup_counter : Z;
  is_warmed_up : bool;
  last_alert_time_cpu : Float64.float;
  last_alert_time_disk : dict Float64.float;
  status : Status.t
}.

(** [FanController.__init__] once the configuration is loaded. *)
Definition new_controller (cfg : FanConfig) (path : option string) : FanController :=
  mkController cfg path false [] [] [] 0 false 0 [] Status.initial.

Definition with_config (c : FanController) (cfg : FanConfig) : FanController :=
  mkController cfg (config_path c) (running c) (disks c) (cpu_temp_history c)
    (disk_temp_history c) (warmup_counter c) (is_warmed_up c)
    (last_alert_time_cpu c) (last_alert_time_disk c) (status c).

Definition with_disks (c : FanController) (ds : list DiskInfo.t) : FanController :=
  mkController (config c) (config_path c) (running c) ds (cpu_temp_history c)
    (disk_temp_history c) (warmup_counter c) (is_warmed_up c)
    (last_alert_time_cpu c) (last_alert_time_disk c) (status c).

Definition with_cpu_history (c : FanController) (h : list Z) : FanController :=
  mkController (config c) (config_path c) (running c) (disks c) h
    (disk_temp_history c) (warmup_counter c) (is_warmed_up c)
    (last_alert_time_cpu c) (last_alert_time_disk c) (status c).

Definition with_disk_history (c : FanController) (h : dict (list Z)) : FanController :=
  mkController (config c) (config_path c) (running c) (disks c) (cpu_temp_history c)
    h (warmup_counter c) (is_warmed_up c)
    (last_alert_time_cpu c) (last_alert_time_disk c) (status c).

Definition with_warmup (c : FanController) (n : Z) (b : bool) : FanController :=
  mkController (config c) (config_path c) (running c) (disks c) (cpu_temp_history c)
    (disk_temp_history c) n b
    (last_alert_time_cpu c) (last_alert_time_disk c) (status c).

Definition with_alert_times (c : FanController) (tc : Float64.float)
    (td : dict Float64.float) : FanController :=
  mkController (config c) (config_path c) (running c) (disks c) (cpu_temp_history c)
    (disk_temp_history c) (warmup_counter c) (is_warmed_up c) tc td (status c).

Definition with_status (c : FanController) (s : Status.t) : FanController :=
  mkController (config c) (config_path c) (running c) (disks c) (cpu_temp_history c)
    (disk_temp_history c) (warmup_counter c) (is_warmed_up c)
    (last_alert_time_cpu c) (last_alert_time_disk c) s.

Definition with_running (c : FanController) (b : bool) : FanController :=
  mkController (config c) (config_path c) b (disks c) (cpu_temp_history c)
    (disk_temp_history c) (warmup_counter c) (is_warmed_up c)
    (last_alert_time_cpu c) (last_alert_time_disk c) (status c).

(** ** The sensor and actuator ports

    What one cycle reads from outside: the CPU temperature [sensors]
    reports, the temperature [smartctl] reports per device, the RPM of
    the fan lines of [sensors] in order, [time.time()] and
    [datetime.now().isoformat()]. *)
Record Readings : Type := mkReadings {
  sensors_cpu : option Z;
  smartctl : string -> option Z;
  sensors_fans : list Z;
  time_time : Float64.float;
  datetime_now : string
}.

(** A PWM control file: its integer content and whether this process may
    read and write it.  [Files] maps the paths that exist. *)
Record PwmFile : Type := mkFile { content : Z; readable : bool; writable : bool }.
Definition Files : Type := dict PwmFile.

(** [read_disk_temp]: an empty device name is not queried. *)
Definition read_disk_temp (r : Readings) (device : string) : option Z :=
  if String.eqb device "" then None else smartctl r device.

(** [read_fan_rpm]: the first fan line with a non-zero speed. *)
Definition read_fan_rpm (r : Readings) : option Z :=
  find (fun rpm => 0 <? rpm) (sensors_fans r).

(** [read_pwm]: [None] when the file is missing or cannot be read. *)
Definition read_pwm (fs : Files) (pwm_file : string) : option Z :=
  match dict_get pwm_file fs with
  | Some f => if readable f then Some (content f) else None
  | None => None
  end.

(** [set_pwm]: clamps to [0, 255], writes only to an existing file and
    reports whether it wrote. *)
Definition set_pwm (fs : Files) (pwm_file : string) (value : Z) : Files * bool :=
  let value := Z.max 0 (Z.min 255 value) in
  match dict_get pwm_file fs with
  | Some f =>
      if writable f
      then (dict_set pwm_file (mkFile value (readable f) (writable f)) fs, true)
      else (fs, false)
  | None => (fs, false)
  end.

(** ** Temperature histories *)

(** [_calc_avg]: floor mean of the entries [> 0], [None] without any. *)
Definition _calc_avg (history : list Z) : option Z :=
  let valid := filter (fun t => 0 <? t) history in
  match valid with
  | [] => None
  | _ => Some (fold_right Z.add 0 valid / Z.of_nat (List.length valid))
  end.

(** [while len(h) > history_size: h.pop(0)]; popping from the emptied
    list (a negative size) raises [IndexError]. *)
Fixpoint trim (h : list Z) (history_size : Z) : result (list Z) :=
  match h with
  | [] => if history_size <? 0 then Raise IndexError else Ok []
  | _ :: h' =>
      if history_size <? Z.of_nat (List.length h) then trim h' history_size else Ok h
  end.

(** The [n] most recent entries of a window. *)
Definition last_n (n : Z) (h : list Z) : list Z :=
  skipn (List.length h - Z.to_nat n) h.

Definition sum (h : list Z) : Z := fold_right Z.add 0 h.

(** What one cycle does to a window of depth [n].  A reading is appended
    and the window cut to its newest [n] entries.  Without a reading a
    disk's window is emptied, the CPU's window is left as it is. *)
Definition disk_window_step (n : Z) (h : list Z) (reading : option Z) : list Z :=
  match reading with
  | Some v => last_n n (h ++ [v])
  | None => []
  end.

Definition cpu_window_step (n : Z) (h : list Z) (reading : option Z) : list Z :=
  match reading with
  | Some v => last_n n (h ++ [v])
  | None => h
  end.

(** The disk loop of [_read_temps].  It returns the disks with their new
    [temp], the histories, and the three per-cycle results; when a pop
    raises, the disks and histories are as the loop left them. *)
Fixpoint read_disks (r : Readings) (history_size : Z) (todo : list DiskInfo.t)
    (hist : dict (list Z)) (temps avgs : dict (option Z)) (max_disk_temp : option Z)
  : list DiskInfo.t * dict (list Z)
    * result (dict (option Z) * dict (option Z) * option Z) :=
  match todo with
  | [] => ([], hist, Ok (temps, avgs, max_disk_temp))
  | disk :: rest =>
      let t := read_disk_temp r (DiskInfo.device disk) in
      let disk := DiskInfo.with_temp disk t in
      let id := DiskInfo.id disk in
      let temps := dict_set id t temps in
      let hist := if dict_mem id hist then hist else dict_set id [] hist in
      let trimmed :=
        match t with
        | Some v => trim (dict_get_default id hist [] ++ [v]) history_size
        | None => Ok []
        end in
      match trimmed with
      | Raise e => (disk :: rest, dict_set id [] hist, Raise e)
      | Ok h =>
          let hist := dict_set id h hist in
          let avg := _calc_avg (dict_get_default id hist []) in
          let avgs := dict_set id avg avgs in
          let max_disk_temp :=
            match avg with
            | Some a =>
                if DiskInfo.active disk then
                  match max_disk_temp with
                  | None => Some a
                  | Some m => if m <? a then Some a else Some m
                  end
                else max_disk_temp
            | None => max_disk_temp
            end in
          let '(rest', hist', res) :=
            read_disks r history_size rest hist temps avgs max_disk_temp in
          (disk :: rest', hist', res)
      end
  end.

(** [_read_temps].  The second component is the exception that escaped,
    if any; the controller is then as the interrupted call left it. *)
Definition _read_temps (r : Readings) (fs : Files) (c : FanController)
  : FanController * option exn :=
  let history_size := temp_history_size (config c) in
  let cpu_temp := sensors_cpu r in
  let cpu_hist :=
    match cpu_temp with
    | Some v => trim (cpu_temp_history c ++ [v]) history_size
    | None => Ok (cpu_temp_history c)
    end in
  match cpu_hist with
  | Raise e => (with_cpu_history c [], Some e)
  | Ok h =>
      let c := with_cpu_history c h in
      let cpu_avg := _calc_avg (cpu_temp_history c) in
      let '(ds, hist, res) :=
        read_disks r history_size (disks c) (disk_temp_history c) [] [] None in
      let c := with_disk_history (with_disks c ds) hist in
      match res with
      | Raise e => (c, Some e)
      | Ok (disk_temps, disk_avg_temps, max_disk_temp) =>
          let rpm := read_fan_rpm r in
          let pwm_now := read_pwm fs (pwm_control_file (config c)) in
          (with_status c
             (Status.with_readings (status c) cpu_temp cpu_avg disk_temps
                disk_avg_temps max_disk_temp rpm pwm_now (datetime_now r)),
           None)
      end
  end.

(** Shorthands for what [_read_temps] does to one disk: the reading of
    the cycle, the disks carrying their readings, and the disk's window
    after the cycle. *)
Definition reading_of (r : Readings) (d : DiskInfo.t) : option Z :=
  read_disk_temp r (DiskInfo.device d).

Definition polled (r : Readings) (ds : list DiskInfo.t) : list DiskInfo.t :=
  map (fun d => DiskInfo.with_temp d (reading_of r d)) ds.

Definition window_of (r : Readings) (n : Z) (hist : dict (list Z)) (d : DiskInfo.t)
  : list Z :=
  disk_window_step n (dict_get_default (DiskInfo.id d) hist []) (reading_of r d).

(** The controller and status [_read_temps] leaves, given the results
    of the disk loop. *)
Definition after_read (r : Readings) (fs : Files) (c : FanController)
    (hist : dict (list Z)) (temps avgs : dict (option Z)) (mx : option Z)
  : FanController :=
  let hc := cpu_window_step (temp_history_size (config c)) (cpu_temp_history c)
              (sensors_cpu r) in
  with_status
    (with_disk_history (with_disks (with_cpu_history c hc) (polled r (disks c))) hist)
    (Status.with_readings (status c) (sensors_cpu r) (_calc_avg hc) temps avgs mx
       (read_fan_rpm r) (read_pwm fs (pwm_control_file (config c))) (datetime_now r)).

(** ** The control cycle *)

(** A push message.  [CpuAlert h t rpm] stands for the text
    "[h]: fire CPU: t C | RPM: rpm" and [DiskAlert h l rpm] for
    "[h]: fire id1: t1 C, id2: t2 C, ... | RPM: rpm". *)
Inductive Message : Type :=
| CpuAlert (hostname : string) (cpu_avg : Z) (rpm : option Z)
| DiskAlert (hostname : string) (alert_disks : list (string * Z)) (rpm : option Z).

(** What a cycle does to the outside: calls of [set_pwm] (with the value
    passed and the value returned) and of [_send_push]. *)
Inductive Event : Type :=
| SetPwm (pwm_file : string) (value : Z) (ok : bool)
| Push (m : Message).

(** Where [_control_cycle] returned, or the exception that left it. *)
Inductive Branch : Type := WarmingUp | Disabled | SafetyFallback | Normal.
Inductive Outcome : Type :=
| Returned (b : Branch)
| Raised (e : exn).

(** [min(100, int(warmup_counter / temp_history_size * 100))]. *)
Definition warmup_progress_of (counter history_size : Z) : result Z :=
  ratio <- Float64.true_div counter history_size ;;
  hundred <- Float64.of_int 100 ;;
  p <- Float64.mul ratio hundred ;;
  Ok (Z.min 100 (Float64.to_int p)).

(** The warm-up block: [None] lets the cycle go on. *)
Definition warmup (c : FanController) : FanController * option Outcome :=
  if is_warmed_up c then (c, None)
  else
    let n := warmup_counter c + 1 in
    let c := with_warmup c n false in
    match warmup_progress_of n (temp_history_size (config c)) with
    | Raise e => (c, Some (Raised e))
    | Ok p =>
        let c := with_status c (Status.with_warmup_progress (status c) p) in
        if temp_history_size (config c) <=? n then
          (with_status (with_warmup c n true)
             (Status.with_is_warmed_up (status c) true), None)
        else (c, Some (Returned WarmingUp))
    end.

(** [v is not None and v > 0]. *)
Definition has_temp (v : option Z) : bool :=
  match v with
  | Some x => 0 <? x
  | None => false
  end.

(** "take the larger": ties go to the CPU. *)
Definition select_target (cpu disk : Z * string) : Z * string * string :=
  if fst disk <=? fst cpu then (fst cpu, "CPU", snd cpu)
  else (fst disk, "Disk", snd disk).

(** The PWM threshold check. *)
Definition apply_threshold (threshold : Z) (current_pwm : option Z) (target_pwm : Z) : Z :=
  match current_pwm with
  | Some cur =>
      if (0 <? threshold) && (Z.abs (target_pwm - cur) <? threshold)
      then cur else target_pwm
  | None => target_pwm
  end.

(** [target_pwm != current_pwm] with [current_pwm] possibly [None]. *)
Definition pwm_differs (target_pwm : Z) (current_pwm : option Z) : bool :=
  match current_pwm with
  | Some cur => negb (target_pwm =? cur)
  | None => true
  end.

(** The disk loop of [_check_temp_alert] over [disk_avg_temps.items()]. *)
Fixpoint disk_alerts (now : Float64.float) (interval threshold : Z)
    (avgs : dict (option Z)) (last : dict Float64.float)
  : list (string * Z) * dict Float64.float :=
  match avgs with
  | [] => ([], last)
  | (disk_id, t) :: rest =>
      match t with
      | Some v =>
          if negb (v =? 0) && (threshold <=? v) then
            let last_time := dict_get_default disk_id last 0 in
            if Float64.sub_ge_int now last_time interval then
              let '(al, last') :=
                disk_alerts now interval threshold rest (dict_set disk_id now last) in
              ((disk_id, v) :: al, last')
            else disk_alerts now interval threshold rest last
          else disk_alerts now interval threshold rest last
      | None => disk_alerts now interval threshold rest last
      end
  end.

(** [_check_temp_alert]: the messages handed to [_send_push], in order. *)
Definition _check_temp_alert (r : Readings) (c : FanController)
  : FanController * list Message :=
  if negb (alert_enabled (config c)) then (c, [])
  else
    let current_time := time_time r in
    let interval := alert_interval (config c) in
    let rpm := Status.fan_rpm (status c) in
    let hostname := alert_hostname (config c) in
    let '(tc, cpu_msgs) :=
      match Status.cpu_avg_temp (status c) with
      | Some cpu_avg =>
          if negb (cpu_avg =? 0) && (cpu_alert_temp (config c) <=? cpu_avg)
             && Float64.sub_ge_int current_time (last_alert_time_cpu c) interval
          then (current_time, [CpuAlert hostname cpu_avg rpm])
          else (last_alert_time_cpu c, [])
      | None => (last_alert_time_cpu c, [])
      end in
    let '(alert_disks, td) :=
      disk_alerts current_time interval (disk_alert_temp (config c))
        (Status.disk_avg_temps (status c)) (last_alert_time_disk c) in
    let disk_msgs :=
      match alert_disks with
      | [] => []
      | _ => [DiskAlert hostname alert_disks rpm]
      end in
    (with_alert_times c tc td, cpu_msgs ++ disk_msgs).

(** "Compute PWM" and "take the larger" of [_control_cycle]: the target
    before the threshold check, with its trigger source and stage.  A
    side without data counts as [(0, "")]. *)
Definition raw_target (c : FanController) : result (Z * string * string) :=
  let cpu_avg := Status.cpu_avg_temp (status c) in
  let max_disk := Status.max_disk_temp (status c) in
  cpu <- match cpu_avg with
         | Some t => if has_temp cpu_avg then calculate_pwm t (config c) true else Ok (0, "")
         | None => Ok (0, "")
         end ;;
  disk <- match max_disk with
          | Some t =>
              if has_temp max_disk then calculate_pwm t (config c) false else Ok (0, "")
          | None => Ok (0, "")
          end ;;
  Ok (select_target cpu disk).

(** The part of [_control_cycle] after the [enabled] test. *)
Definition control (r : Readings) (fs : Files) (c : FanController)
  : FanController * Files * list Event * Outcome :=
  let cpu_avg := Status.cpu_avg_temp (status c) in
  let max_disk := Status.max_disk_temp (status c) in
  let current_pwm := Status.current_pwm (status c) in
  let pwm_file := pwm_control_file (config c) in
  let has_cpu_temp := has_temp cpu_avg in
  let has_disk_temp := has_temp max_disk in
  if negb has_cpu_temp && negb has_disk_temp then
    let safe_pwm := 128 in
    let c := with_status c (Status.with_target (status c) safe_pwm "Safety" "warning") in
    if pwm_differs safe_pwm current_pwm then
      let '(fs', ok) := set_pwm fs pwm_file safe_pwm in
      (c, fs', [SetPwm pwm_file safe_pwm ok], Returned SafetyFallback)
    else (c, fs, [], Returned SafetyFallback)
  else
    match raw_target c with
    | Raise e => (c, fs, [], Raised e)
    | Ok (raw, trigger_source, trigger_stage) =>
        let target_pwm :=
          apply_threshold (pwm_change_threshold (config c)) current_pwm raw in
        let '(fs', writes) :=
          if pwm_differs target_pwm current_pwm then
            let '(fs', ok) := set_pwm fs pwm_file target_pwm in
            (fs', [SetPwm pwm_file target_pwm ok])
          else (fs, []) in
        let c :=
          with_status c
            (Status.with_target (status c) target_pwm trigger_source trigger_stage) in
        let '(c, msgs) := _check_temp_alert r c in
        (c, fs', writes ++ map Push msgs, Returned Normal)
    end.

(** The messages a cycle handed to [_send_push], in order. *)
Definition pushed (ev : list Event) : list Message :=
  flat_map (fun e => match e with Push m => [m] | SetPwm _ _ _ => [] end) ev.

(** [avg and avg >= threshold]: an alert threshold is breached. *)
Definition breach (threshold : Z) (avg : option Z) : bool :=
  match avg with
  | Some v => negb (v =? 0) && (threshold <=? v)
  | None => false
  end.

(** The cooldown test of one source, [current_time - last_time >= interval]. *)
Definition due (now : Float64.float) (interval : Z) (last_time : Float64.float) : bool :=
  Float64.sub_ge_int now last_time interval.

(** The entries of [avgs] that breach [threshold] while their own clock
    in [last] (0 for a source that never alerted) is due. *)
Fixpoint newly_alerting (now : Float64.float) (interval threshold : Z)
    (last : dict Float64.float) (avgs : dict (option Z)) : list (string * Z) :=
  match avgs with
  | [] => []
  | (disk_id, t) :: rest =>
      match t with
      | Some v =>
          if breach threshold t && due now interval (dict_get_default disk_id last 0)
          then (disk_id, v) :: newly_alerting now interval threshold last rest
          else newly_alerting now interval threshold last rest
      | None => newly_alerting now interval threshold last rest
      end
  end.

Definition mem_key (id : string) (l : list (string * Z)) : bool :=
  existsb (fun p => String.eqb id (fst p)) l.

(** Whether a list of messages holds a CPU alert, or a disk alert that
    lists the disk [id]. *)
Definition cpu_alerted (msgs : list Message) : bool :=
  existsb (fun m => match m with CpuAlert _ _ _ => true | DiskAlert _ _ _ => false end) msgs.

Definition disk_alerted (id : string) (msgs : list Message) : bool :=
  existsb (fun m => match m with
                    | CpuAlert _ _ _ => false
                    | DiskAlert _ l _ => mem_key id l
                    end) msgs.

(** The events that touch the actuator. *)
Definition is_write (e : Event) : Prop :=
  match e with
  | SetPwm _ _ _ => True
  | Push _ => False
  end.

(** [_control_cycle]. *)
Definition _control_cycle (r : Readings) (fs : Files) (c : FanController)
  : FanController * Files * list Event * Outcome :=
  match _read_temps r fs c with
  | (c, Some e) => (c, fs, [], Raised e)
  | (c, None) =>
      match warmup c with
      | (c, Some o) => (c, fs, [], o)
      | (c, None) =>
          if negb (enabled (config c)) then (c, fs, [], Returned Disabled)
          else control r fs c
      end
  end.

(** ** The other controller operations *)

(** [detect_disks], given what [detect_all_disks] found: the active flag
    follows [config.active_disks]. *)
Definition detect_disks (found : list DiskInfo.t) (c : FanController) : FanController :=
  with_disks c
    (map (fun d => DiskInfo.with_active d
                     (existsb (String.eqb (DiskInfo.id d)) (active_disks (config c))))
         found).

Definition with_active_disks (cfg : FanConfig) (ids : list string) : FanConfig :=
  mkConfig (enabled cfg) (temp_history_size cfg) (pwm_change_threshold cfg)
    (alert_enabled cfg) (cpu_alert_temp cfg) (disk_alert_temp cfg)
    (alert_interval cfg) (alert_hostname cfg) (pwm_control_file cfg)
    (use_curve_mode cfg) (cpu_curve cfg) (disk_curve cfg)
    (cpu_idle_temp_min cfg) (cpu_idle_temp_max cfg) (cpu_work_temp_max cfg)
    (cpu_warning_temp_max cfg) (cpu_critical_temp_max cfg)
    (disk_idle_temp_min cfg) (disk_idle_temp_max cfg) (disk_work_temp_max cfg)
    (disk_warning_temp_max cfg) (disk_critical_temp_max cfg)
    (idle_pwm_min cfg) (idle_pwm_max cfg) (work_pwm_min cfg) (work_pwm_max cfg)
    (warning_pwm_min cfg) (warning_pwm_max cfg)
    (critical_pwm_min cfg) (critical_pwm_max cfg) ids.

(** [set_active_disks] (the save of the configuration file apart). *)
Definition set_active_disks (disk_ids : list string) (c : FanController) : FanController :=
  with_disks (with_config c (with_active_disks (config c) disk_ids))
    (map (fun d => DiskInfo.with_active d
                     (existsb (String.eqb (DiskInfo.id d)) disk_ids))
         (disks c)).

(** [set_manual_pwm]. *)
Definition set_manual_pwm (fs : Files) (c : FanController) (value : Z) : Files * bool :=
  set_pwm fs (pwm_control_file (config c)) value.

(** [refresh]: one [_read_temps], then the status. *)
Definition refresh (r : Readings) (fs : Files) (c : FanController)
  : FanController * result Status.t :=
  match _read_temps r fs c with
  | (c, Some e) => (c, Raise e)
  | (c, None) => (c, Ok (status c))
  end.

(** [start], the thread apart: a stopped controller restarts its warm-up. *)
Definition start (c : FanController) : FanController :=
  if running c then c
  else with_warmup (with_running c true) 0 false.

(** Consecutive cycles: each takes the readings of its tick and the files
    as the previous one left them; as in [_run_loop], an exception ends
    the cycle but not the run. *)
Fixpoint run_cycles (rs : list Readings) (fs : Files) (c : FanController)
  : FanController * Files * list (list Event * Outcome) :=
  match rs with
  | [] => (c, fs, [])
  | r :: rs' =>
      let '(c1, fs1, ev, o) := _control_cycle r fs c in
      let '(c2, fs2, log) := run_cycles rs' fs1 c1 in
      (c2, fs2, (ev, o) :: log)
  end.

(** ** The configuration object and its reflective update

    [FanConfig.update] goes through [hasattr] and [setattr], so it sees
    the configuration as Python does: an instance [__dict__] over the
    names the class provides.  This module models that view; the record
    [FanConfig] above is the typed reading the engine makes of it. *)

Module PyConfig.

(** A value decoded from JSON. *)
#[local] Unset Elimination Schemes.
Inductive value : Type :=
| VNull
| VBool (b : bool)
| VInt (z : Z)
| VFloat (x : Float64.float)
| VStr (s : string)
| VList (l : list value)
| VDict (d : list (string * value)).
#[local] Set Elimination Schemes.

Definition curve_value (c : Curve) : value :=
  VList (map (fun p => VDict [("temp", VInt (temp p)); ("pwm", VInt (pwm p))]) c).

(** The class attributes the dataclass keeps for the fields declared
    with a plain default. *)
Definition class_defaults : dict value :=
  [("enabled", VBool true); ("check_interval", VFloat (5 * 2 ^ 1073));
   ("temp_history_size", VInt 4); ("pwm_change_threshold", VInt 0);
   ("alert_enabled", VBool true); ("cpu_alert_temp", VInt 62);
   ("disk_alert_temp", VInt 42); ("alert_interval", VInt 60);
   ("alert_hostname", VStr "MainNAS");
   ("pwm_control_file", VStr "/sys/class/hwmon/hwmon4/pwm3");
   ("pwm_enable_file", VStr "/sys/class/hwmon/hwmon4/pwm3_enable");
   ("use_curve_mode", VBool true);
   ("cpu_idle_temp_min", VInt 45); ("cpu_idle_temp_max", VInt 50);
   ("cpu_work_temp_max", VInt 62); ("cpu_warning_temp_max", VInt 72);
   ("cpu_critical_temp_max", VInt 80);
   ("disk_idle_temp_min", VInt 38); ("disk_idle_temp_max", VInt 40);
   ("disk_work_temp_max", VInt 42); ("disk_warning_temp_max", VInt 44);
   ("disk_critical_temp_max", VInt 46);
   ("idle_pwm_min", VInt 30); ("idle_pwm_max", VInt 60);
   ("work_pwm_min", VInt 60); ("work_pwm_max", VInt 150);
   ("warning_pwm_min", VInt 150); ("warning_pwm_max", VInt 220);
   ("critical_pwm_min", VInt 220); ("critical_pwm_max", VInt 255)].

(** The dataclass fields, in declaration order. *)
Definition field_names : list string :=
  ["enabled"; "check_interval"; "temp_history_size"; "pwm_change_threshold";
   "alert_enabled"; "cpu_alert_temp"; "disk_alert_temp"; "alert_interval";
   "alert_hostname"; "pwm_control_file"; "pwm_enable_file"; "use_curve_mode";
   "cpu_curve"; "disk_curve";
   "cpu_idle_temp_min"; "cpu_idle_temp_max"; "cpu_work_temp_max";
   "cpu_warning_temp_max"; "cpu_critical_temp_max";
   "disk_idle_temp_min"; "disk_idle_temp_max"; "disk_work_temp_max";
   "disk_warning_temp_max"; "disk_critical_temp_max";
   "idle_pwm_min"; "idle_pwm_max"; "work_pwm_min"; "work_pwm_max";
   "warning_pwm_min"; "warning_pwm_max"; "critical_pwm_min"; "critical_pwm_max";
   "active_disks"].

Definition method_names : list string := ["to_dict"; "update"; "save"; "load"].

(** The three names every instance carries and [setattr] guards:
    [__class__] accepts only a class, [__dict__] only a dict, and
    [__weakref__] is read-only. *)
Definition reserved_names : list string := ["__class__"; "__dict__"; "__weakref__"].

Definition mem (k : string) (l : list string) : bool := existsb (String.eqb k) l.

(** [FanConfig()]: every field in the instance [__dict__]. *)
Definition default_instance : dict value :=
  map (fun k =>
         (k, match dict_get k class_defaults with
             | Some v => v
             | None =>
                 if String.eqb k "cpu_curve" then curve_value DEFAULT_CPU_CURVE
                 else if String.eqb k "disk_curve" then curve_value DEFAULT_DISK_CURVE
                 else VList []
             end))
      field_names.

Section Interpreter.

(** The remaining names found on the class: those [object] and the
    dataclass decorator add ([__init__], [__eq__], [__doc__], ...),
    which depend on the interpreter version. *)
Variable runtime_names : list string.

(** [hasattr(self, key)] for an instance with [__dict__] [obj]. *)
Definition hasattr (obj : dict value) (key : string) : bool :=
  dict_mem key obj || mem key reserved_names || mem key (dict_keys class_defaults)
  || mem key method_names || mem key runtime_names.

(** [setattr(self, key, v)] with a JSON value [v]. *)
Definition setattr (obj : dict value) (key : string) (v : value)
  : result (dict value) :=
  if String.eqb key "__class__" then Raise TypeError
  else if String.eqb key "__dict__" then
    match v with
    | VDict d => Ok d
    | _ => Raise TypeError
    end
  else if String.eqb key "__weakref__" then Raise AttributeError
  else Ok (dict_set key v obj).

(** [FanConfig.update]: the loop over [data.items()].  The object is
    returned as the loop left it, with the exception that ended it. *)
Fixpoint update (obj : dict value) (data : dict value)
  : dict value * option exn :=
  match data with
  | [] => (obj, None)
  | (key, v) :: rest =>
      if hasattr obj key then
        match setattr obj key v with
        | Ok obj' => update obj' rest
        | Raise e => (obj, Some e)
        end
      else update obj rest
  end.

(** [getattr(self, key)]: the instance first, then the class default. *)
Definition getattr (obj : dict value) (key : string) : result value :=
  match dict_get key obj with
  | Some v => Ok v
  | None =>
      match dict_get key class_defaults with
      | Some v => Ok v
      | None => Raise AttributeError
      end
  end.

(** [to_dict], that is [asdict(self)]: the fields, in order. *)
Fixpoint collect (obj : dict value) (names : list string) : result (dict value) :=
  match names with
  | [] => Ok []
  | k :: rest =>
      v <- getattr obj k ;;
      d <- collect obj rest ;;
      Ok ((k, v) :: d)
  end.

Definition to_dict (obj : dict value) : result (dict value) :=
  if dict_mem "to_dict" obj then Raise TypeError else collect obj field_names.

(** [FanController.update_config]: the update, then [_save_config].
    A JSON value stored under a method name is not callable.  [save]
    itself catches every exception, so only the call can raise. *)
Definition update_config (config_path : option string) (obj : dict value)
    (data : dict value) : dict value * option exn :=
  if dict_mem "update" obj then (obj, Some TypeError)
  else
    match update obj data with
    | (obj', Some e) => (obj', Some e)
    | (obj', None) =>
        match config_path with
        | Some _ => if dict_mem "save" obj' then (obj', Some TypeError) else (obj', None)
        | None => (obj', None)
        end
    end.

End Interpreter.

End PyConfig.

(** [FanConfig.load], given what the file yields: [None] when it does
    not exist, [Some None] when reading or decoding it raises, and the
    decoded dictionary otherwise.  Every exception is swallowed, also
    one raised by [update], which leaves the configuration as the loop
    had it. *)
Definition load (runtime_names : list string) (file : option (option (dict PyConfig.value)))
  : dict PyConfig.value :=
  match file with
  | Some (Some data) => fst (PyConfig.update runtime_names PyConfig.default_instance data)
  | _ => PyConfig.default_instance
  end.

(** ** Disk detection

    [detect_all_disks] walks the sorted listing of [/dev/disk/by-path].
    What the operating system answers is the probe: for each entry
    whether it is a link and where it resolves to, for a device the
    content of its [queue/rotational] file and what [get_disk_info]
    returns.  [Failed] is a call that raised; the loop catches it, skips
    the entry and keeps what the entry had changed before. *)

Inductive os (A : Type) : Type :=
| Got (a : A)
| Failed.
Arguments Got {A} a.
Arguments Failed {A}.

Record PathEntry : Type := mkEntry {
  entry_name : string;
  islink : bool;
  realpath : os string
}.

Record Probe : Type := mkProbe {
  by_path : list PathEntry;
  rotational : string -> option (os string);
  get_disk_info : string -> os (string * string * string)
}.

(** [sub in s] on strings. *)
Fixpoint contains (sub s : string) : bool :=
  String.prefix sub s ||
  match s with
  | EmptyString => false
  | String _ s' => contains sub s'
  end.

(** [os.path.basename]: what follows the last slash. *)
Fixpoint basename (p : string) : string :=
  match p with
  | EmptyString => EmptyString
  | String c rest =>
      if contains "/" rest then basename rest
      else if Ascii.eqb c "/" then rest else p
  end.

(** [str(n)] of a counter. *)
Definition str (n : nat) : string := NilEmpty.string_of_uint (Nat.to_uint n).

(** The loop state: [seen_devices], [disk_counter] and [disks]. *)
Record Detect : Type := mkDetect {
  seen_devices : list string;
  ata : nat;
  nvme : nat;
  usb : nat;
  detected : list DiskInfo.t
}.

Definition detect_entry (p : Probe) (st : Detect) (e : PathEntry) : Detect :=
  let entry := entry_name e in
  if contains "part" entry then st
  else if negb (islink e) then st
  else
    match realpath e with
    | Failed => st
    | Got real_path =>
        let device := basename real_path in
        if existsb (String.eqb device) (seen_devices st) then st
        else
          let seen := device :: seen_devices st in
          if contains "nvme" entry then
            let n := S (nvme st) in
            let st := mkDetect seen (ata st) n (usb st) (detected st) in
            match get_disk_info p device with
            | Failed => st
            | Got (model, serial, size) =>
                mkDetect seen (ata st) n (usb st)
                  (detected st ++
                   [DiskInfo.mk (String.append "NVMe" (str n)) device real_path entry
                      model serial size "NVMe" None false])
            end
          else if contains "usb" entry then
            let n := S (usb st) in
            let st := mkDetect seen (ata st) (nvme st) n (detected st) in
            match get_disk_info p device with
            | Failed => st
            | Got (model, serial, size) =>
                mkDetect seen (ata st) (nvme st) n
                  (detected st ++
                   [DiskInfo.mk (String.append "USB" (str n)) device real_path entry
                      model serial size "USB" None false])
            end
          else if contains "ata" entry then
            let n := S (ata st) in
            let st := mkDetect seen n (nvme st) (usb st) (detected st) in
            let disk_type :=
              match rotational p device with
              | None => Got "HDD"
              | Some Failed => Failed
              | Some (Got content) => Got (if String.eqb content "0" then "SSD" else "HDD")
              end in
            match disk_type with
            | Failed => st
            | Got disk_type =>
                match get_disk_info p device with
                | Failed => st
                | Got (model, serial, size) =>
                    mkDetect seen n (nvme st) (usb st)
                      (detected st ++
                       [DiskInfo.mk (String.append "Disk" (str n)) device real_path entry
                          model serial size disk_type None false])
                end
            end
          else mkDetect seen (ata st) (nvme st) (usb st) (detected st)
    end.

(** [detect_all_disks]; a missing directory is the empty listing. *)
Definition detect_all_disks (p : Probe) : list DiskInfo.t :=
  detected (fold_left (detect_entry p) (by_path p) (mkDetect [] 0 0 0 [])).

(** The ids handed out so far: distinct, and numbered within the
    counters. *)
Definition numbered (st : Detect) (i : string) : Prop :=
  (exists n, i = String.append "NVMe" (str n) /\ (n <= nvme st)%nat) \/
  (exists n, i = String.append "USB" (str n) /\ (n <= usb st)%nat) \/
  (exists n, i = String.append "Disk" (str n) /\ (n <= ata st)%nat).

Definition detect_inv (st : Detect) : Prop :=
  NoDup (map DiskInfo.id (detected st)) /\
  NoDup (map DiskInfo.device (detected st)) /\
  (forall d, In d (detected st) ->
     numbered st (DiskInfo.id d) /\ In (DiskInfo.device d) (seen_devices st) /\
     DiskInfo.active d = false /\ DiskInfo.temp d = None).

(** * LED control service (fn-led/app/server/led_control.py)

    The state machines of the LED service: the states the LEDs are
    driven to ([determine_power_state], [determine_disk_state],
    [LedStateManager]), the disk map ([DiskMonitor]), the push notifier
    ([PushNotifier]) and one turn of the main loop ([_update_leds]).  A
    command line handed to [ugreen_leds_cli] is a [Command]; what the
    program answers is the function [cli] passed to each call. *)

Module Led.

Definition COLORS : dict (Z * Z * Z) :=
  [("red", (255, 0, 0)); ("green", (0, 255, 0)); ("blue", (0, 0, 255));
   ("white", (255, 255, 255)); ("yellow", (255, 255, 0)); ("cyan", (0, 255, 255));
   ("purple", (255, 0, 255)); ("orange", (255, 165, 0)); ("off", (0, 0, 0))].

(** [(on_ms, off_ms)]. *)
Definition BLINK_SPEEDS : dict (Z * Z) :=
  [("veryfast", (81, 76)); ("fast", (125, 250)); ("normal", (274, 271));
   ("slow", (495, 483))].

(** [(cycle_ms, on_ms)]. *)
Definition BREATH_SPEEDS : dict (Z * Z) :=
  [("fast", (1500, 1000)); ("normal", (2000, 1000)); ("slow", (3000, 1000))].

Definition DEFAULT_DISK_PCI_PATHS : dict string :=
  [("SSD1", "pci-0000:05:00.0-nvme-1"); ("SSD2", "pci-0000:04:00.0-nvme-1");
   ("Disk0", "pci-0000:00:0d.0-usb-0:1:1.0-scsi-0:0:0:0");
   ("Disk1", "pci-0000:01:00.0-ata-1"); ("Disk2", "pci-0000:01:00.0-ata-2");
   ("Disk3", "pci-0000:01:00.0-ata-3"); ("Disk4", "pci-0000:01:00.0-ata-4")].

Definition DEFAULT_DISK_LED_MAP : dict string :=
  [("Disk0", "netdev"); ("Disk1", "disk1"); ("Disk2", "disk2");
   ("Disk3", "disk3"); ("Disk4", "disk4")].

Record LedConfig : Type := mkConfig {
  led_enabled : bool;
  internal_gateway : string;
  external_dns : string;
  push_scheduled_hours : list Z;
  push_confirm_delay : Z;
  push_hostname : string;
  led_brightness : Z;
  led_brightness_startup : Z;
  disk_pci_paths : dict string;
  disk_led_map : dict string
}.

Definition default_config : LedConfig :=
  mkConfig true "10.0.0.254" "223.5.5.5" [8; 12; 18; 22] 10 "MainNAS" 32 64
    DEFAULT_DISK_PCI_PATHS DEFAULT_DISK_LED_MAP.

Definition with_led_enabled (cfg : LedConfig) (b : bool) : LedConfig :=
  mkConfig b (internal_gateway cfg) (external_dns cfg) (push_scheduled_hours cfg)
    (push_confirm_delay cfg) (push_hostname cfg) (led_brightness cfg)
    (led_brightness_startup cfg) (disk_pci_paths cfg) (disk_led_map cfg).

(** ** The LED controller *)

(** The argument lists given to [ugreen_leds_cli]:
    [[name, "-off"]],
    [[name, "-color", r, g, b, "-brightness", n, "-on"]],
    [[..., "-blink", on_ms, off_ms]] and [[..., "-breath", cycle_ms, on_ms]]. *)
Inductive Command : Type :=
| CmdOff (name : string)
| CmdOn (name : string) (rgb : Z * Z * Z) (brightness : Z)
| CmdBlink (name : string) (rgb : Z * Z * Z) (brightness : Z) (on_ms off_ms : Z)
| CmdBreath (name : string) (rgb : Z * Z * Z) (brightness : Z) (cycle_ms on_ms : Z).

(** The controller: the path of the program it found, if any. *)
Definition LedController : Type := option string.

(** [_run_cmd]: the commands run and the result. *)
Definition _run_cmd (ctl : LedController) (cli : Command -> bool) (cmd : Command)
  : list Command * bool :=
  match ctl with
  | Some path => if String.eqb path "" then ([], false) else ([cmd], cli cmd)
  | None => ([], false)
  end.

Definition rgb_of (color : string) : Z * Z * Z :=
  dict_get_default color COLORS (255, 255, 255).

Definition set_led (ctl : LedController) (cli : Command -> bool)
    (name color : string) (brightness : Z) : list Command * bool :=
  _run_cmd ctl cli (CmdOn name (rgb_of color) brightness).

Definition set_blink (ctl : LedController) (cli : Command -> bool)
    (name color : string) (brightness : Z) (speed : string) : list Command * bool :=
  let '(on_ms, off_ms) := dict_get_default speed BLINK_SPEEDS (274, 271) in
  _run_cmd ctl cli (CmdBlink name (rgb_of color) brightness on_ms off_ms).

Definition set_breath (ctl : LedController) (cli : Command -> bool)
    (name color : string) (brightness : Z) (speed : string) : list Command * bool :=
  let '(cycle_ms, on_ms) := dict_get_default speed BREATH_SPEEDS (2000, 1000) in
  _run_cmd ctl cli (CmdBreath name (rgb_of color) brightness cycle_ms on_ms).

Definition turn_off (ctl : LedController) (cli : Command -> bool) (name : string)
  : list Command * bool :=
  _run_cmd ctl cli (CmdOff name).

Definition turn_off_all (ctl : LedController) (cli : Command -> bool)
  : list Command * bool :=
  _run_cmd ctl cli (CmdOff "all").

(** The loop of [blink_all]: every LED is tried, a failure is remembered. *)
Fixpoint blink_each (ctl : LedController) (cli : Command -> bool) (leds : list string)
    (color : string) (brightness : Z) (speed : string) (success : bool)
  : list Command * bool :=
  match leds with
  | [] => ([], success)
  | led :: rest =>
      let '(c1, ok) := set_blink ctl cli led color brightness speed in
      let '(c2, res) :=
        blink_each ctl cli rest color brightness speed (if ok then success else false) in
      (c1 ++ c2, res)
  end.

Definition blink_all (cfg : LedConfig) (ctl : LedController) (cli : Command -> bool)
    (color : string) (brightness : option Z) (speed : string) : list Command * bool :=
  let brightness :=
    match brightness with
    | Some b => b
    | None => led_brightness_startup cfg
    end in
  blink_each ctl cli ["power"; "netdev"; "disk1"; "disk2"; "disk3"; "disk4"]
    color brightness speed true.

(** ** LED states *)

Inductive LedState : Type :=
| OFF | RED_ON | RED_BLINK | BLUE_ON | BLUE_BREATH | YELLOW_ON
| YELLOW_BLINK_SLOW | YELLOW_BLINK_NORMAL | YELLOW_BLINK_FAST
| YELLOW_BLINK_VERYFAST | WHITE_BLINK.

(** The value of each member of the enumeration. *)
Definition value (s : LedState) : string :=
  match s with
  | OFF => "off"
  | RED_ON => "red_on"
  | RED_BLINK => "red_blink"
  | BLUE_ON => "blue_on"
  | BLUE_BREATH => "blue_breath"
  | YELLOW_ON => "yellow_on"
  | YELLOW_BLINK_SLOW => "yellow_blink_slow"
  | YELLOW_BLINK_NORMAL => "yellow_blink_normal"
  | YELLOW_BLINK_FAST => "yellow_blink_fast"
  | YELLOW_BLINK_VERYFAST => "yellow_blink_veryfast"
  | WHITE_BLINK => "white_blink"
  end.

(** [current == state] on members. *)
Definition state_eqb (a b : LedState) : bool := String.eqb (value a) (value b).

Definition _apply_state (cfg : LedConfig) (ctl : LedController) (cli : Command -> bool)
    (led_name : string) (state : LedState) : list Command * bool :=
  let b := led_brightness cfg in
  match state with
  | OFF => turn_off ctl cli led_name
  | RED_ON => set_led ctl cli led_name "red" b
  | RED_BLINK => set_blink ctl cli led_name "red" b "normal"
  | BLUE_ON => set_led ctl cli led_name "blue" b
  | BLUE_BREATH => set_breath ctl cli led_name "blue" b "fast"
  | YELLOW_ON => set_led ctl cli led_name "yellow" b
  | YELLOW_BLINK_SLOW => set_blink ctl cli led_name "yellow" b "slow"
  | YELLOW_BLINK_NORMAL => set_blink ctl cli led_name "yellow" b "normal"
  | YELLOW_BLINK_FAST => set_blink ctl cli led_name "yellow" b "fast"
  | YELLOW_BLINK_VERYFAST => set_blink ctl cli led_name "yellow" b "veryfast"
  | WHITE_BLINK => set_blink ctl cli led_name "white" (led_brightness_startup cfg) "fast"
  end.

(** [LedStateManager.set_state] over [_current_states]. *)
Definition set_state (cfg : LedConfig) (ctl : LedController) (cli : Command -> bool)
    (current_states : dict LedState) (led_name : string) (state : LedState)
  : dict LedState * list Command * bool :=
  let unchanged :=
    match dict_get led_name current_states with
    | Some current => state_eqb current state
    | None => false
    end in
  if unchanged then (current_states, [], true)
  else
    let '(cmds, ok) := _apply_state cfg ctl cli led_name state in
    if ok then (dict_set led_name state current_states, cmds, true)
    else (current_states, cmds, false).

Record NetworkStatus : Type := mkNetwork { internal_ok : bool; external_ok : bool }.

(** One turn of [NetworkMonitor._check_loop]: the DNS server is pinged
    only when the gateway answers. *)
Definition check_network (cfg : LedConfig) (ping : string -> bool) : NetworkStatus :=
  let internal := ping (internal_gateway cfg) in
  let external := if internal then ping (external_dns cfg) else false in
  mkNetwork internal external.

Definition determine_power_state (network : NetworkStatus) : LedState :=
  if internal_ok network && external_ok network then BLUE_BREATH
  else if negb (internal_ok network) && negb (external_ok network) then RED_BLINK
  else YELLOW_BLINK_NORMAL.

(** ** Disks *)

Record DiskInfo : Type := mkDisk {
  disk_id : string;
  device : string;
  is_sleeping : bool;
  busy_percent : Z
}.

Definition determine_disk_state (disk : DiskInfo) : LedState :=
  if String.eqb (device disk) "" then RED_BLINK
  else if is_sleeping disk then BLUE_ON
  else
    let busy := busy_percent disk in
    if busy =? 0 then YELLOW_ON
    else if busy <=? 25 then YELLOW_BLINK_SLOW
    else if busy <=? 50 then YELLOW_BLINK_NORMAL
    else if busy <=? 75 then YELLOW_BLINK_FAST
    else YELLOW_BLINK_VERYFAST.

(** [find_disks]: for each configured id the first entry of the
    directory, in the order it is listed, whose name holds the PCI
    pattern and not "part"; the entry resolves to a device name, or
    resolving raises and the id is left out.  [None] is a missing
    directory. *)
Definition find_disks (cfg : LedConfig) (by_path : option (list (string * os string)))
  : dict string :=
  match by_path with
  | None => []
  | Some entries =>
      fold_left
        (fun result item =>
           let '(id, pci_pattern) := item in
           match find (fun e => contains pci_pattern (fst e)
                                && negb (contains "part" (fst e))) entries with
           | Some (_, Got dev) => dict_set id dev result
           | _ => result
           end)
        (disk_pci_paths cfg) []
  end.

(** [update_disk_map] over [DiskMonitor.disks]. *)
Definition update_disk_map (disk_map : dict string) (disks : dict DiskInfo)
  : dict DiskInfo :=
  fold_left
    (fun ds item =>
       let '(id, dev) := item in
       let info :=
         match dict_get id ds with
         | Some info => info
         | None => mkDisk id "" false 0
         end in
       dict_set id (mkDisk (disk_id info) dev (is_sleeping info) (busy_percent info)) ds)
    disk_map disks.

(** [check_sleep_status], with what [hdparm -C] reports for a device. *)
Definition check_sleep_status (hdparm : string -> bool) (dev : string) : bool :=
  if String.eqb dev "" || String.prefix "nvme" dev then false else hdparm dev.

(** What one turn of the main loop reads from outside. *)
Record Sensors : Type := mkSensors {
  network : NetworkStatus;
  by_path : option (list (string * os string));
  hdparm : string -> bool;
  busy_data : dict Z;
  time_time : Float64.float;
  tm_hour : Z
}.

(** [update_all_status]. *)
Definition update_all_status (cfg : LedConfig) (s : Sensors) (disks : dict DiskInfo)
  : dict DiskInfo :=
  map (fun item =>
         let '(id, info) := item in
         if String.eqb (device info) "" then (id, info)
         else
           let sleeping := check_sleep_status (hdparm s) (device info) in
           if sleeping
           then (id, mkDisk (disk_id info) (device info) true (busy_percent info))
           else (id, mkDisk (disk_id info) (device info) false
                       (dict_get_default (device info) (busy_data s) 0)))
      (update_disk_map (find_disks cfg (by_path s)) disks).

(** ** The push notifier *)

Inductive Icon : Type := Sleeping | Awake | Absent.

(** The two messages: "[host]: icon icon icon icon" and
    "[host]: disks offline: id, id, ...". *)
Inductive Push : Type :=
| StatusChange (hostname : string) (icons : list Icon)
| DisksOffline (hostname : string) (ids : list string).

Record PushNotifier : Type := mkNotifier {
  _last_sleep_states : dict bool;
  _last_health_states : dict bool;
  _last_push_hour : Z;
  _pending_change_time : Float64.float;
  _pending_change_data : option (dict bool)
}.

Definition new_notifier : PushNotifier := mkNotifier [] [] (-1) 0 None.

Definition push_disk_ids : list string := ["Disk1"; "Disk2"; "Disk3"; "Disk4"].

(** [disk and disk.device]. *)
Definition present (disks : dict DiskInfo) (id : string) : option DiskInfo :=
  match dict_get id disks with
  | Some disk => if String.eqb (device disk) "" then None else Some disk
  | None => None
  end.

(** The first loop of [check_sleep_change]: [current_states] and the
    ids whose state differs from the one remembered. *)
Fixpoint sleep_scan (disks : dict DiskInfo) (last : dict bool) (ids : list string)
    (current_states : dict bool) (changed : list string)
  : dict bool * list string :=
  match ids with
  | [] => (current_states, changed)
  | id :: rest =>
      match present disks id with
      | Some disk =>
          let current_states := dict_set id (is_sleeping disk) current_states in
          let changed :=
            match dict_get id last with
            | Some last_state =>
                if Bool.eqb last_state (is_sleeping disk) then changed
                else changed ++ [id]
            | None => changed
            end in
          sleep_scan disks last rest current_states changed
      | None => sleep_scan disks last rest current_states changed
      end
  end.

Definition status_icons (disks : dict DiskInfo) : list Icon :=
  map (fun id =>
         match present disks id with
         | Some disk => if is_sleeping disk then Sleeping else Awake
         | None => Absent
         end)
      push_disk_ids.

Definition check_sleep_change (cfg : LedConfig) (now : Float64.float)
    (disks : dict DiskInfo) (n : PushNotifier) : PushNotifier * list Push :=
  let '(current_states, changed) := sleep_scan disks (_last_sleep_states n) push_disk_ids [] [] in
  match changed with
  | _ :: _ =>
      match _pending_change_data n with
      | None =>
          (mkNotifier (_last_sleep_states n) (_last_health_states n) (_last_push_hour n)
             now (Some current_states), [])
      | Some _ =>
          if negb (Float64.sub_ge_int now (_pending_change_time n) (push_confirm_delay cfg))
          then (n, [])
          else
            (mkNotifier current_states (_last_health_states n) (_last_push_hour n)
               (_pending_change_time n) None,
             [StatusChange (push_hostname cfg) (status_icons disks)])
      end
  | [] =>
      (mkNotifier current_states (_last_health_states n) (_last_push_hour n)
         (_pending_change_time n) None, [])
  end.

(** The loop of [check_offline_change]: the health states, the disks
    offline and those that were online the last time. *)
Fixpoint offline_scan (disks : dict DiskInfo) (ids : list string)
    (health : dict bool) (offline_disks new_offline : list string)
  : dict bool * list string * list string :=
  match ids with
  | [] => (health, offline_disks, new_offline)
  | id :: rest =>
      let was_online := dict_get_default id health true in
      match present disks id with
      | None =>
          offline_scan disks rest (dict_set id false health) (offline_disks ++ [id])
            (if was_online then new_offline ++ [id] else new_offline)
      | Some _ =>
          offline_scan disks rest (dict_set id true health) offline_disks new_offline
      end
  end.

Definition check_offline_change (cfg : LedConfig) (current_hour : Z)
    (disks : dict DiskInfo) (n : PushNotifier) : PushNotifier * list Push :=
  let '(health, offline_disks, new_offline) :=
    offline_scan disks push_disk_ids (_last_health_states n) [] [] in
  let n := mkNotifier (_last_sleep_states n) health (_last_push_hour n)
             (_pending_change_time n) (_pending_change_data n) in
  match new_offline with
  | _ :: _ => (n, [DisksOffline (push_hostname cfg) new_offline])
  | [] =>
      if existsb (Z.eqb current_hour) (push_scheduled_hours cfg)
         && negb (_last_push_hour n =? current_hour)
      then
        (mkNotifier (_last_sleep_states n) health current_hour
           (_pending_change_time n) (_pending_change_data n),
         match offline_disks with
         | _ :: _ => [DisksOffline (push_hostname cfg) offline_disks]
         | [] => []
         end)
      else (n, [])
  end.

(** ** The service *)

Record MonitorService : Type := mkService {
  config : LedConfig;
  controller : LedController;
  disks : dict DiskInfo;
  _current_states : dict LedState;
  _simulated_states : dict string;
  push_notifier : PushNotifier
}.

(** The loop of [_update_leds] that fills [disk_states]. *)
Definition disk_states_of (cfg : LedConfig) (disks : dict DiskInfo) : dict LedState :=
  fold_left
    (fun states item =>
       let '(id, led_name) := item in
       dict_set led_name
         match dict_get id disks with
         | Some disk => determine_disk_state disk
         | None => RED_BLINK
         end
         states)
    (disk_led_map cfg) [].

(** [set_state] for every entry, in order. *)
Fixpoint set_states (cfg : LedConfig) (ctl : LedController) (cli : Command -> bool)
    (current_states : dict LedState) (todo : dict LedState)
  : dict LedState * list Command :=
  match todo with
  | [] => (current_states, [])
  | (led_name, state) :: rest =>
      let '(current_states, c1, _) := set_state cfg ctl cli current_states led_name state in
      let '(current_states, c2) := set_states cfg ctl cli current_states rest in
      (current_states, c1 ++ c2)
  end.

(** [_update_leds]: the service after the turn, the commands run and
    the messages pushed. *)
Definition _update_leds (s : Sensors) (cli : Command -> bool) (svc : MonitorService)
  : MonitorService * list Command * list Push :=
  let cfg := config svc in
  let disks := update_all_status cfg s (disks svc) in
  let power_state := determine_power_state (network s) in
  let disk_states := disk_states_of cfg disks in
  let '(current_states, cmds) :=
    if led_enabled cfg
    then set_states cfg (controller svc) cli (_current_states svc)
           (("power", power_state) :: disk_states)
    else (_current_states svc, []) in
  let simulated :=
    fold_left (fun sim item => dict_set (fst item) (value (snd item)) sim)
      disk_states [("power", value power_state)] in
  let '(n1, p1) := check_sleep_change cfg (time_time s) disks (push_notifier svc) in
  let '(n2, p2) := check_offline_change cfg (tm_hour s) disks n1 in
  (mkService cfg (controller svc) disks current_states simulated n2, cmds, p1 ++ p2).

(** [toggle_leds] (the save of the configuration file apart). *)
Definition toggle_leds (cli : Command -> bool) (svc : MonitorService) (enabled : bool)
  : MonitorService * list Command :=
  let cfg := with_led_enabled (config svc) enabled in
  if enabled
  then (mkService cfg (controller svc) (disks svc) (_current_states svc)
          (_simulated_states svc) (push_notifier svc), [])
  else
    (mkService cfg (controller svc) (disks svc) []
       (_simulated_states svc) (push_notifier svc),
     fst (turn_off_all (controller svc) cli)).

Definition new_service (cfg : LedConfig) (ctl : LedController) : MonitorService :=
  mkService cfg ctl [] [] [] new_notifier.

(** The health states agree with the disks: the state of every
    watched id says whether the disk has a device. *)
Definition settled (ds : dict DiskInfo) (health : dict bool) : Prop :=
  forall id, In id push_disk_ids ->
    dict_get id health = Some (match present ds id with Some _ => true | None => false end).

End Led.

(** ** Sample data

    Concrete configurations, controllers and readings on which the
    statements below are run. *)

Definition with_curves (cfg : FanConfig) (cc dc : Curve) : FanConfig :=
  mkConfig (enabled cfg) (temp_history_size cfg) (pwm_change_threshold cfg)
    (alert_enabled cfg) (cpu_alert_temp cfg) (disk_alert_temp cfg)
    (alert_interval cfg) (alert_hostname cfg) (pwm_control_file cfg)
    (use_curve_mode cfg) cc dc
    (cpu_idle_temp_min cfg) (cpu_idle_temp_max cfg) (cpu_work_temp_max cfg)
    (cpu_warning_temp_max cfg) (cpu_critical_temp_max cfg)
    (disk_idle_temp_min cfg) (disk_idle_temp_max cfg) (disk_work_temp_max cfg)
    (disk_warning_temp_max cfg) (disk_critical_temp_max cfg)
    (idle_pwm_min cfg) (idle_pwm_max cfg) (work_pwm_min cfg) (work_pwm_max cfg)
    (warning_pwm_min cfg) (warning_pwm_max cfg)
    (critical_pwm_min cfg) (critical_pwm_max cfg) (active_disks cfg).

(** [cfg] with the switches and numbers an API client may set. *)
Definition tuned (cfg : FanConfig) (on : bool) (depth threshold interval : Z) : FanConfig :=
  mkConfig on depth threshold
    (alert_enabled cfg) (cpu_alert_temp cfg) (disk_alert_temp cfg)
    interval (alert_hostname cfg) (pwm_control_file cfg)
    (use_curve_mode cfg) (cpu_curve cfg) (disk_curve cfg)
    (cpu_idle_temp_min cfg) (cpu_idle_temp_max cfg) (cpu_work_temp_max cfg)
    (cpu_warning_temp_max cfg) (cpu_critical_temp_max cfg)
    (disk_idle_temp_min cfg) (disk_idle_temp_max cfg) (disk_work_temp_max cfg)
    (disk_warning_temp_max cfg) (disk_critical_temp_max cfg)
    (idle_pwm_min cfg) (idle_pwm_max cfg) (work_pwm_min cfg) (work_pwm_max cfg)
    (warning_pwm_min cfg) (warning_pwm_max cfg)
    (critical_pwm_min cfg) (critical_pwm_max cfg) (active_disks cfg).

Definition sample_disk (id device : string) (active : bool) : DiskInfo.t :=
  DiskInfo.mk id device (String.append "/dev/" device) "" "" "" "" "HDD" None active.

(** A controller past its warm-up, over the given disks. *)
Definition warmed (cfg : FanConfig) (ds : list DiskInfo.t) : FanController :=
  with_warmup (with_disks (new_controller cfg None) ds) (temp_history_size cfg) true.

(** The control file of the default configuration holding [v]. *)
Definition sample_files (v : Z) : Files :=
  [("/sys/class/hwmon/hwmon4/pwm3", mkFile v true true)].

(** Readings at [now] whole seconds after the epoch, with one fan at
    1200 RPM. *)
Definition sample_readings (cpu : option Z) (disk : string -> option Z) (now : Z)
  : Readings :=
  mkReadings cpu disk [1200] (now * Float64.one) "2026-11-04T10:00:00".

Definition no_disk_reading : string -> option Z := fun _ => None.

Definition one_disk_reading (device : string) (v : Z) : string -> option Z :=
  fun d => if String.eqb d device then Some v else None.

Definition c_one_disk : FanController :=
  warmed default_config [sample_disk "Disk1" "sda" true].

Definition cfg_example : FanConfig :=
  with_curves default_config DEFAULT_CPU_CURVE [mkPoint 20 20; mkPoint 40 60].

Definition c_example : FanController :=
  warmed cfg_example [sample_disk "Disk1" "sda" true; sample_disk "Disk2" "sdb" false].

Definition cfg_hysteresis : FanConfig :=
  tuned (with_curves default_config
           [mkPoint 30 100; mkPoint 40 109; mkPoint 50 118; mkPoint 60 200]
           DEFAULT_DISK_CURVE)
        true 1 10 60.

Definition c_hysteresis : FanController := warmed cfg_hysteresis [].

Definition cfg_disabled : FanConfig := tuned default_config false 1 0 60.
Definition c_disabled : FanController := warmed cfg_disabled [].
Definition r_hot : Readings := sample_readings (Some 90) no_disk_reading 1793000000.

Definition cfg_alert : FanConfig := tuned default_config true 1 0 60.

Definition c_two_disks : FanController :=
  warmed cfg_alert [sample_disk "Disk1" "sda" true; sample_disk "Disk2" "sdb" false].

Definition r_two_disks : Readings :=
  sample_readings (Some 50)
    (fun d => if String.eqb d "sda" then Some 35
              else if String.eqb d "sdb" then Some 60 else None)
    1793000000.

(** A controller whose status holds a CPU average of 90. *)
Definition c_hot : FanController :=
  with_status (warmed cfg_alert [])
    (Status.with_readings Status.initial (Some 90) (Some 90) [] [] None (Some 1200)
       (Some 60) "2026-11-04T10:00:00").

Definition r_at (now : Z) : Readings := sample_readings (Some 90) no_disk_reading now.

Definition with_use_curve_mode (cfg : FanConfig) (b : bool) : FanConfig :=
  mkConfig (enabled cfg) (temp_history_size cfg) (pwm_change_threshold cfg)
    (alert_enabled cfg) (cpu_alert_temp cfg) (disk_alert_temp cfg)
    (alert_interval cfg) (alert_hostname cfg) (pwm_control_file cfg)
    b (cpu_curve cfg) (disk_curve cfg)
    (cpu_idle_temp_min cfg) (cpu_idle_temp_max cfg) (cpu_work_temp_max cfg)
    (cpu_warning_temp_max cfg) (cpu_critical_temp_max cfg)
    (disk_idle_temp_min cfg) (disk_idle_temp_max cfg) (disk_work_temp_max cfg)
    (disk_warning_temp_max cfg) (disk_critical_temp_max cfg)
    (idle_pwm_min cfg) (idle_pwm_max cfg) (work_pwm_min cfg) (work_pwm_max cfg)
    (warning_pwm_min cfg) (warning_pwm_max cfg)
    (critical_pwm_min cfg) (critical_pwm_max cfg) (active_disks cfg).

(** The PWM bands of the legacy mode, in the order of the stages. *)
Definition bands_ordered (cfg : FanConfig) : Prop :=
  idle_pwm_min cfg <= idle_pwm_max cfg /\ idle_pwm_max cfg <= work_pwm_min cfg /\
  work_pwm_min cfg <= work_pwm_max cfg /\ work_pwm_max cfg <= warning_pwm_min cfg /\
  warning_pwm_min cfg <= warning_pwm_max cfg /\
  warning_pwm_max cfg <= critical_pwm_min cfg /\
  critical_pwm_min cfg <= critical_pwm_max cfg.

(** Operands of the legacy bands small enough for the double
    arithmetic never to overflow at temperature [t]. *)
Definition legacy_bounded (cfg : FanConfig) (is_cpu : bool) (t : Z) : Prop :=
  Forall (fun a => Z.abs (t - a) <= 2 ^ 64)
    (if is_cpu
     then [cpu_idle_temp_min cfg; cpu_idle_temp_max cfg; cpu_work_temp_max cfg;
           cpu_warning_temp_max cfg]
     else [disk_idle_temp_min cfg; disk_idle_temp_max cfg; disk_work_temp_max cfg;
           disk_warning_temp_max cfg]) /\
  Forall (fun v => Z.abs v <= 2 ^ 64)
    [idle_pwm_min cfg; idle_pwm_max cfg; work_pwm_min cfg; work_pwm_max cfg;
     warning_pwm_min cfg; warning_pwm_max cfg; critical_pwm_min cfg;
     critical_pwm_max cfg].

Definition with_alerts (cfg : FanConfig) (b : bool) : FanConfig :=
  mkConfig (enabled cfg) (temp_history_size cfg) (pwm_change_threshold cfg)
    b (cpu_alert_temp cfg) (disk_alert_temp cfg)
    (alert_interval cfg) (alert_hostname cfg) (pwm_control_file cfg)
    (use_curve_mode cfg) (cpu_curve cfg) (disk_curve cfg)
    (cpu_idle_temp_min cfg) (cpu_idle_temp_max cfg) (cpu_work_temp_max cfg)
    (cpu_warning_temp_max cfg) (cpu_critical_temp_max cfg)
    (disk_idle_temp_min cfg) (disk_idle_temp_max cfg) (disk_work_temp_max cfg)
    (disk_warning_temp_max cfg) (disk_critical_temp_max cfg)
    (idle_pwm_min cfg) (idle_pwm_max cfg) (work_pwm_min cfg) (work_pwm_max cfg)
    (warning_pwm_min cfg) (warning_pwm_max cfg)
    (critical_pwm_min cfg) (critical_pwm_max cfg) (active_disks cfg).

Definition sample_probe : Probe :=
  mkProbe
    [mkEntry "pci-0000:01:00.0-ata-1" true (Got "/dev/sda");
     mkEntry "pci-0000:01:00.0-ata-1-part1" true (Got "/dev/sda1");
     mkEntry "pci-0000:01:00.0-ata-2" true (Got "/dev/sdb");
     mkEntry "pci-0000:05:00.0-nvme-1" true (Got "/dev/nvme0n1")]
    (fun d => if String.eqb d "sdb" then Some (Got "0") else Some (Got "1"))
    (fun d => Got ("model", "serial", "4T")).

(** * Properties *)

(** ** Rounding *)

Module Float64Facts.
Import Float64.

Lemma rhe_bounds (n d : Z) : 0 < d -> n / d <= rhe n d <= n / d + 1.
Proof.
  intros Hd. unfold rhe.
  destruct (2 * (n mod d) <? d); [lia|].
  destruct (d <? 2 * (n mod d)); [lia|].
  destruct (Z.even (n / d)); lia.
Qed.

Lemma rhe_mono (n1 n2 d : Z) : 0 < d -> n1 <= n2 -> rhe n1 d <= rhe n2 d.
Proof.
  intros Hd Hn.
  assert (Hq : n1 / d <= n2 / d) by (apply Z.div_le_mono; lia).
  destruct (Z.eq_dec (n1 / d) (n2 / d)) as [E|NE].
  - assert (Hr : n1 mod d <= n2 mod d).
    { rewrite (Z.mod_eq n1 d), (Z.mod_eq n2 d) by lia. rewrite E. lia. }
    unfold rhe. rewrite E.
    destruct (2 * (n1 mod d) <? d) eqn:A1, (2 * (n2 mod d) <? d) eqn:A2,
             (d <? 2 * (n1 mod d)) eqn:B1, (d <? 2 * (n2 mod d)) eqn:B2,
             (Z.even (n2 / d)); lia.
  - pose proof (rhe_bounds n1 d Hd). pose proof (rhe_bounds n2 d Hd). lia.
Qed.

Lemma rhe_exact (k d : Z) : 0 < d -> rhe (k * d) d = k.
Proof.
  intros Hd. unfold rhe.
  rewrite Z.div_mul, Z.mod_mul by lia.
  replace (2 * 0 <? d) with true by (symmetry; apply Z.ltb_lt; lia).
  reflexivity.
Qed.

Lemma rhe_le (n k d : Z) : 0 < d -> n <= k * d -> rhe n d <= k.
Proof.
  intros Hd H. rewrite <- (rhe_exact k d Hd). now apply rhe_mono.
Qed.

Lemma rhe_ge (n k d : Z) : 0 < d -> k * d <= n -> k <= rhe n d.
Proof.
  intros Hd H. rewrite <- (rhe_exact k d Hd) at 1. now apply rhe_mono.
Qed.

(** The significand of a value of [2^53] units or more lies in
    [2^52, 2^53]. *)
Lemma significand_bounds (n d : Z) :
  0 < d -> 2 ^ 53 <= n / d ->
  let s := Z.log2 (n / d) - 52 in
  1 <= s /\ 2 ^ 52 <= rhe n (d * 2 ^ s) <= 2 ^ 53.
Proof.
  intros Hd Hq s.
  assert (Hq0 : 0 < n / d) by (pose proof (Z.pow_pos_nonneg 2 53); lia).
  pose proof (Z.log2_spec (n / d) Hq0) as [Hlo Hhi].
  assert (Hl : 53 <= Z.log2 (n / d)).
  { apply Z.log2_le_pow2; lia. }
  assert (Hs : 1 <= s) by (unfold s; lia).
  assert (Hp : 0 < 2 ^ s) by (apply Z.pow_pos_nonneg; lia).
  assert (E1 : 2 ^ Z.log2 (n / d) = 2 ^ 52 * 2 ^ s).
  { rewrite <- Z.pow_add_r by lia. f_equal. unfold s. lia. }
  assert (E2 : 2 ^ Z.succ (Z.log2 (n / d)) = 2 ^ 53 * 2 ^ s).
  { rewrite <- Z.pow_add_r by lia. f_equal. unfold s. lia. }
  rewrite E1 in Hlo. rewrite E2 in Hhi.
  assert (Hn1 : d * (n / d) <= n) by (apply Z.mul_div_le; lia).
  assert (Hn2 : n < d * (n / d) + d).
  { pose proof (Z.mod_pos_bound n d Hd). rewrite (Z.div_mod n d) at 1 by lia. lia. }
  split; [exact Hs|]. split.
  - apply rhe_ge; nia.
  - apply rhe_le; nia.
Qed.

Lemma round_pos_nonneg (n d : Z) : 0 < d -> 0 <= n -> 0 <= round_pos n d.
Proof.
  intros Hd Hn. unfold round_pos.
  destruct (n / d <? 2 ^ 53) eqn:E.
  - pose proof (rhe_bounds n d Hd). pose proof (Z.div_pos n d). lia.
  - apply Z.ltb_ge in E.
    destruct (significand_bounds n d Hd E) as [Hs [Hlo _]].
    assert (0 < 2 ^ (Z.log2 (n / d) - 52)) by (apply Z.pow_pos_nonneg; lia).
    assert (0 < 2 ^ 52) by (apply Z.pow_pos_nonneg; lia).
    nia.
Qed.

Lemma round_pos_mono (n1 n2 d : Z) :
  0 < d -> 0 <= n1 -> n1 <= n2 -> round_pos n1 d <= round_pos n2 d.
Proof.
  intros Hd H0 Hn.
  assert (Hq : n1 / d <= n2 / d) by (apply Z.div_le_mono; lia).
  assert (P52 : 0 < 2 ^ 52) by (apply Z.pow_pos_nonneg; lia).
  assert (P53 : 2 ^ 53 = 2 * 2 ^ 52) by (change 53 with (Z.succ 52); apply Z.pow_succ_r; lia).
  unfold round_pos.
  destruct (n1 / d <? 2 ^ 53) eqn:E1, (n2 / d <? 2 ^ 53) eqn:E2.
  - now apply rhe_mono.
  - apply Z.ltb_lt in E1. apply Z.ltb_ge in E2.
    destruct (significand_bounds n2 d Hd E2) as [Hs [Hlo _]].
    set (s := Z.log2 (n2 / d) - 52) in *.
    assert (2 <= 2 ^ s).
    { change 2 with (2 ^ 1) at 1. apply Z.pow_le_mono_r; lia. }
    pose proof (rhe_bounds n1 d Hd). nia.
  - apply Z.ltb_ge in E1. apply Z.ltb_lt in E2. lia.
  - apply Z.ltb_ge in E1. apply Z.ltb_ge in E2.
    destruct (significand_bounds n1 d Hd E1) as [Hs1 [_ Hhi1]].
    destruct (significand_bounds n2 d Hd E2) as [Hs2 [Hlo2 _]].
    assert (Hl : Z.log2 (n1 / d) <= Z.log2 (n2 / d)) by (apply Z.log2_le_mono; lia).
    set (s1 := Z.log2 (n1 / d) - 52) in *. set (s2 := Z.log2 (n2 / d) - 52) in *.
    assert (Hp1 : 0 < 2 ^ s1) by (apply Z.pow_pos_nonneg; lia).
    destruct (Z.eq_dec s1 s2) as [E|NE].
    + rewrite <- E. apply Z.mul_le_mono_nonneg_r; [lia|].
      apply rhe_mono; nia.
    + assert (Hs : 2 ^ (s1 + 1) <= 2 ^ s2) by (apply Z.pow_le_mono_r; lia).
      rewrite Z.pow_add_r in Hs by lia. change (2 ^ 1) with 2 in Hs.
      nia.
Qed.

Lemma round_mono (n1 n2 d : Z) : 0 < d -> n1 <= n2 -> round n1 d <= round n2 d.
Proof.
  intros Hd Hn. unfold round.
  destruct (0 <=? n1) eqn:E1, (0 <=? n2) eqn:E2.
  - apply Z.leb_le in E1. now apply round_pos_mono.
  - apply Z.leb_le in E1. apply Z.leb_gt in E2. lia.
  - apply Z.leb_gt in E1. apply Z.leb_le in E2.
    pose proof (round_pos_nonneg (- n1) d Hd). pose proof (round_pos_nonneg n2 d Hd). lia.
  - apply Z.leb_gt in E1. apply Z.leb_gt in E2.
    pose proof (round_pos_mono (- n2) (- n1) d Hd). lia.
Qed.

Lemma round_pos_exact (m s d : Z) :
  0 < d -> 0 <= m < 2 ^ 53 -> 0 <= s -> round_pos (m * 2 ^ s * d) d = m * 2 ^ s.
Proof.
  intros Hd Hm Hs. unfold round_pos.
  rewrite Z.div_mul by lia.
  assert (Hp : 0 < 2 ^ s) by (apply Z.pow_pos_nonneg; lia).
  destruct (m * 2 ^ s <? 2 ^ 53) eqn:E.
  - apply rhe_exact; lia.
  - apply Z.ltb_ge in E.
    assert (Hq : 0 < m * 2 ^ s) by (pose proof (Z.pow_pos_nonneg 2 53); lia).
    assert (Hl : Z.log2 (m * 2 ^ s) < 53 + s).
    { apply Z.log2_lt_pow2; [lia|]. rewrite Z.pow_add_r by lia. nia. }
    assert (Hl' : 53 <= Z.log2 (m * 2 ^ s)) by (apply Z.log2_le_pow2; lia).
    set (s' := Z.log2 (m * 2 ^ s) - 52).
    assert (Es : 2 ^ s = 2 ^ (s - s') * 2 ^ s').
    { rewrite <- Z.pow_add_r by (unfold s'; lia). f_equal. lia. }
    replace (m * 2 ^ s * d) with (m * 2 ^ (s - s') * (d * 2 ^ s')) by (rewrite Es; ring).
    rewrite rhe_exact.
    + rewrite Es. ring.
    + assert (0 < 2 ^ s') by (apply Z.pow_pos_nonneg; unfold s'; lia). nia.
Qed.

Lemma round_exact (m s d : Z) :
  0 < d -> Z.abs m < 2 ^ 53 -> 0 <= s -> round (m * 2 ^ s * d) d = m * 2 ^ s.
Proof.
  intros Hd Hm Hs. unfold round.
  assert (Hp : 0 < 2 ^ s) by (apply Z.pow_pos_nonneg; lia).
  destruct (0 <=? m * 2 ^ s * d) eqn:E.
  - apply Z.leb_le in E. apply round_pos_exact; nia.
  - apply Z.leb_gt in E.
    replace (- (m * 2 ^ s * d)) with (- m * 2 ^ s * d) by ring.
    rewrite round_pos_exact by nia. ring.
Qed.

Lemma round_pos_le_pow2 (n d e : Z) :
  0 < d -> 0 <= e -> 0 <= n <= 2 ^ e * d -> round_pos n d <= 2 ^ e.
Proof.
  intros Hd He Hn.
  assert (E : round_pos (1 * 2 ^ e * d) d = 1 * 2 ^ e).
  { apply round_pos_exact; lia. }
  rewrite !Z.mul_1_l in E. rewrite <- E. apply round_pos_mono; lia.
Qed.

Lemma round_abs_le_pow2 (n d e : Z) :
  0 < d -> 0 <= e -> Z.abs n <= 2 ^ e * d -> Z.abs (round n d) <= 2 ^ e.
Proof.
  intros Hd He Hn. unfold round.
  destruct (0 <=? n) eqn:E.
  - apply Z.leb_le in E.
    pose proof (round_pos_nonneg n d Hd E).
    pose proof (round_pos_le_pow2 n d e Hd He). lia.
  - apply Z.leb_gt in E.
    pose proof (round_pos_nonneg (- n) d Hd).
    pose proof (round_pos_le_pow2 (- n) d e Hd He). lia.
Qed.

Lemma round_nonneg (n d : Z) : 0 < d -> 0 <= n -> 0 <= round n d.
Proof.
  intros Hd Hn. unfold round.
  replace (0 <=? n) with true by (symmetry; now apply Z.leb_le).
  now apply round_pos_nonneg.
Qed.

Lemma finite_ok (x y : Z) : finite x = Ok y -> y = x /\ Z.abs x < huge.
Proof.
  unfold finite. destruct (Z.abs x <? huge) eqn:E; [|discriminate].
  intros H. injection H as <-. apply Z.ltb_lt in E. auto.
Qed.

Lemma finite_intro (x : Z) : Z.abs x < huge -> finite x = Ok x.
Proof.
  intros H. unfold finite.
  replace (Z.abs x <? huge) with true by (symmetry; now apply Z.ltb_lt).
  reflexivity.
Qed.

Lemma one_pos : 0 < one.
Proof. apply Z.pow_pos_nonneg; lia. Qed.

Lemma to_int_mono (x y : Z) : x <= y -> to_int x <= to_int y.
Proof. intros H. apply Z.quot_le_mono; [apply one_pos|exact H]. Qed.

End Float64Facts.

(** ** [linear_map] *)

Module LinearMapFacts.
Import Float64 Float64Facts.

Lemma bind_ok {A B : Type} (r : result A) (k : A -> result B) (b : B) :
  bind r k = Ok b -> exists a, r = Ok a /\ k a = Ok b.
Proof. destruct r as [a|e]; simpl; [eauto|discriminate]. Qed.

Lemma true_div_ok (a b x : Z) :
  0 < b -> true_div a b = Ok x -> x = round (a * one) b /\ Z.abs x < huge.
Proof.
  intros Hb. unfold true_div.
  replace (b =? 0) with false by (symmetry; apply Z.eqb_neq; lia).
  replace (0 <? b) with true by (symmetry; apply Z.ltb_lt; lia).
  intros H. apply finite_ok in H. destruct H as [-> H]. auto.
Qed.

(** With a non-decreasing output range the clamp keeps the result in it. *)
Lemma linear_map_range (v a b lo hi r : Z) :
  lo <= hi -> linear_map v a b lo hi = Ok r -> lo <= r <= hi.
Proof.
  intros Hr. unfold linear_map.
  destruct (b <=? a); [intros H; injection H as <-; lia|].
  intros H.
  repeat (apply bind_ok in H; destruct H as [? [_ H]]).
  injection H as <-. lia.
Qed.

(** On one segment with a non-decreasing output range, [linear_map] is
    non-decreasing in its input: each rounding is. *)
Lemma linear_map_mono (v1 v2 a b lo hi r1 r2 : Z) :
  lo <= hi -> v1 <= v2 ->
  linear_map v1 a b lo hi = Ok r1 -> linear_map v2 a b lo hi = Ok r2 -> r1 <= r2.
Proof.
  intros Hr Hv. unfold linear_map.
  destruct (b <=? a) eqn:G.
  { intros H1 H2. injection H1 as <-. injection H2 as <-. lia. }
  apply Z.leb_gt in G. intros H1 H2.
  apply bind_ok in H1. destruct H1 as [q1 [Q1 H1]].
  apply bind_ok in H2. destruct H2 as [q2 [Q2 H2]].
  apply bind_ok in H1. destruct H1 as [sp [S1 H1]].
  apply bind_ok in H2. destruct H2 as [sp2 [S2 H2]].
  rewrite S1 in S2. injection S2 as <-.
  apply bind_ok in H1. destruct H1 as [p1 [P1 H1]].
  apply bind_ok in H2. destruct H2 as [p2 [P2 H2]].
  apply bind_ok in H1. destruct H1 as [bs [B1 H1]].
  apply bind_ok in H2. destruct H2 as [bs2 [B2 H2]].
  rewrite B1 in B2. injection B2 as <-.
  apply bind_ok in H1. destruct H1 as [s1 [A1 H1]].
  apply bind_ok in H2. destruct H2 as [s2 [A2 H2]].
  injection H1 as <-. injection H2 as <-.
  apply true_div_ok in Q1; [|lia]. apply true_div_ok in Q2; [|lia].
  destruct Q1 as [-> _]. destruct Q2 as [-> _].
  pose proof one_pos as Hone.
  assert (Hq : round ((v1 - a) * one) (b - a) <= round ((v2 - a) * one) (b - a)).
  { apply round_mono; nia. }
  assert (Hsp : 0 <= sp).
  { apply finite_ok in S1. destruct S1 as [-> _]. apply round_nonneg; nia. }
  apply finite_ok in P1. destruct P1 as [-> _].
  apply finite_ok in P2. destruct P2 as [-> _].
  assert (Hp : round (round ((v1 - a) * one) (b - a) * sp) one
               <= round (round ((v2 - a) * one) (b - a) * sp) one).
  { apply round_mono; [exact Hone|]. apply Z.mul_le_mono_nonneg_r; assumption. }
  apply finite_ok in A1. destruct A1 as [-> _].
  apply finite_ok in A2. destruct A2 as [-> _].
  assert (Hs : to_int (round (bs + round (round ((v1 - a) * one) (b - a) * sp) one) 1)
               <= to_int (round (bs + round (round ((v2 - a) * one) (b - a) * sp) one) 1)).
  { apply to_int_mono. apply round_mono; lia. }
  lia.
Qed.

Lemma pow2_le (a b : Z) : 0 <= a <= b -> 2 ^ a <= 2 ^ b.
Proof. intros H. apply Z.pow_le_mono_r; lia. Qed.

Lemma finite_round (n d e : Z) :
  0 < d -> 0 <= e < 2098 -> Z.abs n <= 2 ^ e * d ->
  finite (round n d) = Ok (round n d) /\ Z.abs (round n d) <= 2 ^ e.
Proof.
  intros Hd He Hn.
  assert (H : Z.abs (round n d) <= 2 ^ e) by (apply round_abs_le_pow2; lia).
  split; [|exact H]. apply finite_intro.
  assert (2 ^ e < 2 ^ 2098) by (apply Z.pow_lt_mono_r; lia).
  unfold huge. lia.
Qed.

(** Inside the input range and with outputs of magnitude at most
    [2^1000], no step of [linear_map] overflows. *)
Lemma linear_map_total (v a b lo hi : Z) :
  a <= v <= b -> Z.abs lo <= 2 ^ 1000 -> Z.abs hi <= 2 ^ 1000 ->
  exists r, linear_map v a b lo hi = Ok r.
Proof.
  intros Hv Hlo Hhi. unfold linear_map.
  destruct (b <=? a) eqn:G; [eauto|]. apply Z.leb_gt in G.
  pose proof one_pos as Hone.
  assert (P0 : 2 ^ 1000 * one = 2 ^ 2074).
  { unfold one. rewrite <- Z.pow_add_r by lia. reflexivity. }
  assert (P1 : 2 ^ 2074 + 2 ^ 2074 = 2 ^ 2075).
  { change 2075 with (Z.succ 2074). rewrite Z.pow_succ_r by lia. ring. }
  assert (P2 : 2 ^ 2075 + 2 ^ 2075 = 2 ^ 2076).
  { change 2076 with (Z.succ 2075). rewrite Z.pow_succ_r by lia. ring. }
  assert (P3 : 0 < 2 ^ 2074) by (apply Z.pow_pos_nonneg; lia).
  assert (P4 : one = 2 ^ 1074) by reflexivity.
  remember (2 ^ 1000) as B eqn:EB.
  remember (2 ^ 2074) as C eqn:EC.
  remember (2 ^ 2075) as D eqn:ED.
  remember (2 ^ 2076) as F eqn:EF.
  destruct (finite_round ((v - a) * one) (b - a) 1074) as [Q1 Q2]; [lia|lia|rewrite <- P4; nia|].
  rewrite <- P4 in Q2.
  unfold true_div.
  replace (b - a =? 0) with false by (symmetry; apply Z.eqb_neq; lia).
  replace (0 <? b - a) with true by (symmetry; apply Z.ltb_lt; lia).
  rewrite Q1. cbn [bind].
  set (q := round ((v - a) * one) (b - a)) in *.
  destruct (finite_round ((hi - lo) * one) 1 2075) as [S1 S2]; [lia|lia|rewrite <- ED; nia|].
  rewrite <- ED in S2.
  unfold of_int at 1. rewrite S1. cbn [bind].
  set (sp := round ((hi - lo) * one) 1) in *.
  destruct (finite_round (q * sp) one 2075) as [M1 M2]; [lia|lia|rewrite <- ED; nia|].
  rewrite <- ED in M2.
  unfold mul. rewrite M1. cbn [bind].
  set (pr := round (q * sp) one) in *.
  destruct (finite_round (lo * one) 1 2074) as [B1 B2]; [lia|lia|rewrite <- EC; nia|].
  rewrite <- EC in B2.
  unfold of_int. rewrite B1. cbn [bind].
  set (bs := round (lo * one) 1) in *.
  destruct (finite_round (bs + pr) 1 2076) as [A1 A2]; [lia|lia|rewrite <- EF; lia|].
  unfold add. rewrite A1. cbn [bind]. eauto.
Qed.

End LinearMapFacts.

(** ** The curve mapper *)

Module CurveFacts.
Import LinearMapFacts.

Lemma insert_point_perm (p : CurvePoint) (l : Curve) :
  Permutation (p :: l) (insert_point p l).
Proof.
  induction l as [|q l IH]; simpl; [apply Permutation_refl|].
  destruct (temp p <=? temp q); [apply Permutation_refl|].
  eapply perm_trans; [apply perm_swap|]. now apply perm_skip.
Qed.

Lemma sorted_perm (l : Curve) : Permutation l (sorted l).
Proof.
  induction l as [|p l IH]; simpl; [constructor|].
  eapply perm_trans; [apply perm_skip, IH|apply insert_point_perm].
Qed.

Lemma insert_point_sorted (p : CurvePoint) (l : Curve) :
  StronglySorted by_temp l -> StronglySorted by_temp (insert_point p l).
Proof.
  induction l as [|q l IH]; simpl; intros H.
  - repeat constructor.
  - apply StronglySorted_inv in H. destruct H as [Hl Hq].
    destruct (temp p <=? temp q) eqn:E.
    + apply Z.leb_le in E. constructor; [constructor; assumption|].
      constructor; [exact E|].
      eapply Forall_impl; [|exact Hq]. unfold by_temp. intros; lia.
    + apply Z.leb_gt in E. constructor; [auto|].
      eapply Permutation_Forall; [apply insert_point_perm|].
      constructor; [unfold by_temp; lia|exact Hq].
Qed.

Lemma sorted_sorted (l : Curve) : StronglySorted by_temp (sorted l).
Proof.
  induction l as [|p l IH]; simpl; [constructor|now apply insert_point_sorted].
Qed.

Lemma sorted_nonempty (l : Curve) : l <> [] -> sorted l <> [].
Proof.
  intros H E. apply H. apply Permutation_nil.
  rewrite <- E. apply Permutation_sym, sorted_perm.
Qed.

Section Ordered.
Variable f : CurvePoint -> Z.
Let R (p q : CurvePoint) : Prop := f p <= f q.

Lemma ss_hd_le (l : Curve) (x d : CurvePoint) :
  StronglySorted R l -> In x l -> f (hd d l) <= f x.
Proof.
  intros H Hx. destruct l as [|a l]; [contradiction|].
  apply StronglySorted_inv in H. destruct H as [_ Ha]. simpl.
  destruct Hx as [<-|Hx]; [lia|].
  rewrite Forall_forall in Ha. now apply Ha.
Qed.

Lemma ss_le_last (l : Curve) (x d : CurvePoint) :
  StronglySorted R l -> In x l -> f x <= f (last l d).
Proof.
  induction l as [|a l IH]; intros H Hx; [contradiction|].
  apply StronglySorted_inv in H. destruct H as [Hl Ha].
  destruct l as [|b l].
  - destruct Hx as [<-|[]]. simpl. lia.
  - change (last (a :: b :: l) d) with (last (b :: l) d).
    destruct Hx as [<-|Hx]; [|now apply IH].
    rewrite Forall_forall in Ha.
    apply (Ha (last (b :: l) d)).
    destruct (exists_last (l := b :: l)) as [l' [y E]]; [discriminate|].
    rewrite E, last_last. apply in_or_app. right. now left.
Qed.

Lemma ss_adjacent (l1 l2 : Curve) (p1 p2 : CurvePoint) :
  StronglySorted R (l1 ++ p1 :: p2 :: l2) -> f p1 <= f p2.
Proof.
  induction l1 as [|a l1 IH]; simpl; intros H;
    apply StronglySorted_inv in H; destruct H as [Hl Ha].
  - apply Forall_inv in Ha. exact Ha.
  - now apply IH.
Qed.
End Ordered.

(** Strictly between the first and the last temperature the loop finds
    a bracketing pair, whatever the order of the points. *)
Lemma interpolate_bracket (t : Z) (l : Curve) :
  temp (first_point l) < t -> t < temp (last_point l) ->
  exists l1 p1 p2 l2,
    l = l1 ++ p1 :: p2 :: l2 /\ temp p1 < t <= temp p2 /\
    interpolate t l =
      (v <- linear_map t (temp p1) (temp p2) (pwm p1) (pwm p2) ;;
       Ok (v, stage_of_pwm v)).
Proof.
  unfold first_point, last_point.
  induction l as [|p1 l IH]; simpl hd; intros Hlo Hhi.
  - simpl in *. lia.
  - destruct l as [|p2 l]; [simpl in *; lia|].
    change (last (p1 :: p2 :: l) (mkPoint 0 0)) with (last (p2 :: l) (mkPoint 0 0)) in Hhi.
    cbn [interpolate].
    destruct ((temp p1 <=? t) && (t <=? temp p2)) eqn:E.
    + apply andb_true_iff in E. destruct E as [_ E]. apply Z.leb_le in E.
      exists [], p1, p2, l. repeat split; auto; lia.
    + apply andb_false_iff in E.
      assert (Hp2 : temp p2 < t).
      { destruct E as [E|E]; [apply Z.leb_gt in E; lia|apply Z.leb_gt in E; lia]. }
      destruct (IH Hp2 Hhi) as [l1 [q1 [q2 [l2 [El [Hq Ei]]]]]].
      exists (p1 :: l1), q1, q2, l2. repeat split; try tauto.
      simpl. now rewrite El.
Qed.

Lemma linear_map_interpolation (t : Z) (p1 p2 : CurvePoint) :
  temp p1 < temp p2 ->
  linear_map t (temp p1) (temp p2) (pwm p1) (pwm p2) =
    (v <- interpolation t p1 p2 ;; Ok (clamp (pwm p1) (pwm p2) v)).
Proof.
  intros H. unfold linear_map, interpolation, clamp.
  replace (temp p2 <=? temp p1) with false by (symmetry; apply Z.leb_gt; lia).
  destruct (Float64.true_div (t - temp p1) (temp p2 - temp p1)); [|reflexivity].
  cbn [bind]. destruct (Float64.of_int (pwm p2 - pwm p1)); [|reflexivity].
  cbn [bind]. destruct (Float64.mul a a0); [|reflexivity].
  cbn [bind]. destruct (Float64.of_int (pwm p1)); [|reflexivity].
  cbn [bind]. destruct (Float64.add a2 a1); reflexivity.
Qed.

Lemma in_middle (l1 l2 : Curve) (p1 p2 : CurvePoint) :
  In p1 (l1 ++ p1 :: p2 :: l2) /\ In p2 (l1 ++ p1 :: p2 :: l2).
Proof. split; apply in_or_app; right; simpl; auto. Qed.

(** The interpolated value lies between the PWM of the first and of the
    last point when the PWM values are sorted. *)
Lemma interpolate_range (t : Z) (l : Curve) (r : Z * string) :
  StronglySorted by_pwm l ->
  temp (first_point l) < t -> t < temp (last_point l) ->
  interpolate t l = Ok r ->
  pwm (first_point l) <= fst r <= pwm (last_point l).
Proof.
  intros Hs Hlo Hhi Hr.
  destruct (interpolate_bracket t l Hlo Hhi) as [l1 [p1 [p2 [l2 [El [Hp Ei]]]]]].
  rewrite Ei in Hr. apply bind_ok in Hr. destruct Hr as [v [Hv Hr]].
  injection Hr as <-. simpl.
  destruct (in_middle l1 l2 p1 p2) as [I1 I2]. rewrite <- El in I1, I2.
  pose proof (ss_hd_le pwm l p1 (mkPoint 0 0) Hs I1) as H1.
  pose proof (ss_le_last pwm l p2 (mkPoint 0 0) Hs I2) as H2.
  assert (H12 : pwm p1 <= pwm p2).
  { rewrite El in Hs. exact (ss_adjacent pwm l1 l2 p1 p2 Hs). }
  apply linear_map_range in Hv; [|exact H12].
  unfold first_point, last_point. lia.
Qed.

Lemma interpolate_mono (l : Curve) :
  StronglySorted by_pwm l ->
  forall t1 t2 r1 r2,
    t1 <= t2 -> temp (first_point l) < t1 -> t2 < temp (last_point l) ->
    interpolate t1 l = Ok r1 -> interpolate t2 l = Ok r2 -> fst r1 <= fst r2.
Proof.
  unfold first_point, last_point.
  induction l as [|p1 l IH]; intros Hs t1 t2 r1 r2 Ht Hlo Hhi H1 H2.
  - simpl in *. lia.
  - destruct l as [|p2 l]; [simpl in *; lia|].
    change (last (p1 :: p2 :: l) (mkPoint 0 0)) with (last (p2 :: l) (mkPoint 0 0)) in Hhi.
    simpl hd in Hlo.
    pose proof (StronglySorted_inv Hs) as [Hs' Hp1].
    assert (H12 : pwm p1 <= pwm p2) by (apply Forall_inv in Hp1; exact Hp1).
    cbn [interpolate] in H1, H2.
    destruct ((temp p1 <=? t2) && (t2 <=? temp p2)) eqn:E2.
    + apply andb_true_iff in E2. destruct E2 as [_ E2]. apply Z.leb_le in E2.
      replace ((temp p1 <=? t1) && (t1 <=? temp p2)) with true in H1.
      2:{ symmetry. apply andb_true_iff. split; apply Z.leb_le; lia. }
      apply bind_ok in H1. destruct H1 as [v1 [V1 H1]]. injection H1 as <-.
      apply bind_ok in H2. destruct H2 as [v2 [V2 H2]]. injection H2 as <-.
      simpl. exact (linear_map_mono _ _ _ _ _ _ _ _ H12 Ht V1 V2).
    + assert (Hp2 : temp p2 < t2).
      { apply andb_false_iff in E2.
        destruct E2 as [E|E]; apply Z.leb_gt in E; lia. }
      pose proof (interpolate_range t2 (p2 :: l) r2 Hs' Hp2 Hhi H2) as [L2 _].
      simpl first_point in L2.
      destruct ((temp p1 <=? t1) && (t1 <=? temp p2)) eqn:E1.
      * apply bind_ok in H1. destruct H1 as [v1 [V1 H1]]. injection H1 as <-.
        apply linear_map_range in V1; [|exact H12]. simpl. unfold first_point in L2.
        simpl in L2. lia.
      * assert (Hp1' : temp p2 < t1).
        { apply andb_false_iff in E1.
          destruct E1 as [E|E]; apply Z.leb_gt in E; lia. }
        exact (IH Hs' t1 t2 r1 r2 Ht Hp1' Hhi H1 H2).
Qed.

Lemma interpolate_total (t : Z) (l : Curve) :
  Forall (fun p => Z.abs (pwm p) <= 2 ^ 1000) l ->
  exists r, interpolate t l = Ok r.
Proof.
  induction l as [|p1 l IH]; intros Hb; [simpl; eauto|].
  destruct l as [|p2 l]; [simpl; eauto|].
  cbn [interpolate].
  pose proof (Forall_inv Hb) as B1. pose proof (Forall_inv_tail Hb) as Hb'.
  pose proof (Forall_inv Hb') as B2.
  destruct ((temp p1 <=? t) && (t <=? temp p2)) eqn:E; [|now apply IH].
  apply andb_true_iff in E. destruct E as [E1 E2].
  apply Z.leb_le in E1. apply Z.leb_le in E2.
  destruct (linear_map_total t (temp p1) (temp p2) (pwm p1) (pwm p2)) as [v Hv];
    [lia|exact B1|exact B2|].
  rewrite Hv. simpl. eauto.
Qed.

End CurveFacts.
(** ** Claims on the curve mapper *)

Module CurveClaims.
Import LinearMapFacts CurveFacts.



(** C6.  For a non-empty curve whose PWM values do not decrease with
    the temperature, the PWM returned never decreases when the
    temperature grows; and with PWM values of magnitude at most [2^1000]
    the evaluation does return. *)
Theorem calculate_pwm_from_curve_monotone (curve : Curve) (t1 t2 : Z) :
  curve <> [] -> nondecreasing_pwm curve -> t1 <= t2 ->
  (forall r1 r2,
     calculate_pwm_from_curve t1 curve = Ok r1 ->
     calculate_pwm_from_curve t2 curve = Ok r2 -> fst r1 <= fst r2) /\
  (pwm_bounded curve ->
   exists r1 r2,
     calculate_pwm_from_curve t1 curve = Ok r1 /\
     calculate_pwm_from_curve t2 curve = Ok r2).
Proof.
  intros Hne Hs Ht. unfold nondecreasing_pwm in Hs.
  set (s := sorted curve) in *.
  assert (Hcalc : forall t, calculate_pwm_from_curve t curve =
                  if t <=? temp (first_point s) then Ok (pwm (first_point s), "idle")
                  else if temp (last_point s) <=? t then Ok (pwm (last_point s), "critical")
                  else interpolate t s).
  { intros t. unfold calculate_pwm_from_curve. destruct curve; [contradiction|reflexivity]. }
  assert (Hsne : s <> []) by (apply sorted_nonempty; exact Hne).
  assert (Hends : pwm (first_point s) <= pwm (last_point s)).
  { unfold first_point, last_point. apply (ss_le_last pwm s _ _ Hs).
    destruct s; [contradiction|now left]. }
  split.
  - intros r1 r2. rewrite !Hcalc.
    destruct (t1 <=? temp (first_point s)) eqn:A1;
      destruct (t2 <=? temp (first_point s)) eqn:A2;
      destruct (temp (last_point s) <=? t1) eqn:B1;
      destruct (temp (last_point s) <=? t2) eqn:B2;
      intros H1 H2;
      repeat match goal with
             | H : Ok _ = Ok _ |- _ => injection H as <-
             | H : (_ <=? _) = true |- _ => apply Z.leb_le in H
             | H : (_ <=? _) = false |- _ => apply Z.leb_gt in H
             end; simpl fst; try lia;
      repeat match goal with
             | H : interpolate ?t s = Ok ?r |- _ =>
                 lazymatch goal with
                 | _ : pwm (first_point s) <= fst r <= _ |- _ => fail
                 | _ => pose proof (interpolate_range t s r Hs ltac:(lia) ltac:(lia) H)
                 end
             end; try lia.
    eapply (interpolate_mono s Hs t1 t2); eassumption.
  - intros Hb.
    assert (Hbs : Forall (fun p => Z.abs (pwm p) <= 2 ^ 1000) s).
    { eapply Permutation_Forall; [apply sorted_perm|exact Hb]. }
    assert (Htot : forall t, exists r, calculate_pwm_from_curve t curve = Ok r).
    { intros t. rewrite Hcalc.
      destruct (t <=? temp (first_point s)); [eauto|].
      destruct (temp (last_point s) <=? t); [eauto|].
      now apply interpolate_total. }
    destruct (Htot t1) as [r1 H1]. destruct (Htot t2) as [r2 H2]. eauto.
Qed.

Lemma calculate_pwm_from_curve_monotone_witness :
  curve3 <> [] /\ nondecreasing_pwm curve3 /\ 29 <= 30 /\
  (forall r1 r2,
     calculate_pwm_from_curve 29 curve3 = Ok r1 ->
     calculate_pwm_from_curve 30 curve3 = Ok r2 -> fst r1 <= fst r2).
Proof.
  assert (H1 : curve3 <> []) by discriminate.
  assert (H2 : nondecreasing_pwm curve3).
  { unfold nondecreasing_pwm, by_pwm. simpl. repeat constructor; simpl; lia. }
  assert (H3 : 29 <= 30) by lia.
  repeat split; try assumption.
  exact (proj1 (calculate_pwm_from_curve_monotone curve3 29 30 H1 H2 H3)).
Defined.

End CurveClaims.
(** ** Dictionaries and windows *)

Module DictFacts.

Lemma dict_get_set_eq {V : Type} (k : string) (v : V) (d : dict V) :
  dict_get k (dict_set k v d) = Some v.
Proof.
  induction d as [|[k' v'] d IH]; simpl.
  - now rewrite String.eqb_refl.
  - destruct (String.eqb k k') eqn:E; simpl.
    + now rewrite String.eqb_refl.
    + now rewrite E.
Qed.

Lemma dict_get_set_neq {V : Type} (k k' : string) (v : V) (d : dict V) :
  k <> k' -> dict_get k (dict_set k' v d) = dict_get k d.
Proof.
  intros Hk. induction d as [|[k2 v2] d IH]; simpl.
  - replace (String.eqb k k') with false by (symmetry; now apply String.eqb_neq).
    reflexivity.
  - destruct (String.eqb k' k2) eqn:E; simpl.
    + apply String.eqb_eq in E. subst k2.
      replace (String.eqb k k') with false by (symmetry; now apply String.eqb_neq).
      reflexivity.
    + destruct (String.eqb k k2); [reflexivity|exact IH].
Qed.

Lemma dict_keys_set {V : Type} (k : string) (v : V) (d : dict V) :
  dict_keys (dict_set k v d) =
    if dict_mem k d then dict_keys d else dict_keys d ++ [k].
Proof.
  unfold dict_mem, dict_keys. induction d as [|[k' v'] d IH]; simpl; [reflexivity|].
  destruct (String.eqb k k') eqn:E; simpl.
  - apply String.eqb_eq in E. now subst.
  - rewrite IH. destruct (dict_get k d); reflexivity.
Qed.

End DictFacts.

Module HistoryFacts.
Import DictFacts.

Lemma trim_spec (h : list Z) (n : Z) : 0 <= n -> trim h n = Ok (last_n n h).
Proof.
  intros Hn. unfold last_n. induction h as [|x h IH].
  - simpl. replace (n <? 0) with false by (symmetry; apply Z.ltb_ge; lia). reflexivity.
  - cbn [trim]. destruct (n <? Z.of_nat (List.length (x :: h))) eqn:E.
    + apply Z.ltb_lt in E. rewrite IH. simpl List.length in *.
      replace (S (List.length h) - Z.to_nat n)%nat
        with (S (List.length h - Z.to_nat n))%nat by lia.
      reflexivity.
    + apply Z.ltb_ge in E. simpl List.length in *.
      replace (S (List.length h) - Z.to_nat n)%nat with 0%nat by lia.
      reflexivity.
Qed.

Lemma trim_negative (h : list Z) (n : Z) : n < 0 -> trim h n = Raise IndexError.
Proof.
  intros Hn. induction h as [|x h IH]; cbn [trim].
  - replace (n <? 0) with true by (symmetry; apply Z.ltb_lt; lia). reflexivity.
  - replace (n <? Z.of_nat (List.length (x :: h))) with true; [exact IH|].
    symmetry. apply Z.ltb_lt. lia.
Qed.

Lemma last_n_short (n : Z) (h : list Z) :
  Z.of_nat (List.length h) <= n -> last_n n h = h.
Proof.
  intros H. unfold last_n.
  replace (List.length h - Z.to_nat n)%nat with 0%nat by lia. reflexivity.
Qed.

Lemma last_n_length (n : Z) (h : list Z) :
  0 <= n -> Z.of_nat (List.length (last_n n h)) = Z.min n (Z.of_nat (List.length h)).
Proof. intros H. unfold last_n. rewrite length_skipn. lia. Qed.

(** Cutting twice is cutting once: the window after any number of
    readings is the newest [n] of everything fed. *)
Lemma last_n_app (n : Z) (h : list Z) (x : Z) :
  0 <= n -> last_n n (last_n n h ++ [x]) = last_n n (h ++ [x]).
Proof.
  intros Hn. unfold last_n.
  set (k := (List.length h - Z.to_nat n)%nat).
  assert (E : skipn k h ++ [x] = skipn k (h ++ [x])).
  { rewrite skipn_app. replace (k - List.length h)%nat with 0%nat by lia. reflexivity. }
  rewrite E, skipn_skipn. f_equal.
  rewrite length_skipn, !length_app. simpl List.length. lia.
Qed.

Lemma calc_avg_none (h : list Z) :
  _calc_avg h = None <-> Forall (fun t => t <= 0) h.
Proof.
  unfold _calc_avg. split.
  - intros H. destruct (filter (fun t => 0 <? t) h) eqn:E; [|discriminate].
    apply Forall_forall. intros x Hx.
    destruct (Z_le_gt_dec x 0) as [L|G]; [exact L|].
    assert (In x (filter (fun t => 0 <? t) h)).
    { apply filter_In. split; [exact Hx|]. apply Z.ltb_lt. lia. }
    rewrite E in H0. contradiction.
  - intros H. replace (filter (fun t => 0 <? t) h) with (@nil Z); [reflexivity|].
    symmetry. induction H as [|x l Hx Hl IH]; simpl; [reflexivity|].
    replace (0 <? x) with false by (symmetry; apply Z.ltb_ge; lia). exact IH.
Qed.

Lemma filter_all_valid (h : list Z) :
  Forall (fun t => 0 < t) h -> filter (fun t => 0 <? t) h = h.
Proof.
  induction 1 as [|x l Hx Hl IH]; simpl; [reflexivity|].
  replace (0 <? x) with true by (symmetry; apply Z.ltb_lt; lia). now rewrite IH.
Qed.

Lemma calc_avg_valid (h : list Z) :
  h <> [] -> Forall (fun t => 0 < t) h ->
  _calc_avg h = Some (sum h / Z.of_nat (List.length h)).
Proof.
  intros Hne Hv. unfold _calc_avg. rewrite filter_all_valid by exact Hv.
  destruct h; [contradiction|reflexivity].
Qed.

Lemma sum_ge_length (h : list Z) :
  Forall (fun t => 0 < t) h -> Z.of_nat (List.length h) <= sum h.
Proof.
  unfold sum. induction 1 as [|x l Hx Hl IH]; cbn [List.length fold_right]; lia.
Qed.

(** An average, when there is one, is at least 1. *)
Lemma calc_avg_positive (h : list Z) (a : Z) : _calc_avg h = Some a -> 0 < a.
Proof.
  unfold _calc_avg.
  assert (Hv : Forall (fun t => 0 < t) (filter (fun t => 0 <? t) h)).
  { apply Forall_forall. intros x Hx. apply filter_In in Hx.
    destruct Hx as [_ Hx]. now apply Z.ltb_lt in Hx. }
  destruct (filter (fun t => 0 <? t) h) as [|x l] eqn:E; [discriminate|].
  intros H. injection H as <-.
  pose proof (sum_ge_length _ Hv) as Hs. unfold sum in Hs.
  assert (Hl : 0 < Z.of_nat (List.length (x :: l))) by (simpl; lia).
  pose proof (Z.div_le_mono _ _ _ Hl Hs) as Hd.
  rewrite Z.div_same in Hd by lia.
  eapply Z.lt_le_trans; [|exact Hd]. lia.
Qed.

End HistoryFacts.

Module ReadTempsFacts.
Import DictFacts HistoryFacts.

Lemma ensure_key_default (id k : string) (hist : dict (list Z)) :
  dict_get_default k (if dict_mem id hist then hist else dict_set id [] hist) [] =
  dict_get_default k hist [].
Proof.
  unfold dict_mem, dict_get_default.
  destruct (dict_get id hist) eqn:E; [reflexivity|].
  destruct (String.eqb_spec k id) as [->|N].
  - now rewrite dict_get_set_eq, E.
  - now rewrite dict_get_set_neq.
Qed.

Lemma ensure_key_other (id k : string) (hist : dict (list Z)) :
  k <> id ->
  dict_get k (if dict_mem id hist then hist else dict_set id [] hist) = dict_get k hist.
Proof.
  intros N. destruct (dict_mem id hist); [reflexivity|]. now apply dict_get_set_neq.
Qed.

Lemma read_disks_spec (r : Readings) (n : Z) (todo : list DiskInfo.t) :
  0 <= n -> NoDup (map DiskInfo.id todo) ->
  forall hist temps avgs mx,
  exists hist' temps' avgs' mx',
    read_disks r n todo hist temps avgs mx =
      (polled r todo, hist', Ok (temps', avgs', mx')) /\
    (forall i, ~ In i (map DiskInfo.id todo) ->
       dict_get i hist' = dict_get i hist /\ dict_get i avgs' = dict_get i avgs /\
       dict_get i temps' = dict_get i temps) /\
    (forall d, In d todo ->
       dict_get (DiskInfo.id d) hist' = Some (window_of r n hist d) /\
       dict_get (DiskInfo.id d) avgs' = Some (_calc_avg (window_of r n hist d)) /\
       dict_get (DiskInfo.id d) temps' = Some (reading_of r d)) /\
    (mx' = None ->
       mx = None /\
       forall d, In d todo -> DiskInfo.active d = true ->
                 _calc_avg (window_of r n hist d) = None) /\
    (forall m, mx' = Some m ->
       (mx = Some m \/
        exists d, In d todo /\ DiskInfo.active d = true /\
                  _calc_avg (window_of r n hist d) = Some m) /\
       (forall m0, mx = Some m0 -> m0 <= m) /\
       (forall d a, In d todo -> DiskInfo.active d = true ->
                    _calc_avg (window_of r n hist d) = Some a -> a <= m)).
Proof.
  intros Hn. induction todo as [|d rest IH]; intros Hnd hist temps avgs mx.
  - exists hist, temps, avgs, mx. simpl.
    split; [reflexivity|]. split; [auto|]. split; [intros d []|]. split.
    + intros E. split; [exact E|]. intros d [].
    + intros m E. split; [auto|]. split.
      * intros m0 H0. rewrite E in H0. injection H0 as <-. lia.
      * intros d a [].
  - simpl in Hnd. apply NoDup_cons_iff in Hnd. destruct Hnd as [Hd Hnd].
    cbn [read_disks].
    set (t := read_disk_temp r (DiskInfo.device d)).
    set (id := DiskInfo.id d).
    change (DiskInfo.id (DiskInfo.with_temp d t)) with id.
    change (DiskInfo.active (DiskInfo.with_temp d t)) with (DiskInfo.active d).
    set (hist0 := if dict_mem id hist then hist else dict_set id [] hist).
    assert (Ew : match t with
                 | Some v => trim (dict_get_default id hist0 [] ++ [v]) n
                 | None => Ok []
                 end = Ok (window_of r n hist d)).
    { unfold window_of, reading_of, disk_window_step. fold t. fold id.
      destruct t; [|reflexivity].
      unfold hist0. rewrite ensure_key_default. now apply trim_spec. }
    rewrite Ew. set (w := window_of r n hist d) in *.
    set (hist1 := dict_set id w hist0).
    replace (dict_get_default id hist1 []) with w
      by (unfold dict_get_default, hist1; now rewrite dict_get_set_eq).
    set (mx1 := match _calc_avg w with
                | Some a =>
                    if DiskInfo.active d
                    then match mx with
                         | Some m => if m <? a then Some a else Some m
                         | None => Some a
                         end
                    else mx
                | None => mx
                end).
    destruct (IH Hnd hist1 (dict_set id t temps) (dict_set id (_calc_avg w) avgs) mx1)
      as [hist' [temps' [avgs' [mx' [Er [Hframe [Hin [Hnone Hsome]]]]]]]].
    rewrite Er. exists hist', temps', avgs', mx'.
    assert (Hsame : forall d', In d' rest -> window_of r n hist1 d' = window_of r n hist d').
    { intros d' Hd'. unfold window_of. f_equal.
      assert (Nid : DiskInfo.id d' <> id).
      { intros E. apply Hd. unfold id in E. rewrite <- E. now apply in_map. }
      unfold dict_get_default, hist1. rewrite dict_get_set_neq by exact Nid.
      unfold hist0. now rewrite ensure_key_other. }
    split; [reflexivity|]. split; [|split; [|split]].
    + intros i Hi. simpl in Hi.
      assert (Ni : i <> id) by (intros E; apply Hi; left; now rewrite E).
      destruct (Hframe i) as [F1 [F2 F3]]; [tauto|].
      rewrite F1, F2, F3. unfold hist1. rewrite !dict_get_set_neq by exact Ni.
      unfold hist0. now rewrite ensure_key_other.
    + intros d' [<-|Hd'].
      * destruct (Hframe id Hd) as [F1 [F2 F3]]. fold id. rewrite F1, F2, F3.
        unfold hist1. rewrite !dict_get_set_eq. auto.
      * destruct (Hin d' Hd') as [I1 [I2 I3]]. rewrite Hsame in I1, I2 by exact Hd'.
        auto.
    + intros E. destruct (Hnone E) as [E1 Hall].
      assert (Hd0 : mx = None /\ (DiskInfo.active d = true -> _calc_avg w = None)).
      { unfold mx1 in E1. destruct (_calc_avg w) as [a|]; [|auto].
        destruct (DiskInfo.active d); [|split; [exact E1|discriminate]].
        destruct mx as [m|]; [destruct (m <? a)|]; discriminate. }
      split; [tauto|]. intros d' [<-|Hd'] Ha; [tauto|].
      rewrite <- Hsame by exact Hd'. now apply Hall.
    + intros m E. destruct (Hsome m E) as [Hach [Hge Hub]].
      assert (Hmx1 : forall m1, mx1 = Some m1 ->
                (mx = Some m1 \/ (DiskInfo.active d = true /\ _calc_avg w = Some m1)) /\
                (forall m0, mx = Some m0 -> m0 <= m1) /\
                (forall a, DiskInfo.active d = true -> _calc_avg w = Some a -> a <= m1)).
      { intros m1 E1. unfold mx1 in E1.
        destruct (_calc_avg w) as [a|].
        - destruct (DiskInfo.active d).
          + destruct mx as [m0|].
            * destruct (m0 <? a) eqn:C; injection E1 as <-.
              -- apply Z.ltb_lt in C. split; [right; auto|].
                 split; [intros ? H; injection H as <-; lia|].
                 intros ? _ H; injection H as <-; lia.
              -- apply Z.ltb_ge in C. split; [left; auto|].
                 split; [intros ? H; injection H as <-; lia|].
                 intros ? _ H; injection H as <-; lia.
            * injection E1 as <-. split; [right; auto|].
              split; [discriminate|]. intros ? _ H; injection H as <-; lia.
          + split; [left; auto|]. split; [|discriminate].
            intros ? H. rewrite E1 in H. injection H as <-. lia.
        - split; [left; auto|]. split; [|discriminate].
          intros ? H. rewrite E1 in H. injection H as <-. lia. }
      assert (Hmx1m : exists m1, mx1 = Some m1 /\ m1 <= m \/ mx1 = None).
      { destruct mx1 as [m1|]; [|exists 0; right; reflexivity].
        exists m1. left. split; [reflexivity|]. now apply Hge. }
      split; [|split].
      * destruct Hach as [Hach|[d' [Hd' [Ha Hv]]]].
        -- destruct (Hmx1 m Hach) as [[H1|[H1 H2]] _]; [left; exact H1|].
           right. exists d. split; [now left|]. auto.
        -- right. exists d'. split; [now right|].
           rewrite Hsame in Hv by exact Hd'. auto.
      * intros m0 H0.
        destruct mx1 as [m1|] eqn:E1.
        -- destruct (Hmx1 m1 eq_refl) as [_ [H1 _]].
           specialize (H1 m0 H0). specialize (Hge m1 eq_refl). lia.
        -- exfalso. unfold mx1 in E1. rewrite H0 in E1.
           destruct (_calc_avg w) as [a|]; [|discriminate].
           destruct (DiskInfo.active d); [|discriminate].
           destruct (m0 <? a); discriminate.
      * intros d' a [<-|Hd'] Ha Hv.
        -- destruct mx1 as [m1|] eqn:E1.
           ++ destruct (Hmx1 m1 eq_refl) as [_ [_ H1]].
              specialize (H1 a Ha Hv). specialize (Hge m1 eq_refl). lia.
           ++ exfalso. unfold mx1 in E1. fold w in Hv. rewrite Hv, Ha in E1.
              destruct mx as [m0|]; [destruct (m0 <? a)|]; discriminate.
        -- rewrite <- Hsame in Hv by exact Hd'. exact (Hub d' a Hd' Ha Hv).
Qed.

End ReadTempsFacts.

Module CycleFacts.
Import DictFacts HistoryFacts ReadTempsFacts.

Lemma read_temps_unfold (r : Readings) (fs : Files) (c : FanController) :
  0 <= temp_history_size (config c) -> NoDup (map DiskInfo.id (disks c)) ->
  let n := temp_history_size (config c) in
  let avg_of d := _calc_avg (window_of r n (disk_temp_history c) d) in
  exists hist temps avgs mx,
    _read_temps r fs c = (after_read r fs c hist temps avgs mx, None) /\
    (forall d, In d (disks c) ->
       dict_get (DiskInfo.id d) hist = Some (window_of r n (disk_temp_history c) d) /\
       dict_get (DiskInfo.id d) avgs = Some (avg_of d) /\
       dict_get (DiskInfo.id d) temps = Some (reading_of r d)) /\
    (forall i, ~ In i (map DiskInfo.id (disks c)) ->
       dict_get i hist = dict_get i (disk_temp_history c)) /\
    (mx = None <->
     forall d, In d (disks c) -> DiskInfo.active d = true -> avg_of d = None) /\
    (forall m, mx = Some m <->
       (exists d, In d (disks c) /\ DiskInfo.active d = true /\ avg_of d = Some m) /\
       (forall d a, In d (disks c) -> DiskInfo.active d = true ->
                    avg_of d = Some a -> a <= m)).
Proof.
  intros Hn Hnd n avg_of.
  destruct (read_disks_spec r n (disks c) Hn Hnd (disk_temp_history c) [] [] None)
    as [hist [temps [avgs [mx [Er [Hframe [Hin [Hnone Hsome]]]]]]]].
  exists hist, temps, avgs, mx.
  assert (Hs1 : forall m, mx = Some m ->
            (exists d, In d (disks c) /\ DiskInfo.active d = true /\ avg_of d = Some m) /\
            (forall d a, In d (disks c) -> DiskInfo.active d = true ->
                         avg_of d = Some a -> a <= m)).
  { intros m E. destruct (Hsome m E) as [[H|H] [_ Hub]]; [discriminate|].
    split; [exact H|exact Hub]. }
  split; [|split; [exact Hin|split; [|split]]].
  - unfold _read_temps, after_read. fold n.
    assert (Ec : match sensors_cpu r with
                 | Some v => trim (cpu_temp_history c ++ [v]) n
                 | None => Ok (cpu_temp_history c)
                 end = Ok (cpu_window_step n (cpu_temp_history c) (sensors_cpu r))).
    { unfold cpu_window_step. destruct (sensors_cpu r); [now apply trim_spec|reflexivity]. }
    rewrite Ec. cbn [config disks disk_temp_history with_cpu_history].
    rewrite Er. reflexivity.
  - intros i Hi. now destruct (Hframe i Hi).
  - split.
    + intros E. now destruct (Hnone E).
    + intros Hall. destruct mx as [m|]; [|reflexivity].
      destruct (Hs1 m eq_refl) as [[d [Hd [Ha Hv]]] _].
      pose proof (Hall d Hd Ha) as X. unfold avg_of in *. congruence.
  - intros m. split; [apply Hs1|].
    intros [[d [Hd [Ha Hv]]] Hub]. destruct mx as [m'|].
    + destruct (Hs1 m' eq_refl) as [[d' [Hd' [Ha' Hv']]] Hub'].
      f_equal. pose proof (Hub d' m' Hd' Ha' Hv'). pose proof (Hub' d m Hd Ha Hv). lia.
    + destruct (Hnone eq_refl) as [_ Hall]. pose proof (Hall d Hd Ha) as X. unfold avg_of in *. congruence.
Qed.

Lemma in_polled (r : Readings) (ds : list DiskInfo.t) (d' : DiskInfo.t) :
  In d' (polled r ds) ->
  exists d, In d ds /\ DiskInfo.id d' = DiskInfo.id d /\
            DiskInfo.device d' = DiskInfo.device d /\
            DiskInfo.active d' = DiskInfo.active d /\
            DiskInfo.temp d' = reading_of r d.
Proof.
  unfold polled. intros H. apply in_map_iff in H. destruct H as [d [<- Hd]].
  exists d. simpl. auto.
Qed.

Lemma polled_in (r : Readings) (ds : list DiskInfo.t) (d : DiskInfo.t) :
  In d ds -> In (DiskInfo.with_temp d (reading_of r d)) (polled r ds).
Proof.
  intros H. unfold polled.
  exact (in_map (fun d => DiskInfo.with_temp d (reading_of r d)) ds d H).
Qed.

Lemma polled_ids (r : Readings) (ds : list DiskInfo.t) :
  map DiskInfo.id (polled r ds) = map DiskInfo.id ds.
Proof. unfold polled. rewrite map_map. reflexivity. Qed.

Lemma has_temp_avg (h : list Z) :
  has_temp (_calc_avg h) = match _calc_avg h with Some _ => true | None => false end.
Proof.
  destruct (_calc_avg h) as [a|] eqn:E; [|reflexivity].
  apply calc_avg_positive in E. simpl. now apply Z.ltb_lt.
Qed.

(** A warmed-up controller passes the warm-up block untouched. *)
Lemma warmup_warmed (c : FanController) :
  is_warmed_up c = true -> warmup c = (c, None).
Proof. intros H. unfold warmup. now rewrite H. Qed.

Lemma check_temp_alert_shape (r : Readings) (c : FanController) :
  exists tc td msgs,
    _check_temp_alert r c = (with_alert_times c tc td, msgs).
Proof.
  unfold _check_temp_alert.
  destruct (negb (alert_enabled (config c))).
  - exists (last_alert_time_cpu c), (last_alert_time_disk c), []. now destruct c.
  - destruct (match Status.cpu_avg_temp (status c) with
              | Some cpu_avg => _
              | None => _
              end) as [tc ms].
    destruct (disk_alerts _ _ _ _ _) as [al td]. eauto.
Qed.

(** The three ways out of [control]. *)
Lemma control_cases (r : Readings) (fs : Files) (c : FanController)
    (c' : FanController) (fs' : Files) (ev : list Event) (o : Outcome) :
  control r fs c = (c', fs', ev, o) ->
  let cur := Status.current_pwm (status c) in
  let file := pwm_control_file (config c) in
  let no_data := negb (has_temp (Status.cpu_avg_temp (status c)))
                 && negb (has_temp (Status.max_disk_temp (status c))) in
  (no_data = true /\ o = Returned SafetyFallback /\
   c' = with_status c (Status.with_target (status c) 128 "Safety" "warning") /\
   (fs', ev) = if pwm_differs 128 cur
               then (fst (set_pwm fs file 128), [SetPwm file 128 (snd (set_pwm fs file 128))])
               else (fs, [])) \/
  (no_data = false /\ exists e,
     raw_target c = Raise e /\ o = Raised e /\ c' = c /\ fs' = fs /\ ev = []) \/
  (no_data = false /\ exists raw src stg,
     raw_target c = Ok (raw, src, stg) /\ o = Returned Normal /\
     let tgt := apply_threshold (pwm_change_threshold (config c)) cur raw in
     let c2 := with_status c (Status.with_target (status c) tgt src stg) in
     c' = fst (_check_temp_alert r c2) /\
     fs' = (if pwm_differs tgt cur then fst (set_pwm fs file tgt) else fs) /\
     ev = (if pwm_differs tgt cur
           then [SetPwm file tgt (snd (set_pwm fs file tgt))] else [])
          ++ map Push (snd (_check_temp_alert r c2))).
Proof.
  intros Hc cur file no_data. unfold control in Hc. fold cur file no_data in Hc.
  destruct no_data.
  - left. fold cur in Hc. destruct (pwm_differs 128 cur).
    + destruct (set_pwm fs file 128) as [fs1 ok]. injection Hc as <- <- <- <-. auto.
    + injection Hc as <- <- <- <-. auto.
  - right. destruct (raw_target c) as [[[raw src] stg]|e].
    + right. split; [reflexivity|]. exists raw, src, stg. cbv zeta.
      destruct (_check_temp_alert r _) as [c3 msgs].
      destruct (pwm_differs _ cur).
      * destruct (set_pwm fs file _) as [fs1 ok]. injection Hc as <- <- <- <-.
        cbn. auto 6.
      * injection Hc as <- <- <- <-. cbn. auto 6.
    + left. split; [reflexivity|]. exists e. injection Hc as <- <- <- <-. auto.
Qed.

(** A cycle of a warmed-up, enabled controller is [_read_temps]
    followed by [control]. *)
Lemma active_cycle (r : Readings) (fs : Files) (c : FanController) :
  0 <= temp_history_size (config c) -> NoDup (map DiskInfo.id (disks c)) ->
  is_warmed_up c = true -> enabled (config c) = true ->
  let n := temp_history_size (config c) in
  let avg_of d := _calc_avg (window_of r n (disk_temp_history c) d) in
  exists hist temps avgs mx,
    _control_cycle r fs c = control r fs (after_read r fs c hist temps avgs mx) /\
    (forall d, In d (disks c) ->
       dict_get (DiskInfo.id d) hist = Some (window_of r n (disk_temp_history c) d) /\
       dict_get (DiskInfo.id d) avgs = Some (avg_of d) /\
       dict_get (DiskInfo.id d) temps = Some (reading_of r d)) /\
    (mx = None <->
     forall d, In d (disks c) -> DiskInfo.active d = true -> avg_of d = None) /\
    (forall m, mx = Some m <->
       (exists d, In d (disks c) /\ DiskInfo.active d = true /\ avg_of d = Some m) /\
       (forall d a, In d (disks c) -> DiskInfo.active d = true ->
                    avg_of d = Some a -> a <= m)).
Proof.
  intros Hn Hnd Hw He n avg_of.
  destruct (read_temps_unfold r fs c Hn Hnd)
    as [hist [temps [avgs [mx [Er [Hin [Hframe [Hnone Hsome]]]]]]]].
  exists hist, temps, avgs, mx. split; [|auto].
  unfold _control_cycle. rewrite Er.
  rewrite warmup_warmed by exact Hw.
  change (enabled (config (after_read r fs c hist temps avgs mx)))
    with (enabled (config c)).
  now rewrite He.
Qed.

(** The alert check leaves the status, the configuration, the disks
    and the histories alone. *)
Lemma check_temp_alert_frame (r : Readings) (c : FanController) :
  let c' := fst (_check_temp_alert r c) in
  status c' = status c /\ config c' = config c /\ disks c' = disks c /\
  cpu_temp_history c' = cpu_temp_history c /\
  disk_temp_history c' = disk_temp_history c /\
  is_warmed_up c' = is_warmed_up c /\ warmup_counter c' = warmup_counter c.
Proof.
  destruct (check_temp_alert_shape r c) as [tc [td [msgs E]]].
  rewrite E. cbn. auto 10.
Qed.

(** Whatever its way out, [control] keeps what [_read_temps] sampled. *)
Lemma control_frame (r : Readings) (fs : Files) (c : FanController)
    (c' : FanController) (fs' : Files) (ev : list Event) (o : Outcome) :
  control r fs c = (c', fs', ev, o) ->
  config c' = config c /\ disks c' = disks c /\
  cpu_temp_history c' = cpu_temp_history c /\
  disk_temp_history c' = disk_temp_history c /\
  is_warmed_up c' = is_warmed_up c /\ warmup_counter c' = warmup_counter c /\
  Status.cpu_temp (status c') = Status.cpu_temp (status c) /\
  Status.cpu_avg_temp (status c') = Status.cpu_avg_temp (status c) /\
  Status.disk_temps (status c') = Status.disk_temps (status c) /\
  Status.disk_avg_temps (status c') = Status.disk_avg_temps (status c) /\
  Status.max_disk_temp (status c') = Status.max_disk_temp (status c) /\
  Status.fan_rpm (status c') = Status.fan_rpm (status c) /\
  Status.current_pwm (status c') = Status.current_pwm (status c) /\
  Status.last_update (status c') = Status.last_update (status c).
Proof.
  intros Hc. apply control_cases in Hc.
  destruct Hc as [[_ [_ [-> _]]]|[[_ [e [_ [_ [-> _]]]]]|[_ [raw [src [stg [_ [_ H]]]]]]]].
  - cbn. auto 20.
  - auto 20.
  - cbv zeta in H. destruct H as [-> _].
    match goal with
    | |- context [_check_temp_alert r ?x] =>
        destruct (check_temp_alert_frame r x) as [F1 [F2 [F3 [F4 [F5 [F6 F7]]]]]]
    end.
    cbv zeta in F1. rewrite F1, F2, F3, F4, F5, F6, F7. cbn. auto 20.
Qed.

Lemma cycle_eta (x : FanController * Files * list Event * Outcome) :
  x = (fst (fst (fst x)), snd (fst (fst x)), snd (fst x), snd x).
Proof. now destruct x as [[[c fs] ev] o]. Qed.

End CycleFacts.

(** ** Claims on the control cycle *)

Module CycleClaims.
Import DictFacts HistoryFacts ReadTempsFacts CycleFacts.


Lemma select_target_max (cpu disk : Z * string) :
  fst (fst (select_target cpu disk)) = Z.max (fst cpu) (fst disk).
Proof. unfold select_target. destruct (fst disk <=? fst cpu) eqn:E; simpl; lia. Qed.


End CycleClaims.

Module CycleExamples.
Import DictFacts HistoryFacts ReadTempsFacts CycleFacts CycleClaims.



End CycleExamples.

Module ActuationClaims.
Import DictFacts HistoryFacts ReadTempsFacts CycleFacts.

Lemma raw_target_ext (a b : FanController) :
  config a = config b ->
  Status.cpu_avg_temp (status a) = Status.cpu_avg_temp (status b) ->
  Status.max_disk_temp (status a) = Status.max_disk_temp (status b) ->
  raw_target a = raw_target b.
Proof. intros E1 E2 E3. unfold raw_target. now rewrite E1, E2, E3. Qed.

(** What a cycle of a warmed-up, enabled controller keeps for the next
    one, and the PWM it read. *)
Lemma active_cycle_frame (r : Readings) (fs : Files) (c : FanController)
    (c' : FanController) (fs' : Files) (ev : list Event) (o : Outcome) :
  0 <= temp_history_size (config c) -> NoDup (map DiskInfo.id (disks c)) ->
  is_warmed_up c = true -> enabled (config c) = true ->
  _control_cycle r fs c = (c', fs', ev, o) ->
  config c' = config c /\ map DiskInfo.id (disks c') = map DiskInfo.id (disks c) /\
  is_warmed_up c' = true /\
  Status.current_pwm (status c') = read_pwm fs (pwm_control_file (config c)).
Proof.
  intros Hn Hnd Hw He Hc.
  destruct (active_cycle r fs c Hn Hnd Hw He) as [hist [temps [avgs [mx [Ec _]]]]].
  rewrite Ec in Hc.
  destruct (control_frame _ _ _ _ _ _ _ Hc)
    as [F1 [F2 [_ [_ [F5 [_ [_ [_ [_ [_ [_ [_ [F13 _]]]]]]]]]]]]].
  rewrite F1, F2, F5, F13. cbn. rewrite polled_ids. auto.
Qed.

Lemma no_write_in_pushes (msgs : list Message) (e : Event) :
  In e (map Push msgs) -> ~ is_write e.
Proof.
  intros H. apply in_map_iff in H. destruct H as [m [<- _]]. simpl. tauto.
Qed.


Abbreviation cycle1 :=
  (_control_cycle (sample_readings (Some 40) no_disk_reading 1793000000)
     (sample_files 100) c_hysteresis).

Abbreviation cycle2 :=
  (_control_cycle (sample_readings (Some 50) no_disk_reading 1793000003)
     (snd (fst (fst cycle1))) (fst (fst (fst cycle1)))).



Lemma warmup_frame (c c' : FanController) (g : option Outcome) :
  warmup c = (c', g) ->
  (config c' = config c /\ disks c' = disks c /\
   cpu_temp_history c' = cpu_temp_history c /\
   disk_temp_history c' = disk_temp_history c /\
   last_alert_time_cpu c' = last_alert_time_cpu c /\
   last_alert_time_disk c' = last_alert_time_disk c) /\
  (Status.cpu_temp (status c') = Status.cpu_temp (status c) /\
   Status.cpu_avg_temp (status c') = Status.cpu_avg_temp (status c) /\
   Status.disk_temps (status c') = Status.disk_temps (status c) /\
   Status.disk_avg_temps (status c') = Status.disk_avg_temps (status c) /\
   Status.max_disk_temp (status c') = Status.max_disk_temp (status c) /\
   Status.fan_rpm (status c') = Status.fan_rpm (status c) /\
   Status.current_pwm (status c') = Status.current_pwm (status c) /\
   Status.last_update (status c') = Status.last_update (status c)) /\
  (Status.target_pwm (status c') = Status.target_pwm (status c) /\
   Status.trigger_source (status c') = Status.trigger_source (status c) /\
   Status.trigger_stage (status c') = Status.trigger_stage (status c)) /\
  (g = None \/ g = Some (Returned WarmingUp) \/ exists e, g = Some (Raised e)) /\
  (is_warmed_up c = true -> g = None).
Proof.
  unfold warmup. destruct (is_warmed_up c) eqn:W.
  - intros H. injection H as <- <-. auto 20.
  - destruct (warmup_progress_of _ _) as [p|e].
    + cbn [config with_status with_warmup].
      destruct (temp_history_size (config c) <=? warmup_counter c + 1);
        intros H; injection H as <- <-; cbn; repeat split; auto; discriminate.
    + intros H. injection H as <- <-. cbn. repeat split; eauto; discriminate.
Qed.

(** C9 (amended).  With automatic control disabled a cycle still samples:
    the CPU window and average, every disk's reading, window and
    average, the fan speed, the PWM read back and the time stamp are
    updated in the status.  Everything after the sampling and the
    warm-up count is skipped: the cycle writes nothing to the actuator,
    pushes no message, leaves target, trigger source, trigger stage and
    both alert clocks as they were, and ends at the disabled test (once
    warmed up) without any alert check. *)
Theorem disabled_cycle (r : Readings) (fs : Files) (c : FanController)
    (c' : FanController) (fs' : Files) (ev : list Event) (o : Outcome) :
  0 <= temp_history_size (config c) -> NoDup (map DiskInfo.id (disks c)) ->
  enabled (config c) = false ->
  _control_cycle r fs c = (c', fs', ev, o) ->
  let n := temp_history_size (config c) in
  let st := status c' in
  (fs' = fs /\ ev = [] /\
   (o = Returned Disabled \/ o = Returned WarmingUp \/ exists e, o = Raised e) /\
   (is_warmed_up c = true -> o = Returned Disabled)) /\
  (cpu_temp_history c' = cpu_window_step n (cpu_temp_history c) (sensors_cpu r) /\
   Status.cpu_temp st = sensors_cpu r /\
   Status.cpu_avg_temp st = _calc_avg (cpu_temp_history c') /\
   Status.fan_rpm st = read_fan_rpm r /\
   Status.current_pwm st = read_pwm fs (pwm_control_file (config c)) /\
   Status.last_update st = Some (datetime_now r) /\
   forall d, In d (disks c) ->
     dict_get (DiskInfo.id d) (disk_temp_history c') =
       Some (window_of r n (disk_temp_history c) d) /\
     dict_get (DiskInfo.id d) (Status.disk_temps st) = Some (reading_of r d) /\
     dict_get (DiskInfo.id d) (Status.disk_avg_temps st) =
       Some (_calc_avg (window_of r n (disk_temp_history c) d))) /\
  (Status.target_pwm st = Status.target_pwm (status c) /\
   Status.trigger_source st = Status.trigger_source (status c) /\
   Status.trigger_stage st = Status.trigger_stage (status c) /\
   last_alert_time_cpu c' = last_alert_time_cpu c /\
   last_alert_time_disk c' = last_alert_time_disk c).
Proof.
  intros Hn Hnd He Hc n st.
  destruct (read_temps_unfold r fs c Hn Hnd)
    as [hist [temps [avgs [mx [Er [Hin _]]]]]].
  unfold _control_cycle in Hc. rewrite Er in Hc.
  set (c1 := after_read r fs c hist temps avgs mx) in *.
  destruct (warmup c1) as [c2 g] eqn:W.
  destruct (warmup_frame _ _ _ W)
    as [[A1 [A2 [A3 [A4 [A5 A6]]]]]
          [[B1 [B2 [B3 [B4 [B5 [B6 [B7 B8]]]]]]] [[T1 [T2 T3]] [Hg Hw]]]].
  assert (Hres : c' = c2 /\ fs' = fs /\ ev = [] /\
                 (o = Returned Disabled \/ o = Returned WarmingUp \/ exists e, o = Raised e) /\
                 (is_warmed_up c = true -> o = Returned Disabled)).
  { destruct g as [o'|].
    - injection Hc as <- <- <- <-. repeat split; auto.
      + destruct Hg as [Hg|[Hg|[e Hg]]]; [discriminate| |].
        * injection Hg as ->. auto.
        * injection Hg as ->. eauto.
      + intros Hwu. specialize (Hw Hwu). discriminate.
    - rewrite A1 in Hc. change (enabled (config c1)) with (enabled (config c)) in Hc.
      rewrite He in Hc. injection Hc as <- <- <- <-. repeat split; auto. }
  destruct Hres as [-> [-> [-> [Ho1 Ho2]]]].
  unfold st. split; [auto|]. split; [|split; [|split; [|split]]].
  - rewrite A3, A4, B1, B2, B6, B7, B8, B3, B4. cbn.
    repeat split; auto.
    + destruct (Hin d H) as [I1 _]. exact I1.
    + destruct (Hin d H) as [_ [_ I3]]. exact I3.
    + destruct (Hin d H) as [_ [I2 _]]. exact I2.
  - now rewrite T1.
  - now rewrite T2.
  - now rewrite T3.
  - now rewrite A5, A6.
Qed.

Lemma disabled_cycle_witness :
  (0 <= temp_history_size (config c_disabled) /\
   NoDup (map DiskInfo.id (disks c_disabled)) /\
   enabled (config c_disabled) = false) /\
  snd (fst (_control_cycle r_hot (sample_files 60) c_disabled)) = [].
Proof.
  assert (H1 : 0 <= temp_history_size (config c_disabled)) by (vm_compute; discriminate).
  assert (H2 : NoDup (map DiskInfo.id (disks c_disabled))) by constructor.
  assert (H3 : enabled (config c_disabled) = false) by reflexivity.
  split; [auto|].
  destruct (disabled_cycle _ _ _ _ _ _ _ H1 H2 H3
              (cycle_eta (_control_cycle r_hot (sample_files 60) c_disabled)))
    as [[_ [H _]] _].
  exact H.
Defined.

(** A disabled cycle over a CPU at 90 degrees, above the alert threshold
    of 62 and with a fresh alert clock: the alert check, run on the state
    the cycle leaves, would push a CPU alert, the cycle itself pushes
    nothing and leaves the alert clock at 0. *)
Lemma disabled_cycle_counterexample :
  let res := _control_cycle r_hot (sample_files 60) c_disabled in
  snd res = Returned Disabled /\
  snd (_check_temp_alert r_hot (fst (fst (fst res)))) =
    [CpuAlert "MainNAS" 90 (Some 1200)] /\
  snd (fst res) = [] /\
  last_alert_time_cpu (fst (fst (fst res))) = 0.
Proof. intros res. repeat match goal with |- _ /\ _ => split end; vm_compute; reflexivity. Qed.

End ActuationClaims.

(** ** Claims on the temperature windows *)

Module WindowClaims.
Import DictFacts HistoryFacts ReadTempsFacts CycleFacts ActuationClaims.

Lemma last_n_app_list (n : Z) (a b : list Z) :
  0 <= n -> last_n n (last_n n a ++ b) = last_n n (a ++ b).
Proof.
  intros Hn. unfold last_n.
  set (k := (List.length a - Z.to_nat n)%nat).
  assert (E : skipn k a ++ b = skipn k (a ++ b)).
  { rewrite skipn_app. replace (k - List.length a)%nat with 0%nat by lia. reflexivity. }
  rewrite E, skipn_skipn. f_equal.
  rewrite length_skipn, !length_app. lia.
Qed.

(** Feeding present readings one by one leaves the newest [n] of the
    old window followed by the readings, for the CPU and for a disk. *)
Lemma cpu_feed (n : Z) (xs h : list Z) :
  0 <= n -> xs <> [] ->
  fold_left (cpu_window_step n) (map Some xs) h = last_n n (h ++ xs).
Proof.
  intros Hn. revert h. induction xs as [|x xs IH]; intros h Hne; [contradiction|].
  simpl. destruct xs as [|y xs].
  - reflexivity.
  - rewrite IH by discriminate. rewrite last_n_app_list by exact Hn.
    now rewrite <- app_assoc.
Qed.

Lemma disk_feed (n : Z) (xs h : list Z) :
  0 <= n -> xs <> [] ->
  fold_left (disk_window_step n) (map Some xs) h = last_n n (h ++ xs).
Proof.
  intros Hn. revert h. induction xs as [|x xs IH]; intros h Hne; [contradiction|].
  simpl. destruct xs as [|y xs].
  - reflexivity.
  - rewrite IH by discriminate. rewrite last_n_app_list by exact Hn.
    now rewrite <- app_assoc.
Qed.

(** What any cycle samples, whatever its way out, when no pop can fail. *)
Lemma cycle_sampling (r : Readings) (fs : Files) (c : FanController)
    (c' : FanController) (fs' : Files) (ev : list Event) (o : Outcome) :
  0 <= temp_history_size (config c) -> NoDup (map DiskInfo.id (disks c)) ->
  _control_cycle r fs c = (c', fs', ev, o) ->
  let n := temp_history_size (config c) in
  config c' = config c /\ disks c' = polled r (disks c) /\
  cpu_temp_history c' = cpu_window_step n (cpu_temp_history c) (sensors_cpu r) /\
  Status.cpu_avg_temp (status c') = _calc_avg (cpu_temp_history c') /\
  forall d, In d (disks c) ->
    dict_get (DiskInfo.id d) (disk_temp_history c') =
      Some (window_of r n (disk_temp_history c) d) /\
    dict_get (DiskInfo.id d) (Status.disk_avg_temps (status c')) =
      Some (_calc_avg (window_of r n (disk_temp_history c) d)).
Proof.
  intros Hn Hnd Hc n.
  destruct (read_temps_unfold r fs c Hn Hnd)
    as [hist [temps [avgs [mx [Er [Hin _]]]]]].
  unfold _control_cycle in Hc. rewrite Er in Hc.
  set (c1 := after_read r fs c hist temps avgs mx) in *.
  destruct (warmup c1) as [c2 g] eqn:W.
  destruct (warmup_frame _ _ _ W)
    as [[A1 [A2 [A3 [A4 _]]]] [[_ [B2 [_ [B4 _]]]] _]].
  assert (Hfin : config c' = config c2 /\ disks c' = disks c2 /\
                 cpu_temp_history c' = cpu_temp_history c2 /\
                 disk_temp_history c' = disk_temp_history c2 /\
                 Status.cpu_avg_temp (status c') = Status.cpu_avg_temp (status c2) /\
                 Status.disk_avg_temps (status c') = Status.disk_avg_temps (status c2)).
  { destruct g as [o'|].
    - injection Hc as <- _ _ _. auto 10.
    - destruct (negb (enabled (config c2))).
      + injection Hc as <- _ _ _. auto 10.
      + destruct (control_frame _ _ _ _ _ _ _ Hc)
          as [F1 [F2 [F3 [F4 [_ [_ [_ [F8 [_ [F10 _]]]]]]]]]]. auto 10. }
  destruct Hfin as [E1 [E2 [E3 [E4 [E5 E6]]]]].
  rewrite E1, E2, E3, E4, E5, E6, A1, A2, A3, A4, B2, B4. cbn.
  repeat split; auto.
  - now destruct (Hin d H).
  - now destruct (Hin d H) as [_ [I2 _]].
Qed.

(** The windows after any number of consecutive cycles: each window is
    the old one stepped through the readings of the run. *)
Lemma run_cycles_windows (rs : list Readings) :
  forall (fs : Files) (c : FanController),
    0 <= temp_history_size (config c) -> NoDup (map DiskInfo.id (disks c)) ->
    let n := temp_history_size (config c) in
    let c' := fst (fst (run_cycles rs fs c)) in
    config c' = config c /\
    cpu_temp_history c' =
      fold_left (cpu_window_step n) (map sensors_cpu rs) (cpu_temp_history c) /\
    (rs <> [] -> Status.cpu_avg_temp (status c') = _calc_avg (cpu_temp_history c')) /\
    forall d, In d (disks c) ->
      dict_get_default (DiskInfo.id d) (disk_temp_history c') [] =
        fold_left (disk_window_step n) (map (fun r => reading_of r d) rs)
          (dict_get_default (DiskInfo.id d) (disk_temp_history c) []) /\
      (rs <> [] ->
       dict_get (DiskInfo.id d) (Status.disk_avg_temps (status c')) =
         Some (_calc_avg (dict_get_default (DiskInfo.id d) (disk_temp_history c') []))).
Proof.
  induction rs as [|r rs IH]; intros fs c Hn Hnd n c'.
  - unfold c'. simpl. repeat split; auto; contradiction.
  - unfold c'. cbn [run_cycles].
    destruct (_control_cycle r fs c) as [[[c1 fs1] ev1] o1] eqn:E1.
    destruct (cycle_sampling _ _ _ _ _ _ _ Hn Hnd E1) as [S1 [S2 [S3 [S4 S5]]]].
    assert (Hn1 : 0 <= temp_history_size (config c1)) by now rewrite S1.
    assert (Hnd1 : NoDup (map DiskInfo.id (disks c1))).
    { rewrite S2, polled_ids. exact Hnd. }
    specialize (IH fs1 c1 Hn1 Hnd1). cbv zeta in IH.
    destruct (run_cycles rs fs1 c1) as [[c2 fs2] log] eqn:E2.
    cbn [fst] in *. destruct IH as [I1 [I2 [I3 I4]]].
    rewrite S1 in I2, I4. fold n in I2, I4, S3, S5.
    split; [now rewrite I1|]. split; [now rewrite I2, S3|]. split.
    + intros _. destruct rs as [|r' rs]; [|apply I3; discriminate].
      simpl in E2. injection E2 as <- _ _. exact S4.
    + intros d Hd.
      assert (Hd1 : In (DiskInfo.with_temp d (reading_of r d)) (disks c1)).
      { rewrite S2. now apply polled_in. }
      destruct (I4 _ Hd1) as [J1 J2]. cbn [DiskInfo.id DiskInfo.with_temp] in J1, J2.
      destruct (S5 d Hd) as [K1 K2].
      assert (Ew : dict_get_default (DiskInfo.id d) (disk_temp_history c1) [] =
                   window_of r n (disk_temp_history c) d).
      { unfold dict_get_default. now rewrite K1. }
      split.
      * rewrite J1. cbn [map fold_left]. rewrite Ew. reflexivity.
      * intros _. destruct rs as [|r' rs]; [|apply J2; discriminate].
        simpl in E2. injection E2 as <- _ _. rewrite K2, Ew. reflexivity.
Qed.




End WindowClaims.

(** ** Doubles as time stamps *)

Module TimeFacts.
Import Float64 Float64Facts.

Lemma rhe_one (n : Z) : rhe n 1 = n.
Proof.
  unfold rhe. rewrite Z.div_1_r, Z.mod_1_r. reflexivity.
Qed.

Lemma is_float_spec (x : Z) :
  is_float x = true <-> round x 1 = x /\ Z.abs x < huge.
Proof.
  unfold is_float. rewrite andb_true_iff, Z.eqb_eq, Z.ltb_lt. tauto.
Qed.

Lemma round_pos_small (x : Z) : 0 <= x < 2 ^ 53 -> round_pos x 1 = x.
Proof.
  intros H. unfold round_pos. rewrite Z.div_1_r.
  replace (x <? 2 ^ 53) with true by (symmetry; apply Z.ltb_lt; lia).
  apply rhe_one.
Qed.

(** A double of [2^53] units or more is a multiple of its unit in the
    last place. *)
Lemma float_multiple (x : Z) :
  2 ^ 53 <= x -> round_pos x 1 = x ->
  let s := Z.log2 x - 52 in
  1 <= s /\ x < 2 ^ 53 * 2 ^ s /\ exists m, x = m * 2 ^ s.
Proof.
  intros Hx Hr s.
  assert (Hx0 : 0 < x) by (pose proof (Z.pow_pos_nonneg 2 53); lia).
  assert (Hl : 53 <= Z.log2 x) by (apply Z.log2_le_pow2; lia).
  pose proof (Z.log2_spec x Hx0) as [_ Hhi].
  assert (E : 2 ^ Z.succ (Z.log2 x) = 2 ^ 53 * 2 ^ s).
  { rewrite <- Z.pow_add_r by (unfold s; lia). f_equal. unfold s. lia. }
  rewrite E in Hhi.
  split; [unfold s; lia|]. split; [exact Hhi|].
  unfold round_pos in Hr. rewrite Z.div_1_r in Hr.
  replace (x <? 2 ^ 53) with false in Hr by (symmetry; apply Z.ltb_ge; lia).
  cbv zeta in Hr. fold s in Hr. rewrite Z.mul_1_l in Hr.
  eexists. symmetry. exact Hr.
Qed.

Lemma pow2_divides (a b : Z) : 0 <= a <= b -> exists k, 2 ^ b = k * 2 ^ a.
Proof.
  intros H. exists (2 ^ (b - a)). rewrite <- Z.pow_add_r by lia. f_equal. lia.
Qed.

(** The difference of two non-negative doubles is exact when it does not
    exceed the smaller of the two. *)
Lemma sub_exact (x y : Z) :
  0 <= y -> round_pos x 1 = x -> round_pos y 1 = y ->
  0 <= x - y <= y -> round_pos (x - y) 1 = x - y.
Proof.
  intros Hy Hx Hyf Hd.
  destruct (Z_lt_le_dec y (2 ^ 53)) as [S|L].
  - apply round_pos_small. lia.
  - destruct (float_multiple y L Hyf) as [Hsy [Hyhi [my Ey]]].
    assert (Lx : 2 ^ 53 <= x) by lia.
    destruct (float_multiple x Lx Hx) as [Hsx [_ [mx Ex]]].
    set (sy := Z.log2 y - 52) in *. set (sx := Z.log2 x - 52) in *.
    assert (Hs : sy <= sx).
    { unfold sy, sx. assert (Z.log2 y <= Z.log2 x) by (apply Z.log2_le_mono; lia). lia. }
    destruct (pow2_divides sy sx) as [k Ek]; [lia|].
    assert (Hp : 0 < 2 ^ sy) by (apply Z.pow_pos_nonneg; lia).
    assert (Ed : x - y = (mx * k - my) * 2 ^ sy * 1).
    { rewrite Ex at 1. rewrite Ey at 1. rewrite Ek. ring. }
    rewrite Ed. rewrite round_pos_exact; [ring|lia| |lia].
    rewrite Z.mul_1_r in Ed. split; nia.
Qed.

Lemma float_nonneg (x : Z) :
  is_float x = true -> 0 <= x -> round_pos x 1 = x /\ x < huge.
Proof.
  intros H H0. apply is_float_spec in H. destruct H as [H1 H2].
  unfold round in H1. replace (0 <=? x) with true in H1 by (symmetry; now apply Z.leb_le).
  split; [exact H1|lia].
Qed.

Lemma huge_pos : 0 < huge.
Proof. apply Z.pow_pos_nonneg; lia. Qed.

(** On a clock that starts at 0, the first check passes exactly when the
    time read is at least the interval. *)
Lemma sub_ge_int_first (now interval : Z) :
  is_float now = true -> 0 <= now ->
  sub_ge_int now 0 interval = (interval * one <=? now).
Proof.
  intros Hf H0. destruct (float_nonneg now Hf H0) as [Hr Hh].
  pose proof huge_pos.
  unfold sub_ge_int. rewrite Z.sub_0_r. unfold round.
  replace (0 <=? now) with true by (symmetry; now apply Z.leb_le).
  rewrite Hr.
  replace (huge <=? now) with false by (symmetry; apply Z.leb_gt; lia).
  replace (now <=? - huge) with false by (symmetry; apply Z.leb_gt; lia).
  reflexivity.
Qed.

(** A check that passes at [t1] on a non-negative clock shows that [t1]
    is at least the interval. *)
Lemma sub_ge_int_passed (t1 last interval : Z) :
  is_float t1 = true -> 0 <= last <= t1 ->
  sub_ge_int t1 last interval = true -> interval * one <= t1.
Proof.
  intros Hf Hl Hp. destruct (float_nonneg t1 Hf) as [Hr Hh]; [lia|].
  pose proof huge_pos.
  assert (Hd : 0 <= round (t1 - last) 1 <= t1).
  { split; [apply round_nonneg; lia|].
    assert (E : round t1 1 = t1).
    { unfold round. replace (0 <=? t1) with true by (symmetry; apply Z.leb_le; lia).
      exact Hr. }
    rewrite <- E at 2. apply round_mono; lia. }
  unfold sub_ge_int in Hp. cbv zeta in Hp.
  destruct (huge <=? round (t1 - last) 1) eqn:A; [apply Z.leb_le in A; lia|].
  destruct (round (t1 - last) 1 <=? - huge) eqn:B; [discriminate|].
  apply Z.leb_le in Hp. lia.
Qed.

(** Within the cooldown after a check that passed, the next check fails. *)
Lemma sub_ge_int_within (t1 t2 last interval : Z) :
  is_float t1 = true -> is_float t2 = true -> 0 <= last <= t1 -> t1 <= t2 ->
  sub_ge_int t1 last interval = true -> t2 - t1 < interval * one ->
  sub_ge_int t2 t1 interval = false.
Proof.
  intros Hf1 Hf2 Hl Ht Hp Hw.
  pose proof (sub_ge_int_passed t1 last interval Hf1 Hl Hp) as Hi.
  destruct (float_nonneg t1 Hf1) as [Hr1 Hh1]; [lia|].
  destruct (float_nonneg t2 Hf2) as [Hr2 Hh2]; [lia|].
  pose proof huge_pos.
  assert (E : round (t2 - t1) 1 = t2 - t1).
  { unfold round. replace (0 <=? t2 - t1) with true by (symmetry; apply Z.leb_le; lia).
    apply sub_exact; lia. }
  unfold sub_ge_int. rewrite E.
  replace (huge <=? t2 - t1) with false by (symmetry; apply Z.leb_gt; lia).
  replace (t2 - t1 <=? - huge) with false by (symmetry; apply Z.leb_gt; lia).
  apply Z.leb_gt. lia.
Qed.

(** Once the interval has gone by since the last alert, the check passes. *)
Lemma sub_ge_int_apart (t2 last interval : Z) :
  Z.abs interval < 2 ^ 53 -> interval * one <= t2 - last ->
  sub_ge_int t2 last interval = true.
Proof.
  intros Hi Hd.
  assert (E : round (interval * one) 1 = interval * one).
  { replace (interval * one) with (interval * 2 ^ 1074 * 1) by (unfold one; ring).
    rewrite round_exact by lia. ring. }
  assert (Hm : interval * one <= round (t2 - last) 1).
  { rewrite <- E. apply round_mono; lia. }
  assert (Hlo : - huge < interval * one).
  { unfold huge, one.
    assert (2 ^ 53 * 2 ^ 1074 < 2 ^ 2098).
    { rewrite <- Z.pow_add_r by lia. apply Z.pow_lt_mono_r; lia. }
    assert (0 < 2 ^ 1074) by (apply Z.pow_pos_nonneg; lia).
    nia. }
  unfold sub_ge_int. cbv zeta.
  destruct (huge <=? round (t2 - last) 1); [reflexivity|].
  replace (round (t2 - last) 1 <=? - huge) with false by (symmetry; apply Z.leb_gt; lia).
  now apply Z.leb_le.
Qed.

End TimeFacts.


(** ** Claims on the alerts *)

Module AlertFacts.
Import DictFacts HistoryFacts ReadTempsFacts CycleFacts.

Lemma newly_alerting_ext (now : Float64.float) (interval threshold : Z)
    (l1 l2 : dict Float64.float) (avgs : dict (option Z)) :
  (forall id, In id (dict_keys avgs) ->
              dict_get_default id l1 0 = dict_get_default id l2 0) ->
  newly_alerting now interval threshold l1 avgs =
  newly_alerting now interval threshold l2 avgs.
Proof.
  induction avgs as [|[id t] rest IH]; intros H; [reflexivity|].
  cbn [newly_alerting]. rewrite (H id) by (now left).
  rewrite IH by (intros i Hi; apply H; now right). reflexivity.
Qed.

Lemma newly_alerting_keys (now : Float64.float) (interval threshold : Z)
    (last : dict Float64.float) (avgs : dict (option Z)) (id : string) (v : Z) :
  In (id, v) (newly_alerting now interval threshold last avgs) ->
  In (id, Some v) avgs /\
  breach threshold (Some v) = true /\
  due now interval (dict_get_default id last 0) = true.
Proof.
  induction avgs as [|[i t] rest IH]; cbn [newly_alerting]; [intros []|].
  destruct t as [w|]; [|intros H; destruct (IH H) as [H1 H2]; split; [now right|exact H2]].
  destruct (breach threshold (Some w) && due now interval (dict_get_default i last 0)) eqn:E.
  - intros [H|H].
    + injection H as -> ->. apply andb_true_iff in E. split; [now left|exact E].
    + destruct (IH H) as [H1 H2]. split; [now right|exact H2].
  - intros H. destruct (IH H) as [H1 H2]. split; [now right|exact H2].
Qed.

Lemma newly_alerting_complete (now : Float64.float) (interval threshold : Z)
    (last : dict Float64.float) (avgs : dict (option Z)) (id : string) (v : Z) :
  In (id, Some v) avgs -> breach threshold (Some v) = true ->
  due now interval (dict_get_default id last 0) = true ->
  In (id, v) (newly_alerting now interval threshold last avgs).
Proof.
  intros Hin Hb Hd. induction avgs as [|[i t] rest IH]; [contradiction|].
  cbn [newly_alerting]. destruct Hin as [H|H].
  - injection H as -> ->. rewrite Hb, Hd. now left.
  - specialize (IH H). destruct t as [w|]; [|exact IH].
    destruct (breach threshold (Some w) && due now interval (dict_get_default i last 0));
      [now right|exact IH].
Qed.

(** With distinct keys the loop alerts exactly the entries that are due
    on the clocks it started from, and sets the clock of each to [now]. *)
Lemma disk_alerts_spec (now : Float64.float) (interval threshold : Z) (avgs : dict (option Z)) :
  NoDup (dict_keys avgs) ->
  forall last,
    fst (disk_alerts now interval threshold avgs last) =
      newly_alerting now interval threshold last avgs /\
    forall id,
      dict_get id (snd (disk_alerts now interval threshold avgs last)) =
        if mem_key id (newly_alerting now interval threshold last avgs)
        then Some now else dict_get id last.
Proof.
  induction avgs as [|[i t] rest IH]; intros Hnd last.
  - simpl. auto.
  - simpl in Hnd. apply NoDup_cons_iff in Hnd. destruct Hnd as [Hi Hnd].
    specialize (IH Hnd). cbn [disk_alerts newly_alerting].
    destruct t as [v|]; [|apply IH].
    unfold breach, due.
    destruct (negb (v =? 0) && (threshold <=? v)); [|apply IH].
    cbn [andb].
    destruct (Float64.sub_ge_int now (dict_get_default i last 0) interval); [|apply IH].
    destruct (IH (dict_set i now last)) as [I1 I2].
    destruct (disk_alerts now interval threshold rest (dict_set i now last)) as [al last'].
    cbn [fst snd] in *.
    assert (E : newly_alerting now interval threshold (dict_set i now last) rest =
                newly_alerting now interval threshold last rest).
    { apply newly_alerting_ext. intros id Hid.
      unfold dict_get_default. rewrite dict_get_set_neq; [reflexivity|].
      intros ->. contradiction. }
    rewrite E in I1, I2. subst al. split; [reflexivity|].
    intros id. rewrite I2. unfold mem_key at 2. cbn [existsb fst].
    destruct (String.eqb_spec id i) as [->|N].
    + cbn [orb]. rewrite dict_get_set_eq. now destruct (mem_key i _).
    + cbn [orb]. fold (mem_key id (newly_alerting now interval threshold last rest)).
      now rewrite dict_get_set_neq.
Qed.

Lemma dict_get_none_key {V : Type} (k : string) (d : dict V) :
  dict_get k d = None -> ~ In k (dict_keys d).
Proof.
  induction d as [|[k2 v2] d IH]; simpl; [tauto|].
  destruct (String.eqb_spec k k2) as [->|N]; [discriminate|].
  intros E [H|H]; [now apply N|now apply IH].
Qed.

Lemma dict_set_keys_nodup {V : Type} (k : string) (v : V) (d : dict V) :
  NoDup (dict_keys d) -> NoDup (dict_keys (dict_set k v d)).
Proof.
  intros H. rewrite dict_keys_set. unfold dict_mem.
  destruct (dict_get k d) eqn:E; [exact H|].
  apply NoDup_app; [exact H|repeat constructor; intros []|].
  intros x Hx [Hk|[]]. subst x.
  exact (dict_get_none_key k d E Hx).
Qed.

Lemma read_disks_keys (r : Readings) (n : Z) (todo : list DiskInfo.t) :
  forall hist temps avgs mx ds hist' temps' avgs' mx',
    NoDup (dict_keys avgs) ->
    read_disks r n todo hist temps avgs mx = (ds, hist', Ok (temps', avgs', mx')) ->
    NoDup (dict_keys avgs').
Proof.
  induction todo as [|d rest IH]; intros hist temps avgs mx ds hist' temps' avgs' mx' Hnd.
  - simpl. intros H. injection H as _ _ _ <- _. exact Hnd.
  - cbn [read_disks].
    destruct (match read_disk_temp r (DiskInfo.device d) with
              | Some v => _
              | None => _
              end) as [h|e]; [|discriminate].
    match goal with
    | |- context [read_disks r n rest ?h ?t ?a ?m] =>
        destruct (read_disks r n rest h t a m) as [[ds1 hist1] res1] eqn:E
    end.
    intros H. injection H as _ _ Hres. subst res1.
    eapply IH; [|exact E]. now apply dict_set_keys_nodup.
Qed.

Lemma keys_functional {V : Type} (d : dict V) (k : string) (a b : V) :
  NoDup (dict_keys d) -> In (k, a) d -> In (k, b) d -> a = b.
Proof.
  induction d as [|[k2 v2] d IH]; [intros _ []|].
  simpl. intros Hnd Ha Hb. apply NoDup_cons_iff in Hnd. destruct Hnd as [Hk Hnd].
  assert (Hkey : forall x, In (k2, x) d -> False).
  { intros x Hx. apply Hk. unfold dict_keys.
    change k2 with (fst (k2, x)). now apply in_map. }
  destruct Ha as [Ha|Ha]; destruct Hb as [Hb|Hb].
  - congruence.
  - injection Ha as -> _. now apply Hkey in Hb.
  - injection Hb as -> _. now apply Hkey in Ha.
  - now apply IH.
Qed.

Lemma mem_key_in (id : string) (l : list (string * Z)) :
  mem_key id l = true <-> exists v, In (id, v) l.
Proof.
  unfold mem_key. rewrite existsb_exists. split.
  - intros [[k v] [Hin E]]. simpl in E. apply String.eqb_eq in E. subst k. eauto.
  - intros [v Hin]. exists (id, v). split; [exact Hin|]. simpl. apply String.eqb_refl.
Qed.

(** With distinct keys, a disk is listed exactly when its own average
    breaches and its own clock is due. *)
Lemma mem_key_newly (now : Float64.float) (interval threshold : Z)
    (last : dict Float64.float) (avgs : dict (option Z)) (id : string) (v : Z) :
  NoDup (dict_keys avgs) -> In (id, Some v) avgs ->
  mem_key id (newly_alerting now interval threshold last avgs) =
    breach threshold (Some v) && due now interval (dict_get_default id last 0).
Proof.
  intros Hnd Hin.
  destruct (breach threshold (Some v) && due now interval (dict_get_default id last 0)) eqn:E.
  - apply andb_true_iff in E. destruct E as [E1 E2].
    apply mem_key_in. exists v. now apply newly_alerting_complete.
  - destruct (mem_key id _) eqn:M; [|reflexivity].
    apply mem_key_in in M. destruct M as [w Hw].
    apply newly_alerting_keys in Hw. destruct Hw as [Hw [B D]].
    assert (Some w = Some v) by (eapply keys_functional; eassumption).
    injection H as ->. rewrite B, D in E. discriminate.
Qed.

Lemma dict_get_in {V : Type} (k : string) (v : V) (d : dict V) :
  dict_get k d = Some v -> In (k, v) d.
Proof.
  induction d as [|[k2 v2] d IH]; simpl; [discriminate|].
  destruct (String.eqb_spec k k2) as [->|N].
  - intros H. injection H as ->. now left.
  - intros H. right. now apply IH.
Qed.

(** What [_check_temp_alert] pushes and how it sets the clocks, when
    alerts are on and the averages have distinct keys. *)
Lemma check_temp_alert_spec (r : Readings) (c : FanController) :
  alert_enabled (config c) = true ->
  NoDup (dict_keys (Status.disk_avg_temps (status c))) ->
  let now := time_time r in
  let interval := alert_interval (config c) in
  let host := alert_hostname (config c) in
  let rpm := Status.fan_rpm (status c) in
  let cpu_avg := Status.cpu_avg_temp (status c) in
  let cpu_fires := breach (cpu_alert_temp (config c)) cpu_avg
                   && due now interval (last_alert_time_cpu c) in
  let l := newly_alerting now interval (disk_alert_temp (config c))
             (last_alert_time_disk c) (Status.disk_avg_temps (status c)) in
  snd (_check_temp_alert r c) =
    match cpu_avg with
    | Some v => if cpu_fires then [CpuAlert host v rpm] else []
    | None => []
    end ++
    match l with
    | [] => []
    | _ => [DiskAlert host l rpm]
    end /\
  last_alert_time_cpu (fst (_check_temp_alert r c)) =
    (if cpu_fires then now else last_alert_time_cpu c) /\
  forall id,
    dict_get id (last_alert_time_disk (fst (_check_temp_alert r c))) =
      if mem_key id l then Some now else dict_get id (last_alert_time_disk c).
Proof.
  intros Ha Hnd now interval host rpm cpu_avg cpu_fires l.
  destruct (disk_alerts_spec now interval (disk_alert_temp (config c))
              (Status.disk_avg_temps (status c)) Hnd (last_alert_time_disk c)) as [D1 D2].
  fold l in D1, D2.
  unfold _check_temp_alert. rewrite Ha. cbn [negb].
  fold now interval host rpm cpu_avg.
  destruct (disk_alerts now interval (disk_alert_temp (config c))
              (Status.disk_avg_temps (status c)) (last_alert_time_disk c)) as [al td].
  cbn [fst snd] in D1, D2. subst al.
  unfold cpu_fires, breach, due.
  destruct cpu_avg as [v|]; [|cbn; auto].
  destruct (negb (v =? 0) && (cpu_alert_temp (config c) <=? v)
            && Float64.sub_ge_int now (last_alert_time_cpu c) interval); cbn; auto.
Qed.

Lemma cpu_alerted_spec (host : string) (rpm : option Z) (cpu_avg : option Z)
    (fires : bool) (l : list (string * Z)) :
  cpu_alerted
    (match cpu_avg with
     | Some v => if fires then [CpuAlert host v rpm] else []
     | None => []
     end ++
     match l with
     | [] => []
     | _ => [DiskAlert host l rpm]
     end) =
  match cpu_avg with Some _ => fires | None => false end.
Proof.
  unfold cpu_alerted. rewrite existsb_app.
  destruct cpu_avg as [v|]; [destruct fires|]; destruct l; reflexivity.
Qed.

Lemma disk_alerted_spec (id host : string) (rpm : option Z) (cpu_avg : option Z)
    (fires : bool) (l : list (string * Z)) :
  disk_alerted id
    (match cpu_avg with
     | Some v => if fires then [CpuAlert host v rpm] else []
     | None => []
     end ++
     match l with
     | [] => []
     | _ => [DiskAlert host l rpm]
     end) = mem_key id l.
Proof.
  unfold disk_alerted. rewrite existsb_app.
  destruct cpu_avg as [v|]; [destruct fires|]; destruct l; cbn; auto using orb_false_r.
Qed.

End AlertFacts.


Module AlertClaims.
Import DictFacts HistoryFacts ReadTempsFacts CycleFacts ActuationClaims TimeFacts AlertFacts.

(** One source's throttle, on a clock [last0] that is not negative and
    not ahead of the first breach at [t1 <= t2]. *)
Lemma throttle (interval last0 t1 t2 : Z) :
  Float64.is_float t1 = true -> Float64.is_float t2 = true ->
  0 <= last0 <= t1 -> t1 <= t2 ->
  let fired1 := due t1 interval last0 in
  let clock1 := if fired1 then t1 else last0 in
  (last0 = 0 -> interval * Float64.one <= t1 -> fired1 = true) /\
  (fired1 = true -> t2 - t1 < interval * Float64.one -> due t2 interval clock1 = false) /\
  (Z.abs interval < 2 ^ 53 -> interval * Float64.one <= t2 - t1 ->
   due t2 interval clock1 = true).
Proof.
  intros F1 F2 Hl Ht fired1 clock1. unfold due in *.
  split; [|split].
  - intros -> Hi. unfold fired1. rewrite sub_ge_int_first by (assumption || lia).
    now apply Z.leb_le.
  - intros Hf Hw. unfold clock1. rewrite Hf.
    eapply sub_ge_int_within; eauto.
  - intros Hi Hd. apply sub_ge_int_apart; [exact Hi|].
    unfold clock1. destruct fired1; lia.
Qed.

(** C7 (amended).  Two alert checks at times [t1 <= t2] (doubles), alerts
    enabled, the same source breaching at both, the source's last-alert
    clock [last0] not negative and not after [t1], and nothing but the
    first check touching that clock in between.  For the CPU, and for
    each disk id on its own clock:
    - first breach: on a fresh clock ([last0 = 0]) the first check
      notifies, provided [t1] itself is at least [alert_interval];
    - within the cooldown: if the first check notified and
      [t2 - t1 < alert_interval], the second does not notify;
    - apart: if [t2 - t1 >= alert_interval] (an interval below [2^53]
      seconds), the second check notifies. *)
Theorem alert_throttle (r1 r2 : Readings) (c c2 : FanController) :
  alert_enabled (config c) = true -> config c2 = config c ->
  NoDup (dict_keys (Status.disk_avg_temps (status c))) ->
  NoDup (dict_keys (Status.disk_avg_temps (status c2))) ->
  Float64.is_float (time_time r1) = true -> Float64.is_float (time_time r2) = true ->
  time_time r1 <= time_time r2 ->
  let t1 := time_time r1 in
  let t2 := time_time r2 in
  let interval := alert_interval (config c) in
  let c1 := fst (_check_temp_alert r1 c) in
  let msgs1 := snd (_check_temp_alert r1 c) in
  let msgs2 := snd (_check_temp_alert r2 c2) in
  (breach (cpu_alert_temp (config c)) (Status.cpu_avg_temp (status c)) = true ->
   breach (cpu_alert_temp (config c)) (Status.cpu_avg_temp (status c2)) = true ->
   0 <= last_alert_time_cpu c <= t1 ->
   last_alert_time_cpu c2 = last_alert_time_cpu c1 ->
   (last_alert_time_cpu c = 0 -> interval * Float64.one <= t1 ->
    cpu_alerted msgs1 = true) /\
   (cpu_alerted msgs1 = true -> t2 - t1 < interval * Float64.one ->
    cpu_alerted msgs2 = false) /\
   (Z.abs interval < 2 ^ 53 -> interval * Float64.one <= t2 - t1 ->
    cpu_alerted msgs2 = true)) /\
  (forall id v1 v2,
     In (id, Some v1) (Status.disk_avg_temps (status c)) ->
     In (id, Some v2) (Status.disk_avg_temps (status c2)) ->
     breach (disk_alert_temp (config c)) (Some v1) = true ->
     breach (disk_alert_temp (config c)) (Some v2) = true ->
     0 <= dict_get_default id (last_alert_time_disk c) 0 <= t1 ->
     dict_get id (last_alert_time_disk c2) = dict_get id (last_alert_time_disk c1) ->
     (dict_get_default id (last_alert_time_disk c) 0 = 0 ->
      interval * Float64.one <= t1 -> disk_alerted id msgs1 = true) /\
     (disk_alerted id msgs1 = true -> t2 - t1 < interval * Float64.one ->
      disk_alerted id msgs2 = false) /\
     (Z.abs interval < 2 ^ 53 -> interval * Float64.one <= t2 - t1 ->
      disk_alerted id msgs2 = true)).
Proof.
  intros Ha Hcfg Hnd Hnd2 F1 F2 Ht t1 t2 interval c1 msgs1 msgs2.
  assert (Ha2 : alert_enabled (config c2) = true) by now rewrite Hcfg.
  destruct (check_temp_alert_spec r1 c Ha Hnd) as [M1 [K1 D1]].
  destruct (check_temp_alert_spec r2 c2 Ha2 Hnd2) as [M2 [_ _]].
  rewrite Hcfg in M2. fold t1 interval c1 msgs1 in M1, K1, D1. fold t2 interval msgs2 in M2.
  split.
  - intros B1 B2 Hl Hclk.
    destruct (throttle interval (last_alert_time_cpu c) t1 t2 F1 F2 Hl Ht) as [T1 [T2 T3]].
    assert (E1 : cpu_alerted msgs1 = due t1 interval (last_alert_time_cpu c)).
    { rewrite M1, cpu_alerted_spec, B1.
      destruct (Status.cpu_avg_temp (status c)); [reflexivity|discriminate]. }
    assert (E2 : cpu_alerted msgs2 = due t2 interval (last_alert_time_cpu c2)).
    { rewrite M2, cpu_alerted_spec, B2.
      destruct (Status.cpu_avg_temp (status c2)); [reflexivity|discriminate]. }
    rewrite B1 in K1. cbn [andb] in K1. rewrite Hclk, K1 in E2.
    rewrite E1, E2. auto.
  - intros id v1 v2 I1 I2 B1 B2 Hl Hclk.
    set (last0 := dict_get_default id (last_alert_time_disk c) 0) in *.
    destruct (throttle interval last0 t1 t2 F1 F2 Hl Ht) as [T1 [T2 T3]].
    assert (E1 : disk_alerted id msgs1 = due t1 interval last0).
    { rewrite M1, disk_alerted_spec, (mem_key_newly _ _ _ _ _ id v1 Hnd I1), B1.
      reflexivity. }
    assert (Eclk : dict_get_default id (last_alert_time_disk c2) 0 =
                   if due t1 interval last0 then t1 else last0).
    { unfold dict_get_default at 1. rewrite Hclk, D1.
      rewrite (mem_key_newly _ _ _ _ _ id v1 Hnd I1), B1. cbn [andb]. fold last0.
      destruct (due t1 interval last0); reflexivity. }
    assert (E2 : disk_alerted id msgs2 =
                 due t2 interval (if due t1 interval last0 then t1 else last0)).
    { rewrite M2, disk_alerted_spec, (mem_key_newly _ _ _ _ _ id v2 Hnd2 I2), B2.
      cbn [andb]. now rewrite Eclk. }
    rewrite E1, E2. auto.
Qed.

Lemma pushed_app (a b : list Event) : pushed (a ++ b) = pushed a ++ pushed b.
Proof. unfold pushed. apply flat_map_app. Qed.

Lemma pushed_pushes (msgs : list Message) : pushed (map Push msgs) = msgs.
Proof. induction msgs as [|m msgs IH]; simpl; [reflexivity|now rewrite IH]. Qed.

Lemma read_temps_keys (r : Readings) (fs : Files) (c c' : FanController) :
  _read_temps r fs c = (c', None) ->
  NoDup (dict_keys (Status.disk_avg_temps (status c'))).
Proof.
  unfold _read_temps.
  destruct (match sensors_cpu r with
            | Some v => _
            | None => _
            end) as [h|e]; [|discriminate].
  match goal with
  | |- context [read_disks ?a ?b ?d ?h ?t ?g ?m] =>
      destruct (read_disks a b d h t g m) as [[ds hist] res] eqn:E
  end.
  destruct res as [[[temps avgs] mx]|e]; [|discriminate].
  intros H. injection H as <-. cbn.
  eapply read_disks_keys; [|exact E]. constructor.
Qed.


Lemma alert_throttle_witness :
  (alert_enabled (config c_hot) = true /\
   config (fst (_check_temp_alert (r_at 1793000000) c_hot)) = config c_hot /\
   NoDup (dict_keys (Status.disk_avg_temps (status c_hot))) /\
   NoDup (dict_keys (Status.disk_avg_temps
                       (status (fst (_check_temp_alert (r_at 1793000000) c_hot))))) /\
   Float64.is_float (time_time (r_at 1793000000)) = true /\
   Float64.is_float (time_time (r_at 1793000030)) = true /\
   time_time (r_at 1793000000) <= time_time (r_at 1793000030)) /\
  cpu_alerted (snd (_check_temp_alert (r_at 1793000000) c_hot)) = true /\
  cpu_alerted (snd (_check_temp_alert (r_at 1793000030)
                      (fst (_check_temp_alert (r_at 1793000000) c_hot)))) = false.
Proof.
  assert (H1 : alert_enabled (config c_hot) = true) by reflexivity.
  assert (H2 : config (fst (_check_temp_alert (r_at 1793000000) c_hot)) = config c_hot)
    by (vm_compute; reflexivity).
  assert (H3 : NoDup (dict_keys (Status.disk_avg_temps (status c_hot)))) by constructor.
  assert (H4 : NoDup (dict_keys (Status.disk_avg_temps
                         (status (fst (_check_temp_alert (r_at 1793000000) c_hot))))))
    by (vm_compute; constructor).
  assert (H5 : Float64.is_float (time_time (r_at 1793000000)) = true)
    by (vm_compute; reflexivity).
  assert (H6 : Float64.is_float (time_time (r_at 1793000030)) = true)
    by (vm_compute; reflexivity).
  assert (H7 : time_time (r_at 1793000000) <= time_time (r_at 1793000030))
    by (vm_compute; discriminate).
  split; [auto 10|].
  destruct (alert_throttle (r_at 1793000000) (r_at 1793000030) c_hot
              (fst (_check_temp_alert (r_at 1793000000) c_hot)) H1 H2 H3 H4 H5 H6 H7)
    as [Hcpu _].
  assert (B1 : breach (cpu_alert_temp (config c_hot)) (Status.cpu_avg_temp (status c_hot))
               = true) by (vm_compute; reflexivity).
  assert (B2 : breach (cpu_alert_temp (config c_hot))
                 (Status.cpu_avg_temp
                    (status (fst (_check_temp_alert (r_at 1793000000) c_hot)))) = true)
    by (vm_compute; reflexivity).
  assert (B3 : 0 <= last_alert_time_cpu c_hot <= time_time (r_at 1793000000))
    by (split; vm_compute; discriminate).
  destruct (Hcpu B1 B2 B3 eq_refl) as [T1 [T2 _]].
  assert (A1 : cpu_alerted (snd (_check_temp_alert (r_at 1793000000) c_hot)) = true).
  { apply T1; [reflexivity|vm_compute; discriminate]. }
  split; [exact A1|].
  apply T2; [exact A1|vm_compute; reflexivity].
Defined.

(** A first CPU breach that does not notify: the CPU average is 90 over
    a threshold of 62 and the clock is fresh, but the time read is below
    the interval, either because the interval is long (2 000 000 000 s
    against a clock at 1 793 000 000 s) or because the clock is near the
    epoch (30 s against the default 60 s). *)
Lemma first_breach_counterexample :
  let long := tuned default_config true 1 0 2000000000 in
  let res1 := _control_cycle (r_at 1793000000) (sample_files 60) (warmed long []) in
  let res2 := _control_cycle (r_at 30) (sample_files 60) (warmed cfg_alert []) in
  (snd res1 = Returned Normal /\
   Status.cpu_avg_temp (status (fst (fst (fst res1)))) = Some 90 /\
   cpu_alert_temp long = 62 /\ last_alert_time_cpu (warmed long []) = 0 /\
   pushed (snd (fst res1)) = []) /\
  (snd res2 = Returned Normal /\
   Status.cpu_avg_temp (status (fst (fst (fst res2)))) = Some 90 /\
   cpu_alert_temp cfg_alert = 62 /\ last_alert_time_cpu (warmed cfg_alert []) = 0 /\
   pushed (snd (fst res2)) = []).
Proof.
  intros long res1 res2.
  repeat match goal with |- _ /\ _ => split end; vm_compute; reflexivity.
Qed.



End AlertClaims.


Module ConfigFacts.

Import DictFacts PyConfig.

Lemma mem_spec (k : string) (l : list string) : mem k l = true <-> In k l.
Proof.
  unfold mem. rewrite existsb_exists. split.
  - intros [x [Hx E]]. apply String.eqb_eq in E. now subst.
  - intros H. exists k. split; [exact H|apply String.eqb_refl].
Qed.

Lemma dict_mem_set {V : Type} (k k' : string) (v : V) (d : dict V) :
  dict_mem k' (dict_set k v d) = dict_mem k' d || String.eqb k' k.
Proof.
  unfold dict_mem. destruct (String.eqb k' k) eqn:E.
  - apply String.eqb_eq in E. subst k'. rewrite dict_get_set_eq.
    now rewrite orb_true_r.
  - apply String.eqb_neq in E. rewrite (dict_get_set_neq _ _ v d E).
    now rewrite orb_false_r.
Qed.

(** Assigning a name that is already an attribute leaves the set of
    attribute names as it was. *)
Lemma hasattr_set (rt : list string) (obj : dict value) (k k' : string) (v : value) :
  hasattr rt obj k = true ->
  hasattr rt (dict_set k v obj) k' = hasattr rt obj k'.
Proof.
  intros H. unfold hasattr in *. rewrite dict_mem_set.
  destruct (String.eqb k' k) eqn:E.
  - apply String.eqb_eq in E. subst k'. rewrite H.
    rewrite orb_true_r. reflexivity.
  - now rewrite orb_false_r.
Qed.

Lemma setattr_plain (obj : dict value) (k : string) (v : value) :
  mem k reserved_names = false -> setattr obj k v = Ok (dict_set k v obj).
Proof.
  unfold setattr, mem, reserved_names. simpl.
  destruct (String.eqb k "__class__"); [discriminate|].
  destruct (String.eqb k "__dict__"); [discriminate|].
  destruct (String.eqb k "__weakref__"); [discriminate|].
  reflexivity.
Qed.

Lemma dict_get_absent {V : Type} (k : string) (d : dict V) :
  ~ In k (dict_keys d) -> dict_get k d = None.
Proof.
  induction d as [|[k' v] d IH]; simpl; [reflexivity|].
  intros H. destruct (String.eqb k k') eqn:E.
  - apply String.eqb_eq in E. subst. exfalso. apply H. now left.
  - apply IH. intros Hin. apply H. now right.
Qed.

Lemma dict_mem_absent {V : Type} (k : string) (d : dict V) :
  ~ In k (dict_keys d) -> dict_mem k d = false.
Proof. intros H. unfold dict_mem. now rewrite dict_get_absent. Qed.

(** The loop of [update] over a payload that names none of the three
    guarded attributes. *)
Lemma update_spec (rt : list string) (data : dict value) :
  (forall k, In k (dict_keys data) -> mem k reserved_names = false) ->
  NoDup (dict_keys data) ->
  forall obj,
    snd (update rt obj data) = None /\
    (forall k v, dict_get k data = Some v -> hasattr rt obj k = true ->
                 dict_get k (fst (update rt obj data)) = Some v) /\
    (forall k, dict_get k data = None \/ hasattr rt obj k = false ->
               dict_get k (fst (update rt obj data)) = dict_get k obj) /\
    (forall k, hasattr rt (fst (update rt obj data)) k = hasattr rt obj k).
Proof.
  induction data as [|[k v] rest IH]; intros Hres Hnd obj.
  - simpl. repeat split; try reflexivity. intros k v H. discriminate.
  - simpl in Hnd. inversion Hnd as [|? ? Hk Hnd']. subst.
    assert (Hres' : forall k', In k' (dict_keys rest) -> mem k' reserved_names = false).
    { intros k' H. apply Hres. simpl. now right. }
    assert (Hkres : mem k reserved_names = false) by (apply Hres; simpl; now left).
    simpl. destruct (hasattr rt obj k) eqn:Hh.
    + rewrite (setattr_plain obj k v Hkres).
      destruct (IH Hres' Hnd' (dict_set k v obj)) as [I1 [I2 [I3 I4]]].
      split; [exact I1|]. split; [|split].
      * intros k' v' Hg Hh'. destruct (String.eqb k' k) eqn:E.
        -- apply String.eqb_eq in E. subst k'. injection Hg as <-.
           rewrite I3; [apply dict_get_set_eq|].
           left. now apply dict_get_absent.
        -- apply I2; [exact Hg|]. now rewrite hasattr_set.
      * intros k' H. destruct (String.eqb k' k) eqn:E.
        -- apply String.eqb_eq in E. subst k'.
           destruct H as [H|H]; [discriminate|congruence].
        -- rewrite I3.
           ++ apply dict_get_set_neq. now apply String.eqb_neq.
           ++ destruct H as [H|H]; [now left|right]. now rewrite hasattr_set.
      * intros k'. rewrite I4. now apply hasattr_set.
    + destruct (IH Hres' Hnd' obj) as [I1 [I2 [I3 I4]]].
      split; [exact I1|]. split; [|split].
      * intros k' v' Hg Hh'. destruct (String.eqb k' k) eqn:E.
        -- apply String.eqb_eq in E. subst k'. congruence.
        -- now apply I2.
      * intros k' H. apply I3. destruct (String.eqb k' k) eqn:E.
        -- apply String.eqb_eq in E. subst k'. now right.
        -- exact H.
      * exact I4.
Qed.

End ConfigFacts.


Module ConfigClaims.

Import DictFacts PyConfig ConfigFacts.

(** C10 (as amended).  For a payload that names none of [__class__],
    [__dict__] and [__weakref__], [FanConfig.update] does not raise; a
    key that is an attribute of the configuration object receives the
    payload's value; every other key is ignored and the object is
    unchanged at every name the payload does not assign; no name becomes
    an attribute that was not one before.  [update_config] then returns
    normally as well, for every configuration path, when neither
    [update] nor [save] is shadowed on the instance or named by the
    payload. *)
Theorem update_assigns_existing (rt : list string) (obj data : dict value) :
  (forall k, In k (dict_keys data) -> mem k reserved_names = false) ->
  NoDup (dict_keys data) ->
  let obj' := fst (update rt obj data) in
  snd (update rt obj data) = None /\
  (forall k v, dict_get k data = Some v -> hasattr rt obj k = true ->
               dict_get k obj' = Some v) /\
  (forall k, dict_get k data = None \/ hasattr rt obj k = false ->
             dict_get k obj' = dict_get k obj) /\
  (forall k, hasattr rt obj' k = hasattr rt obj k) /\
  (dict_mem "update" obj = false -> dict_mem "save" obj = false ->
   ~ In "save" (dict_keys data) ->
   forall path, update_config rt path obj data = (obj', None)).
Proof.
  intros Hres Hnd obj'.
  destruct (update_spec rt data Hres Hnd obj) as [I1 [I2 [I3 I4]]].
  split; [exact I1|]. split; [exact I2|]. split; [exact I3|]. split; [exact I4|].
  intros Hu Hs Hsave path. unfold update_config. rewrite Hu.
  assert (Hs' : dict_mem "save" obj' = false).
  { unfold dict_mem. unfold obj'. rewrite I3; [exact Hs|].
    left. now apply dict_get_absent. }
  destruct (update rt obj data) as [o e] eqn:E. simpl in *. subst e.
  unfold obj' in Hs'. simpl in Hs'. rewrite Hs'. now destruct path.
Qed.

Lemma update_assigns_existing_witness :
  ((forall k, In k (dict_keys [("enabled", VBool false); ("fan_colour", VStr "red")]) ->
              mem k reserved_names = false) /\
   NoDup (dict_keys [("enabled", VBool false); ("fan_colour", VStr "red")])) /\
  snd (update [] default_instance
         [("enabled", VBool false); ("fan_colour", VStr "red")]) = None /\
  dict_get "enabled"
    (fst (update [] default_instance
            [("enabled", VBool false); ("fan_colour", VStr "red")])) = Some (VBool false) /\
  dict_get "fan_colour"
    (fst (update [] default_instance
            [("enabled", VBool false); ("fan_colour", VStr "red")])) = None.
Proof.
  assert (H1 : forall k, In k (dict_keys [("enabled", VBool false); ("fan_colour", VStr "red")]) ->
                         mem k reserved_names = false).
  { intros k [<-|[<-|[]]]; reflexivity. }
  assert (H2 : NoDup (dict_keys [("enabled", VBool false); ("fan_colour", VStr "red")])).
  { repeat constructor; simpl; intuition discriminate. }
  split; [split; assumption|].
  destruct (update_assigns_existing [] default_instance
              [("enabled", VBool false); ("fan_colour", VStr "red")] H1 H2)
    as [R1 [R2 [R3 _]]].
  split; [exact R1|]. split.
  - apply R2; reflexivity.
  - rewrite R3; [reflexivity|]. right. reflexivity.
Defined.

(** Three payloads the claim as written does not survive, whatever the
    interpreter adds to the class: the key [__class__] with a JSON value
    makes [setattr] raise; the key [save] is an attribute (a method), so
    a JSON value is stored under it, a name the instance did not hold,
    and the save that follows the update calls that value; the key
    [update] breaks every later update in the same way. *)
Lemma update_counterexample :
  (forall rt, update rt default_instance [("__class__", VStr "x")]
              = (default_instance, Some TypeError)) /\
  (forall rt,
     dict_mem "save" default_instance = false /\
     dict_mem "save" (fst (update rt default_instance [("save", VInt 1)])) = true /\
     snd (update_config rt (Some "/etc/fan.json") default_instance [("save", VInt 1)])
       = Some TypeError) /\
  (forall rt,
     snd (update_config rt None
            (fst (update_config rt None default_instance [("update", VInt 1)]))
            [("enabled", VBool false)]) = Some TypeError).
Proof.
  split; [|split]; intros rt.
  - reflexivity.
  - repeat split; reflexivity.
  - reflexivity.
Qed.

End ConfigClaims.


(** * Further properties *)

Module MapperFacts.

Import Float64 Float64Facts LinearMapFacts CurveFacts.

Lemma linear_map_shape (v a b lo hi r : Z) :
  linear_map v a b lo hi = Ok r -> exists x, r = Z.max lo (Z.min hi x).
Proof.
  unfold linear_map. destruct (b <=? a).
  - intros H. injection H as <-. exists lo. lia.
  - intros H. repeat (apply bind_ok in H; destruct H as [? [_ H]]).
    injection H as <-. eauto.
Qed.

Lemma round_int (z d : Z) :
  0 < d -> Z.abs z < 2 ^ 53 -> round (z * one * d) d = z * one.
Proof. intros Hd Hz. exact (round_exact z 1074 d Hd Hz ltac:(lia)). Qed.

Lemma int_finite (z : Z) : Z.abs z < 2 ^ 53 -> finite (z * one) = Ok (z * one).
Proof.
  intros Hz. apply finite_intro. pose proof one_pos as Hone.
  rewrite Z.abs_mul, (Z.abs_eq one) by lia.
  assert (H : 2 ^ 53 * one <= huge).
  { unfold one, huge. rewrite <- Z.pow_add_r by lia. apply Z.pow_le_mono_r; lia. }
  nia.
Qed.

Lemma of_int_exact (z : Z) : Z.abs z < 2 ^ 53 -> of_int z = Ok (z * one).
Proof.
  intros Hz. unfold of_int.
  replace (z * one) with (z * one * 1) at 1 by ring.
  rewrite round_int by lia. now apply int_finite.
Qed.

Lemma to_int_exact (z : Z) : to_int (z * one) = z.
Proof. unfold to_int. apply Z.quot_mul. pose proof one_pos. lia. Qed.

Lemma round_zero (d : Z) : 0 < d -> round 0 d = 0.
Proof. intros Hd. exact (round_exact 0 0 d Hd ltac:(simpl; lia) ltac:(lia)). Qed.

(** Away from the input range as well, as long as every operand is at
    most [2^64] in magnitude, no step of [linear_map] overflows. *)
Lemma linear_map_total_wide (v a b lo hi : Z) :
  Z.abs (v - a) <= 2 ^ 64 -> Z.abs lo <= 2 ^ 64 -> Z.abs hi <= 2 ^ 64 ->
  exists r, linear_map v a b lo hi = Ok r.
Proof.
  intros Hv Hlo Hhi. unfold linear_map.
  destruct (b <=? a) eqn:G; [eauto|]. apply Z.leb_gt in G.
  pose proof one_pos as Hone.
  assert (P0 : 2 ^ 64 * one = 2 ^ 1138).
  { unfold one. rewrite <- Z.pow_add_r by lia. reflexivity. }
  assert (P1 : 2 ^ 64 + 2 ^ 64 = 2 ^ 65).
  { change 65 with (Z.succ 64). rewrite Z.pow_succ_r by lia. ring. }
  assert (P2 : 2 ^ 65 * one = 2 ^ 1139).
  { unfold one. rewrite <- Z.pow_add_r by lia. reflexivity. }
  assert (P3 : 2 ^ 1138 * 2 ^ 1139 = 2 ^ 1203 * one).
  { unfold one. rewrite <- !Z.pow_add_r by lia. reflexivity. }
  assert (P4 : 2 ^ 1138 <= 2 ^ 1203) by (apply Z.pow_le_mono_r; lia).
  assert (P5 : 2 ^ 1203 + 2 ^ 1203 = 2 ^ 1204).
  { change 1204 with (Z.succ 1203). rewrite Z.pow_succ_r by lia. ring. }
  assert (P6 : 0 < 2 ^ 64) by (apply Z.pow_pos_nonneg; lia).
  assert (P7 : 0 < 2 ^ 1138) by (apply Z.pow_pos_nonneg; lia).
  assert (P8 : 0 < 2 ^ 1139) by (apply Z.pow_pos_nonneg; lia).
  remember (2 ^ 64) as B eqn:EB.
  remember (2 ^ 65) as B2 eqn:EB2.
  remember (2 ^ 1138) as C eqn:EC.
  remember (2 ^ 1139) as D eqn:ED.
  remember (2 ^ 1203) as F eqn:EF.
  remember (2 ^ 1204) as G' eqn:EG.
  destruct (finite_round ((v - a) * one) (b - a) 1138) as [Q1 Q2];
    [lia|lia|rewrite <- EC; rewrite Z.abs_mul, (Z.abs_eq one) by lia; nia|].
  rewrite <- EC in Q2.
  unfold true_div.
  replace (b - a =? 0) with false by (symmetry; apply Z.eqb_neq; lia).
  replace (0 <? b - a) with true by (symmetry; apply Z.ltb_lt; lia).
  rewrite Q1. cbn [bind].
  set (q := round ((v - a) * one) (b - a)) in *.
  destruct (finite_round ((hi - lo) * one) 1 1139) as [S1 S2];
    [lia|lia|rewrite <- ED; rewrite Z.abs_mul, (Z.abs_eq one) by lia; nia|].
  rewrite <- ED in S2.
  unfold of_int at 1. rewrite S1. cbn [bind].
  set (sp := round ((hi - lo) * one) 1) in *.
  destruct (finite_round (q * sp) one 1203) as [M1 M2];
    [lia|lia|rewrite <- EF, <- P3, Z.abs_mul; nia|].
  rewrite <- EF in M2.
  unfold mul. rewrite M1. cbn [bind].
  set (pr := round (q * sp) one) in *.
  destruct (finite_round (lo * one) 1 1138) as [B1 B2'];
    [lia|lia|rewrite <- EC; rewrite Z.abs_mul, (Z.abs_eq one) by lia; nia|].
  rewrite <- EC in B2'.
  unfold of_int. rewrite B1. cbn [bind].
  set (bs := round (lo * one) 1) in *.
  destruct (finite_round (bs + pr) 1 1204) as [A1 A2]; [lia|lia|rewrite <- EG; lia|].
  unfold add. rewrite A1. cbn [bind]. eauto.
Qed.

Lemma nodup_map_inj {A B : Type} (f : A -> B) (l : list A) (x y : A) :
  NoDup (map f l) -> In x l -> In y l -> f x = f y -> x = y.
Proof.
  induction l as [|a l IH]; simpl; intros Hnd Hx Hy E; [contradiction|].
  inversion Hnd as [|? ? Ha Hl]; subst.
  destruct Hx as [<-|Hx], Hy as [<-|Hy]; auto.
  - exfalso. apply Ha. rewrite E. now apply in_map.
  - exfalso. apply Ha. rewrite <- E. now apply in_map.
Qed.

Lemma ss_split (l1 l2 : Curve) (x : CurvePoint) :
  StronglySorted by_temp (l1 ++ x :: l2) ->
  (forall y, In y l1 -> temp y <= temp x) /\ (forall y, In y l2 -> temp x <= temp y).
Proof.
  induction l1 as [|a l1 IH]; simpl; intros H;
    apply StronglySorted_inv in H; destruct H as [Hl Ha].
  - split; [contradiction|]. rewrite Forall_forall in Ha. exact Ha.
  - destruct (IH Hl) as [I1 I2]. split; [|exact I2].
    intros y [<-|Hy]; [|now apply I1].
    rewrite Forall_forall in Ha. apply (Ha x). apply in_or_app. right. now left.
Qed.

Lemma calculate_unfold (t : Z) (curve : Curve) :
  curve <> [] ->
  calculate_pwm_from_curve t curve =
    if t <=? temp (first_point (sorted curve))
    then Ok (pwm (first_point (sorted curve)), "idle")
    else if temp (last_point (sorted curve)) <=? t
         then Ok (pwm (last_point (sorted curve)), "critical")
         else interpolate t (sorted curve).
Proof. intros H. unfold calculate_pwm_from_curve. destruct curve; [contradiction|reflexivity]. Qed.

Lemma first_in (l : Curve) : l <> [] -> In (first_point l) l.
Proof. destruct l; [contradiction|]. intros _. now left. Qed.

Lemma last_in (l : Curve) : l <> [] -> In (last_point l) l.
Proof.
  intros H. unfold last_point.
  destruct (exists_last H) as [l' [y E]]. rewrite E, last_last.
  apply in_or_app. right. now left.
Qed.

(** The two ends of a segment are met exactly. *)
Lemma linear_map_ends (a b lo hi : Z) :
  a < b -> lo <= hi -> Z.abs lo < 2 ^ 52 -> Z.abs hi < 2 ^ 52 ->
  linear_map a a b lo hi = Ok lo /\ linear_map b a b lo hi = Ok hi.
Proof.
  intros Hab Hr Hlo Hhi.
  pose proof one_pos as Hone.
  assert (P : 2 ^ 52 + 2 ^ 52 = 2 ^ 53).
  { change 53 with (Z.succ 52). rewrite Z.pow_succ_r by lia. ring. }
  assert (Hsp : Z.abs (hi - lo) < 2 ^ 53) by lia.
  assert (Hlo' : Z.abs lo < 2 ^ 53) by lia.
  assert (Hhi' : Z.abs hi < 2 ^ 53) by lia.
  assert (H1' : Z.abs 1 < 2 ^ 53) by (simpl Z.abs; lia).
  assert (Hd : 0 < b - a) by lia.
  unfold linear_map.
  replace (b <=? a) with false by (symmetry; apply Z.leb_gt; lia).
  unfold true_div.
  replace (b - a =? 0) with false by (symmetry; apply Z.eqb_neq; lia).
  replace (0 <? b - a) with true by (symmetry; apply Z.ltb_lt; lia).
  rewrite (of_int_exact (hi - lo) Hsp), (of_int_exact lo Hlo').
  split.
  - rewrite Z.sub_diag. rewrite Z.mul_0_l, round_zero by lia.
    replace (finite 0) with (Ok 0 : result float) by (symmetry; apply finite_intro; simpl; apply Z.pow_pos_nonneg; lia).
    cbn [bind]. unfold mul. rewrite Z.mul_0_l, round_zero by lia.
    replace (finite 0) with (Ok 0 : result float) by (symmetry; apply finite_intro; simpl; apply Z.pow_pos_nonneg; lia).
    cbn [bind]. unfold add. rewrite Z.add_0_r.
    replace (lo * one) with (lo * one * 1) at 1 by ring.
    rewrite round_int by lia. rewrite int_finite by lia. cbn [bind].
    rewrite to_int_exact. f_equal. lia.
  - replace ((b - a) * one) with (1 * one * (b - a)) by ring.
    rewrite round_int by lia. rewrite int_finite by lia. cbn [bind].
    unfold mul.
    replace (1 * one * ((hi - lo) * one)) with ((hi - lo) * one * one) by ring.
    rewrite round_int by lia. rewrite int_finite by lia. cbn [bind].
    unfold add.
    replace (lo * one + (hi - lo) * one) with (hi * one * 1) by ring.
    rewrite round_int by lia. rewrite int_finite by lia. cbn [bind].
    rewrite to_int_exact. f_equal. lia.
Qed.

End MapperFacts.


Module MapperProperties.

Import Float64 Float64Facts LinearMapFacts CurveFacts MapperFacts.

(** X1.  A segment whose output range does not rise is flat: inside
    the input range [linear_map] returns [out_min], whatever the value,
    because the clamp [max(out_min, min(out_max, _))] is read with
    [out_max <= out_min]. *)
Theorem linear_map_falling_range (v a b lo hi : Z) :
  a <= v <= b -> Z.abs lo <= 2 ^ 1000 -> Z.abs hi <= 2 ^ 1000 -> hi <= lo ->
  linear_map v a b lo hi = Ok lo.
Proof.
  intros Hv Hlo Hhi Hr.
  destruct (linear_map_total v a b lo hi Hv Hlo Hhi) as [r H].
  rewrite H. destruct (linear_map_shape _ _ _ _ _ _ H) as [x ->].
  f_equal. lia.
Qed.

Lemma linear_map_falling_range_witness :
  (20 <= 30 <= 40 /\ Z.abs 100 <= 2 ^ 1000 /\ Z.abs 50 <= 2 ^ 1000 /\ 50 <= 100) /\
  linear_map 30 20 40 100 50 = Ok 100.
Proof.
  assert (H1 : 20 <= 30 <= 40) by lia.
  assert (H2 : Z.abs 100 <= 2 ^ 1000) by (vm_compute; discriminate).
  assert (H3 : Z.abs 50 <= 2 ^ 1000) by (vm_compute; discriminate).
  assert (H4 : 50 <= 100) by lia.
  split; [auto|].
  exact (linear_map_falling_range 30 20 40 100 50 H1 H2 H3 H4).
Defined.

(** X2.  At the two ends of a proper input range, and with a rising
    output range of values a double holds exactly, [linear_map] returns
    the ends of the output range: the double arithmetic loses nothing
    there. *)
Theorem linear_map_endpoints (a b lo hi : Z) :
  a < b -> lo <= hi -> Z.abs lo < 2 ^ 52 -> Z.abs hi < 2 ^ 52 ->
  linear_map a a b lo hi = Ok lo /\ linear_map b a b lo hi = Ok hi.
Proof. exact (linear_map_ends a b lo hi). Qed.

Lemma linear_map_endpoints_witness :
  (40 < 80 /\ 50 <= 255 /\ Z.abs 50 < 2 ^ 52 /\ Z.abs 255 < 2 ^ 52) /\
  linear_map 40 40 80 50 255 = Ok 50 /\ linear_map 80 40 80 50 255 = Ok 255.
Proof.
  assert (H1 : 40 < 80) by lia.
  assert (H2 : 50 <= 255) by lia.
  assert (H3 : Z.abs 50 < 2 ^ 52) by (vm_compute; reflexivity).
  assert (H4 : Z.abs 255 < 2 ^ 52) by (vm_compute; reflexivity).
  split; [auto|].
  exact (linear_map_endpoints 40 80 50 255 H1 H2 H3 H4).
Defined.

(** X3.  A curve with distinct temperatures and non-decreasing PWM
    values passes through each of its points: at a point's temperature
    [calculate_pwm_from_curve] returns that point's PWM. *)
Theorem curve_through_points (curve : Curve) (p : CurvePoint) :
  In p curve -> NoDup (map temp curve) -> nondecreasing_pwm curve ->
  Forall (fun q => Z.abs (pwm q) < 2 ^ 52) curve ->
  exists stage, calculate_pwm_from_curve (temp p) curve = Ok (pwm p, stage).
Proof.
  intros Hp Hnd Hs Hb. unfold nondecreasing_pwm in Hs.
  assert (Hne : curve <> []) by (intros ->; contradiction).
  rewrite (calculate_unfold _ _ Hne).
  pose proof (sorted_perm curve) as Hperm.
  pose proof (sorted_sorted curve) as Hst.
  pose proof (sorted_nonempty curve Hne) as Hsne.
  set (s := sorted curve) in *.
  assert (Hps : In p s) by (eapply Permutation_in; eassumption).
  assert (Hnds : NoDup (map temp s)).
  { eapply Permutation_NoDup; [|exact Hnd]. now apply Permutation_map. }
  assert (Hbs : Forall (fun q => Z.abs (pwm q) < 2 ^ 52) s).
  { eapply Permutation_Forall; eassumption. }
  pose proof (ss_hd_le temp s p (mkPoint 0 0) Hst Hps) as Hfirst.
  pose proof (ss_le_last temp s p (mkPoint 0 0) Hst Hps) as Hlast.
  fold (first_point s) in Hfirst. fold (last_point s) in Hlast.
  destruct (temp p <=? temp (first_point s)) eqn:E1.
  - apply Z.leb_le in E1. exists "idle". do 2 f_equal.
    f_equal. apply (nodup_map_inj temp s); auto; [now apply first_in|lia].
  - apply Z.leb_gt in E1.
    destruct (temp (last_point s) <=? temp p) eqn:E2.
    + apply Z.leb_le in E2. exists "critical". do 2 f_equal.
      f_equal. apply (nodup_map_inj temp s); auto; [now apply last_in|lia].
    + apply Z.leb_gt in E2.
      destruct (interpolate_bracket (temp p) s E1 E2)
        as [l1 [p1 [p2 [l2 [El [Hbr Ei]]]]]].
      rewrite Ei.
      assert (H12 : pwm p1 <= pwm p2).
      { rewrite El in Hs. exact (ss_adjacent pwm l1 l2 p1 p2 Hs). }
      assert (Hp2 : p = p2).
      { assert (Hst' := Hst). rewrite El in Hst'.
        destruct (ss_split l1 (p2 :: l2) p1 Hst') as [A1 _].
        replace (l1 ++ p1 :: p2 :: l2) with ((l1 ++ [p1]) ++ p2 :: l2) in Hst'
          by (rewrite <- app_assoc; reflexivity).
        destruct (ss_split (l1 ++ [p1]) l2 p2 Hst') as [_ A2].
        assert (Hin := Hps). rewrite El in Hin.
        apply in_app_or in Hin. destruct Hin as [Hin|[Hin|[Hin|Hin]]].
        - apply A1 in Hin. lia.
        - subst p1. lia.
        - now subst.
        - apply A2 in Hin.
          apply (nodup_map_inj temp s); auto; [|lia].
          rewrite El. apply in_or_app. right. right. now left. }
      subst p2.
      destruct (in_middle l1 l2 p1 p) as [I1 I2]. rewrite <- El in I1, I2.
      rewrite Forall_forall in Hbs.
      destruct (linear_map_ends (temp p1) (temp p) (pwm p1) (pwm p))
        as [_ Hm]; [lia|exact H12|now apply Hbs|now apply Hbs|].
      rewrite Hm. cbn [bind]. eauto.
Qed.

Lemma curve_through_points_witness :
  (In (mkPoint 40 50) curve3 /\ NoDup (map temp curve3) /\ nondecreasing_pwm curve3 /\
   Forall (fun q => Z.abs (pwm q) < 2 ^ 52) curve3) /\
  exists stage, calculate_pwm_from_curve 40 curve3 = Ok (50, stage).
Proof.
  assert (H1 : In (mkPoint 40 50) curve3) by (simpl; auto).
  assert (H2 : NoDup (map temp curve3)).
  { simpl. repeat constructor; simpl; intuition discriminate. }
  assert (H3 : nondecreasing_pwm curve3).
  { unfold nondecreasing_pwm, by_pwm. simpl. repeat constructor; simpl; lia. }
  assert (H4 : Forall (fun q => Z.abs (pwm q) < 2 ^ 52) curve3).
  { repeat constructor; vm_compute; reflexivity. }
  split; [auto|].
  exact (curve_through_points curve3 (mkPoint 40 50) H1 H2 H3 H4).
Defined.

(** X4.  Whatever the shape of a non-empty curve, the evaluation
    returns, its PWM lies within every interval that holds the PWM of
    all the points, and its stage is one of the four known names: the
    default [(100, unknown)] of the loop is never reached. *)
Theorem calculate_pwm_from_curve_bounds (t : Z) (curve : Curve) (lo hi : Z) :
  curve <> [] -> pwm_bounded curve ->
  Forall (fun p => lo <= pwm p <= hi) curve ->
  exists v stage,
    calculate_pwm_from_curve t curve = Ok (v, stage) /\ lo <= v <= hi /\
    In stage ["idle"; "work"; "warning"; "critical"].
Proof.
  intros Hne Hb Hr.
  rewrite (calculate_unfold _ _ Hne).
  pose proof (sorted_perm curve) as Hperm.
  pose proof (sorted_nonempty curve Hne) as Hsne.
  set (s := sorted curve) in *.
  assert (Hrs : Forall (fun p => lo <= pwm p <= hi) s).
  { eapply Permutation_Forall; eassumption. }
  assert (Hbs : Forall (fun p => Z.abs (pwm p) <= 2 ^ 1000) s).
  { eapply Permutation_Forall; eassumption. }
  rewrite Forall_forall in Hrs.
  destruct (t <=? temp (first_point s)) eqn:E1.
  - exists (pwm (first_point s)), "idle". split; [reflexivity|].
    split; [apply Hrs; now apply first_in|simpl; auto].
  - apply Z.leb_gt in E1.
    destruct (temp (last_point s) <=? t) eqn:E2.
    + exists (pwm (last_point s)), "critical". split; [reflexivity|].
      split; [apply Hrs; now apply last_in|simpl; auto].
    + apply Z.leb_gt in E2.
      destruct (interpolate_bracket t s E1 E2) as [l1 [p1 [p2 [l2 [El [Hbr Ei]]]]]].
      rewrite Ei.
      destruct (in_middle l1 l2 p1 p2) as [I1 I2]. rewrite <- El in I1, I2.
      rewrite Forall_forall in Hbs.
      destruct (linear_map_total t (temp p1) (temp p2) (pwm p1) (pwm p2))
        as [v Hv]; [lia|now apply Hbs|now apply Hbs|].
      rewrite Hv. cbn [bind]. exists v, (stage_of_pwm v).
      split; [reflexivity|].
      destruct (linear_map_shape _ _ _ _ _ _ Hv) as [x ->].
      pose proof (Hrs p1 I1). pose proof (Hrs p2 I2).
      split; [lia|].
      unfold stage_of_pwm.
      repeat match goal with |- context [if ?b then _ else _] => destruct b end;
        simpl; auto.
Qed.

Lemma calculate_pwm_from_curve_bounds_witness :
  (DEFAULT_DISK_CURVE <> [] /\ pwm_bounded DEFAULT_DISK_CURVE /\
   Forall (fun p => 0 <= pwm p <= 255) DEFAULT_DISK_CURVE) /\
  exists v stage,
    calculate_pwm_from_curve 41 DEFAULT_DISK_CURVE = Ok (v, stage) /\ 0 <= v <= 255 /\
    In stage ["idle"; "work"; "warning"; "critical"].
Proof.
  assert (H1 : DEFAULT_DISK_CURVE <> []) by discriminate.
  assert (H2 : pwm_bounded DEFAULT_DISK_CURVE).
  { repeat constructor; vm_compute; discriminate. }
  assert (H3 : Forall (fun p => 0 <= pwm p <= 255) DEFAULT_DISK_CURVE).
  { repeat constructor; simpl; lia. }
  split; [auto|].
  exact (calculate_pwm_from_curve_bounds 41 DEFAULT_DISK_CURVE 0 255 H1 H2 H3).
Defined.

End MapperProperties.

Module LegacyProperties.

Import Float64 Float64Facts LinearMapFacts MapperFacts.

Ltac split_bands :=
  repeat match goal with
         | |- context [if ?t <? ?x then _ else _] => destruct (Z.ltb_spec t x)
         end.

(** X5.  The legacy threshold bands.  With the PWM bands in the order
    of their stages, [calculate_pwm] in legacy mode does not decrease as
    the temperature grows, whatever the temperature thresholds are; it
    returns for operands up to [2^64]; and at or above every threshold it
    answers [critical_pwm_max] with the stage [emergency]. *)
Theorem calculate_pwm_legacy_monotone (cfg : FanConfig) (is_cpu : bool) (t1 t2 : Z) :
  use_curve_mode cfg = false -> bands_ordered cfg -> t1 <= t2 ->
  (forall r1 r2,
     calculate_pwm t1 cfg is_cpu = Ok r1 -> calculate_pwm t2 cfg is_cpu = Ok r2 ->
     fst r1 <= fst r2) /\
  (legacy_bounded cfg is_cpu t1 -> exists r1, calculate_pwm t1 cfg is_cpu = Ok r1) /\
  ((if is_cpu then cpu_idle_temp_max cfg else disk_idle_temp_max cfg) <= t1 ->
   (if is_cpu then cpu_work_temp_max cfg else disk_work_temp_max cfg) <= t1 ->
   (if is_cpu then cpu_warning_temp_max cfg else disk_warning_temp_max cfg) <= t1 ->
   (if is_cpu then cpu_critical_temp_max cfg else disk_critical_temp_max cfg) <= t1 ->
   calculate_pwm t1 cfg is_cpu = Ok (critical_pwm_max cfg, "emergency")).
Proof.
  intros Hmode Hb Ht.
  destruct Hb as [B1 [B2 [B3 [B4 [B5 [B6 B7]]]]]].
  unfold calculate_pwm. rewrite Hmode. cbv zeta.
  set (i0 := if is_cpu then cpu_idle_temp_min cfg else disk_idle_temp_min cfg).
  set (i1 := if is_cpu then cpu_idle_temp_max cfg else disk_idle_temp_max cfg).
  set (w1 := if is_cpu then cpu_work_temp_max cfg else disk_work_temp_max cfg).
  set (g1 := if is_cpu then cpu_warning_temp_max cfg else disk_warning_temp_max cfg).
  set (c1 := if is_cpu then cpu_critical_temp_max cfg else disk_critical_temp_max cfg).
  split; [|split].
  - intros r1 r2. split_bands; intros E1 E2; try lia;
      repeat match goal with
             | H : bind _ _ = Ok _ |- _ =>
                 apply bind_ok in H; destruct H as [? [? H]]
             | H : Ok _ = Ok _ |- _ => injection H as <-
             end; simpl fst;
      try (eapply linear_map_mono; [| |eassumption|eassumption]; lia);
      repeat match goal with
             | H : linear_map _ _ _ _ _ = Ok _ |- _ =>
                 apply linear_map_range in H; [|lia]
             end; lia.
  - intros [Ha Hv].
    assert (A : Z.abs (t1 - i0) <= 2 ^ 64 /\ Z.abs (t1 - i1) <= 2 ^ 64 /\
                Z.abs (t1 - w1) <= 2 ^ 64 /\ Z.abs (t1 - g1) <= 2 ^ 64).
    { unfold i0, i1, w1, g1. destruct is_cpu;
        repeat match goal with
               | H : Forall _ (_ :: _) |- _ => inversion H; subst; clear H
               end; auto. }
    destruct A as [A0 [A1 [A2 A3]]].
    repeat match goal with
           | H : Forall _ (_ :: _) |- _ => inversion H; subst; clear H
           end.
    split_bands;
      try match goal with
          | |- exists r, bind (linear_map ?v ?a ?b ?lo ?hi) _ = Ok r =>
              destruct (linear_map_total_wide v a b lo hi) as [x Hx];
              [assumption|assumption|assumption|rewrite Hx; cbn [bind]; eauto]
          end.
    eauto.
  - intros G1 G2 G3 G4. split_bands; try lia. reflexivity.
Qed.

Lemma calculate_pwm_legacy_monotone_witness :
  (use_curve_mode (with_use_curve_mode default_config false) = false /\
   bands_ordered (with_use_curve_mode default_config false) /\ 48 <= 66) /\
  (forall r1 r2,
     calculate_pwm 48 (with_use_curve_mode default_config false) true = Ok r1 ->
     calculate_pwm 66 (with_use_curve_mode default_config false) true = Ok r2 ->
     fst r1 <= fst r2) /\
  calculate_pwm 48 (with_use_curve_mode default_config false) true = Ok (48, "idle") /\
  calculate_pwm 66 (with_use_curve_mode default_config false) true = Ok (178, "warning").
Proof.
  assert (H1 : use_curve_mode (with_use_curve_mode default_config false) = false)
    by reflexivity.
  assert (H2 : bands_ordered (with_use_curve_mode default_config false)).
  { unfold bands_ordered. simpl. lia. }
  assert (H3 : 48 <= 66) by lia.
  split; [auto|]. split.
  - exact (proj1 (calculate_pwm_legacy_monotone
                    (with_use_curve_mode default_config false) true 48 66 H1 H2 H3)).
  - split; vm_compute; reflexivity.
Defined.

End LegacyProperties.

Module ControllerFacts.

Import DictFacts HistoryFacts ReadTempsFacts CycleFacts ActuationClaims.

Lemma dict_mem_get {V : Type} (k : string) (d : dict V) (v : V) :
  dict_get k d = Some v -> dict_mem k d = true.
Proof. intros H. unfold dict_mem. now rewrite H. Qed.

(** What [set_pwm] does to the files. *)
Lemma set_pwm_spec (fs : Files) (file : string) (value : Z) :
  (snd (set_pwm fs file value) = true ->
   exists f, dict_get file fs = Some f /\ writable f = true /\
             dict_get file (fst (set_pwm fs file value)) =
               Some (mkFile (Z.max 0 (Z.min 255 value)) (readable f) (writable f))) /\
  (snd (set_pwm fs file value) = false -> fst (set_pwm fs file value) = fs) /\
  (forall p, p <> file ->
             dict_get p (fst (set_pwm fs file value)) = dict_get p fs) /\
  dict_keys (fst (set_pwm fs file value)) = dict_keys fs.
Proof.
  unfold set_pwm. cbv zeta.
  destruct (dict_get file fs) as [f|] eqn:E; [|simpl; repeat split; auto; discriminate].
  destruct (writable f) eqn:W; simpl; [|repeat split; auto; discriminate].
  repeat split.
  - intros _. exists f. rewrite dict_get_set_eq, W. auto.
  - discriminate.
  - intros p Hp. now apply dict_get_set_neq.
  - rewrite dict_keys_set, (dict_mem_get _ _ _ E). reflexivity.
Qed.

(** [_read_temps] touches the histories, the disks' readings and the
    status only, also when it raises. *)
Lemma read_temps_frame (r : Readings) (fs : Files) (c : FanController) :
  let c' := fst (_read_temps r fs c) in
  config c' = config c /\ config_path c' = config_path c /\ running c' = running c /\
  warmup_counter c' = warmup_counter c /\ is_warmed_up c' = is_warmed_up c /\
  last_alert_time_cpu c' = last_alert_time_cpu c /\
  last_alert_time_disk c' = last_alert_time_disk c /\
  Status.target_pwm (status c') = Status.target_pwm (status c) /\
  Status.trigger_source (status c') = Status.trigger_source (status c) /\
  Status.trigger_stage (status c') = Status.trigger_stage (status c).
Proof.
  unfold _read_temps. cbv zeta.
  destruct (match sensors_cpu r with
            | Some v => trim (cpu_temp_history c ++ [v]) (temp_history_size (config c))
            | None => Ok (cpu_temp_history c)
            end) as [h|e]; [|simpl; repeat split; reflexivity].
  simpl. destruct (read_disks _ _ _ _ _ _ _) as [[ds hist] res].
  destruct res as [[[t a] m]|e]; simpl; repeat split; reflexivity.
Qed.

Lemma control_pushes (r : Readings) (fs : Files) (c : FanController)
    (c' : FanController) (fs' : Files) (ev : list Event) (o : Outcome) :
  control r fs c = (c', fs', ev, o) ->
  (o <> Returned Normal ->
   pushed ev = [] /\ last_alert_time_cpu c' = last_alert_time_cpu c /\
   last_alert_time_disk c' = last_alert_time_disk c) /\
  (alert_enabled (config c) = false ->
   pushed ev = [] /\ last_alert_time_cpu c' = last_alert_time_cpu c /\
   last_alert_time_disk c' = last_alert_time_disk c).
Proof.
  intros H. destruct (control_cases _ _ _ _ _ _ _ H) as [A|[A|A]].
  - destruct A as [_ [-> [-> E]]].
    assert (Hev : pushed ev = []).
    { destruct (pwm_differs 128 (Status.current_pwm (status c)));
        injection E as _ ->; reflexivity. }
    split; intros _; repeat split; auto.
  - destruct A as [_ [e [_ [-> [-> [_ ->]]]]]]. split; intros _; repeat split; auto.
  - destruct A as [_ [raw [src [stg [_ [-> A]]]]]]. cbv zeta in A.
    destruct A as [-> [_ ->]]. split; [intros N; now contradiction N|].
    intros Ha.
    set (c2 := with_status c _).
    assert (E : _check_temp_alert r c2 = (c2, [])).
    { unfold _check_temp_alert. change (config c2) with (config c). now rewrite Ha. }
    rewrite E. simpl.
    destruct (pwm_differs _ _); simpl; auto.
Qed.

Lemma control_files (r : Readings) (fs : Files) (c : FanController) :
  snd (fst (fst (control r fs c))) = fs \/
  exists v, snd (fst (fst (control r fs c)))
            = fst (set_pwm fs (pwm_control_file (config c)) v).
Proof.
  destruct (control r fs c) as [[[c' fs'] ev] o] eqn:H. simpl.
  destruct (control_cases _ _ _ _ _ _ _ H) as [A|[A|A]].
  - destruct A as [_ [_ [_ E]]].
    destruct (pwm_differs 128 (Status.current_pwm (status c)));
      injection E as -> _; eauto.
  - destruct A as [_ [e [_ [_ [_ [-> _]]]]]]. now left.
  - destruct A as [_ [raw [src [stg [_ [_ A]]]]]]. cbv zeta in A.
    destruct A as [_ [-> _]]. destruct (pwm_differs _ _); eauto.
Qed.

(** The shape of every cycle: it ends in the sampling, in the warm-up
    block, at the [enabled] test, or runs [control] on a controller with
    the configuration and alert clocks it started with. *)
Lemma cycle_shape (r : Readings) (fs : Files) (c : FanController) :
  (exists c' o, _control_cycle r fs c = (c', fs, [], o) /\ o <> Returned Normal /\
                o <> Returned SafetyFallback /\
                last_alert_time_cpu c' = last_alert_time_cpu c /\
                last_alert_time_disk c' = last_alert_time_disk c) \/
  (exists c2, _control_cycle r fs c = control r fs c2 /\ config c2 = config c /\
              last_alert_time_cpu c2 = last_alert_time_cpu c /\
              last_alert_time_disk c2 = last_alert_time_disk c).
Proof.
  unfold _control_cycle.
  pose proof (read_temps_frame r fs c) as F. cbv zeta in F.
  destruct (_read_temps r fs c) as [c1 [e|]]; simpl in F.
  - left. exists c1, (Raised e). repeat split; try discriminate; tauto.
  - destruct (warmup c1) as [c2 g] eqn:W.
    destruct (warmup_frame _ _ _ W) as [[Hc [_ [_ [_ [Ht1 Ht2]]]]] [_ [_ [Hg _]]]].
    destruct g as [o|].
    + left. exists c2, o.
      destruct Hg as [Hg|[Hg|[e Hg]]]; [discriminate| |];
        injection Hg as ->; repeat split; try discriminate; intuition congruence.
    + destruct (negb (enabled (config c2))).
      * left. exists c2, (Returned Disabled).
        repeat split; try discriminate; intuition congruence.
      * right. exists c2. repeat split; intuition congruence.
Qed.

End ControllerFacts.


Module ControllerProperties.

Import DictFacts HistoryFacts ReadTempsFacts CycleFacts ActuationClaims ControllerFacts.

(** X6.  [set_pwm] and [read_pwm].  A write that reports success has
    stored the value clamped to [0, 255] in a file that existed, and a
    readable file returns exactly that on the next [read_pwm]; a write
    that reports failure has changed nothing; no other path changes and
    no file is created. *)
Theorem set_pwm_read_back (fs : Files) (file : string) (value : Z) :
  let fs' := fst (set_pwm fs file value) in
  let ok := snd (set_pwm fs file value) in
  (ok = true ->
   exists f, dict_get file fs = Some f /\ writable f = true /\
             (readable f = true ->
              read_pwm fs' file = Some (Z.max 0 (Z.min 255 value)) /\
              0 <= Z.max 0 (Z.min 255 value) <= 255)) /\
  (ok = false -> fs' = fs) /\
  (forall p, p <> file -> read_pwm fs' p = read_pwm fs p) /\
  dict_keys fs' = dict_keys fs.
Proof.
  intros fs' ok.
  destruct (set_pwm_spec fs file value) as [S1 [S2 [S3 S4]]].
  split; [|split; [exact S2|split; [|exact S4]]].
  - intros Hok. destruct (S1 Hok) as [f [E [W G]]].
    exists f. split; [exact E|split; [exact W|]].
    intros R. split; [|lia]. unfold read_pwm, fs'. rewrite G. simpl. now rewrite R.
  - intros p Hp. unfold read_pwm, fs'. now rewrite S3.
Qed.

(** X7.  Whatever the state and the readings, a control cycle leaves
    every file other than the PWM control file as it was, creates no
    file, and leaves in the PWM control file either its old content or a
    value in [0, 255]. *)
Theorem cycle_touches_only_pwm_file (r : Readings) (fs : Files) (c : FanController) :
  let fs' := snd (fst (fst (_control_cycle r fs c))) in
  let file := pwm_control_file (config c) in
  (forall p, p <> file -> dict_get p fs' = dict_get p fs) /\
  dict_keys fs' = dict_keys fs /\
  (forall f', dict_get file fs' = Some f' ->
     exists f, dict_get file fs = Some f /\ readable f' = readable f /\
               writable f' = writable f /\
               (content f' = content f \/ 0 <= content f' <= 255)).
Proof.
  intros fs' file.
  assert (H : fs' = fs \/ exists v, fs' = fst (set_pwm fs file v)).
  { unfold fs', file.
    destruct (cycle_shape r fs c) as [[c' [o [E _]]]|[c2 [E [Hc _]]]].
    - rewrite E. now left.
    - rewrite E, <- Hc. apply control_files. }
  destruct H as [->|[v ->]].
  - repeat split; auto. intros f' E. exists f'. auto.
  - destruct (set_pwm_spec fs file v) as [S1 [S2 [S3 S4]]].
    split; [exact S3|split; [exact S4|]].
    intros f' E. destruct (snd (set_pwm fs file v)) eqn:Ok.
    + destruct (S1 eq_refl) as [f [E0 [W G]]]. rewrite G in E. injection E as <-.
      exists f. simpl. repeat split; auto. right. lia.
    + rewrite (S2 eq_refl) in E. exists f'. auto.
Qed.

(** X8.  With alerts switched off, no cycle pushes a message or moves
    an alert clock. *)
Theorem alerts_disabled (r : Readings) (fs : Files) (c : FanController) :
  alert_enabled (config c) = false ->
  let res := _control_cycle r fs c in
  pushed (snd (fst res)) = [] /\
  last_alert_time_cpu (fst (fst (fst res))) = last_alert_time_cpu c /\
  last_alert_time_disk (fst (fst (fst res))) = last_alert_time_disk c.
Proof.
  intros Ha res. unfold res.
  destruct (cycle_shape r fs c) as [[c' [o [E [_ [_ [T1 T2]]]]]]|[c2 [E [Hc [T1 T2]]]]].
  - rewrite E. simpl. auto.
  - rewrite E. destruct (control r fs c2) as [[[c' fs'] ev] o] eqn:H. simpl.
    destruct (control_pushes _ _ _ _ _ _ _ H) as [_ P].
    rewrite Hc in P. destruct (P Ha) as [P1 [P2 P3]].
    repeat split; congruence.
Qed.

Lemma alerts_disabled_witness :
  alert_enabled (config (with_config c_hot (with_alerts cfg_alert false))) = false /\
  pushed (snd (fst (_control_cycle (r_at 1793000000) (sample_files 60)
                      (with_config c_hot (with_alerts cfg_alert false))))) = [].
Proof.
  split; [reflexivity|].
  exact (proj1 (alerts_disabled (r_at 1793000000) (sample_files 60)
                  (with_config c_hot (with_alerts cfg_alert false)) eq_refl)).
Defined.

(** X9.  Messages are pushed and alert clocks moved only by a cycle
    that runs to its normal end: a cycle that raises, is still warming
    up, is disabled or takes the safety fallback pushes nothing. *)
Theorem pushes_only_in_normal_cycles (r : Readings) (fs : Files) (c : FanController) :
  let res := _control_cycle r fs c in
  snd res <> Returned Normal ->
  pushed (snd (fst res)) = [] /\
  last_alert_time_cpu (fst (fst (fst res))) = last_alert_time_cpu c /\
  last_alert_time_disk (fst (fst (fst res))) = last_alert_time_disk c.
Proof.
  intros res. unfold res.
  destruct (cycle_shape r fs c) as [[c' [o [E [_ [_ [T1 T2]]]]]]|[c2 [E [Hc [T1 T2]]]]].
  - rewrite E. simpl. auto.
  - rewrite E. destruct (control r fs c2) as [[[c' fs'] ev] o] eqn:H. simpl.
    intros Ho. destruct (control_pushes _ _ _ _ _ _ _ H) as [P _].
    destruct (P Ho) as [P1 [P2 P3]]. repeat split; congruence.
Qed.

Lemma pushes_only_in_normal_cycles_witness :
  snd (_control_cycle r_hot (sample_files 60) c_disabled) <> Returned Normal /\
  pushed (snd (fst (_control_cycle r_hot (sample_files 60) c_disabled))) = [].
Proof.
  assert (H : snd (_control_cycle r_hot (sample_files 60) c_disabled) <> Returned Normal).
  { vm_compute. discriminate. }
  split; [exact H|].
  exact (proj1 (pushes_only_in_normal_cycles r_hot (sample_files 60) c_disabled H)).
Defined.

End ControllerProperties.

Module RunFacts.

Import Float64 Float64Facts LinearMapFacts MapperFacts.
Import DictFacts HistoryFacts ReadTempsFacts CycleFacts ActuationClaims WindowClaims.
Import ControllerFacts.

Lemma sum_bounds (l : list Z) (lo hi : Z) :
  Forall (fun x => lo <= x <= hi) l ->
  Z.of_nat (List.length l) * lo <= fold_right Z.add 0 l <= Z.of_nat (List.length l) * hi.
Proof.
  induction 1 as [|x l Hx Hl IH]; [simpl; lia|].
  change (fold_right Z.add 0 (x :: l)) with (x + fold_right Z.add 0 l).
  change (List.length (x :: l)) with (S (List.length l)).
  rewrite Nat2Z.inj_succ. lia.
Qed.

(** The warm-up progress is computed without overflow for counters up
    to [2^64] and a positive history size. *)
Lemma warmup_progress_total (n size : Z) :
  0 <= n <= 2 ^ 64 -> 1 <= size -> exists p, warmup_progress_of n size = Ok p.
Proof.
  intros Hn Hs. unfold warmup_progress_of, true_div.
  replace (size =? 0) with false by (symmetry; apply Z.eqb_neq; lia).
  replace (0 <? size) with true by (symmetry; apply Z.ltb_lt; lia).
  pose proof one_pos as Hone.
  assert (P0 : 2 ^ 64 * one = 2 ^ 1138).
  { unfold one. rewrite <- Z.pow_add_r by lia. reflexivity. }
  assert (P1 : 2 ^ 1138 * 2 ^ 7 = 2 ^ 1145).
  { rewrite <- Z.pow_add_r by lia. reflexivity. }
  assert (P2 : 0 < 2 ^ 1138) by (apply Z.pow_pos_nonneg; lia).
  assert (P3 : 2 ^ 7 = 128) by reflexivity.
  remember (2 ^ 64) as B eqn:EB.
  remember (2 ^ 1138) as C eqn:EC.
  remember (2 ^ 1145) as D eqn:ED.
  destruct (finite_round (n * one) size 1138) as [Q1 Q2];
    [lia|lia|rewrite <- EC; rewrite Z.abs_mul, (Z.abs_eq one), (Z.abs_eq n) by lia; nia|].
  rewrite <- EC in Q2. rewrite Q1. cbn [bind].
  rewrite (of_int_exact 100) by (simpl Z.abs; lia). cbn [bind].
  set (q := round (n * one) size) in *.
  destruct (finite_round (q * (100 * one)) one 1145) as [M1 M2];
    [lia|lia| |].
  { rewrite <- ED, <- P1, P3.
    replace (q * (100 * one)) with (q * 100 * one) by ring.
    rewrite Z.abs_mul, (Z.abs_eq one) by lia.
    apply Z.mul_le_mono_nonneg_r; [lia|]. lia. }
  unfold mul. rewrite M1. cbn [bind]. eauto.
Qed.

(** One cycle of a controller that is still warming up. *)
Lemma warmup_cycle (r : Readings) (fs : Files) (c : FanController) :
  is_warmed_up c = false -> 0 <= warmup_counter c -> warmup_counter c + 1 <= 2 ^ 64 ->
  1 <= temp_history_size (config c) -> NoDup (map DiskInfo.id (disks c)) ->
  let res := _control_cycle r fs c in
  let c' := fst (fst (fst res)) in
  let k := warmup_counter c + 1 in
  config c' = config c /\ map DiskInfo.id (disks c') = map DiskInfo.id (disks c) /\
  warmup_counter c' = k /\
  (k < temp_history_size (config c) ->
   res = (c', fs, [], Returned WarmingUp) /\ is_warmed_up c' = false) /\
  (temp_history_size (config c) <= k ->
   is_warmed_up c' = true /\ snd res <> Returned WarmingUp).
Proof.
  intros Hw Hk0 Hk Hn Hnd res c' k.
  assert (Hn0 : 0 <= temp_history_size (config c)) by lia.
  destruct (read_temps_unfold r fs c Hn0 Hnd) as [hist [temps [avgs [mx [Er _]]]]].
  pose proof (cycle_sampling r fs c c' (snd (fst (fst res))) (snd (fst res)) (snd res)
                Hn0 Hnd) as Hs.
  assert (Eta : _control_cycle r fs c
                = (c', snd (fst (fst res)), snd (fst res), snd res)).
  { unfold c', res. apply cycle_eta. }
  specialize (Hs Eta). cbv zeta in Hs. destruct Hs as [S1 [S2 _]].
  split; [exact S1|]. split; [rewrite S2; apply polled_ids|].
  unfold c', res, _control_cycle. rewrite Er.
  set (c1 := after_read r fs c hist temps avgs mx).
  assert (W1 : is_warmed_up c1 = false) by exact Hw.
  unfold warmup. rewrite W1.
  change (warmup_counter c1) with (warmup_counter c).
  change (temp_history_size (config (with_warmup c1 (warmup_counter c + 1) false)))
    with (temp_history_size (config c)).
  fold k.
  destruct (warmup_progress_total k (temp_history_size (config c))) as [p Hp];
    [unfold k; lia|lia|].
  rewrite Hp.
  change (temp_history_size
            (config (with_status (with_warmup c1 k false)
                       (Status.with_warmup_progress
                          (status (with_warmup c1 k false)) p))))
    with (temp_history_size (config c)).
  destruct (temp_history_size (config c) <=? k) eqn:G.
  - apply Z.leb_le in G.
    set (c2 := with_status (with_warmup _ k true) _).
    assert (Hfin : warmup_counter
                     (fst (fst (fst (if negb (enabled (config c2))
                                     then (c2, fs, [], Returned Disabled)
                                     else control r fs c2)))) = k /\
                   is_warmed_up
                     (fst (fst (fst (if negb (enabled (config c2))
                                     then (c2, fs, [], Returned Disabled)
                                     else control r fs c2)))) = true /\
                   snd (if negb (enabled (config c2))
                        then (c2, fs, [], Returned Disabled)
                        else control r fs c2) <> Returned WarmingUp).
    { destruct (negb (enabled (config c2))).
      - simpl. repeat split; auto. discriminate.
      - destruct (control r fs c2) as [[[c3 fs3] ev3] o3] eqn:Hc. simpl.
        destruct (control_frame _ _ _ _ _ _ _ Hc) as [_ [_ [_ [_ [F5 [F6 _]]]]]].
        split; [rewrite F6; reflexivity|]. split; [rewrite F5; reflexivity|].
        destruct (control_cases _ _ _ _ _ _ _ Hc)
          as [[_ [-> _]]|[[_ [e [_ [-> _]]]]|[_ [raw [src [stg [_ [-> _]]]]]]]];
          discriminate. }
    destruct Hfin as [F1 [F2 F3]].
    split; [exact F1|]. split; [intros; lia|]. intros _. split; assumption.
  - apply Z.leb_gt in G. simpl. split; [reflexivity|].
    split; [|intros; lia]. intros _. split; reflexivity.
Qed.

(** A run of cycles shorter than what the warm-up still needs. *)
Lemma run_warmup (rs : list Readings) :
  forall (fs : Files) (c : FanController),
    is_warmed_up c = false -> 0 <= warmup_counter c ->
    temp_history_size (config c) <= 2 ^ 64 ->
    warmup_counter c + Z.of_nat (List.length rs) < temp_history_size (config c) ->
    NoDup (map DiskInfo.id (disks c)) ->
    let c' := fst (fst (run_cycles rs fs c)) in
    snd (fst (run_cycles rs fs c)) = fs /\
    snd (run_cycles rs fs c) = map (fun _ => ([], Returned WarmingUp)) rs /\
    is_warmed_up c' = false /\
    warmup_counter c' = warmup_counter c + Z.of_nat (List.length rs) /\
    config c' = config c /\ map DiskInfo.id (disks c') = map DiskInfo.id (disks c).
Proof.
  induction rs as [|r rs IH]; intros fs c Hw Hk0 Hb Hlen Hnd.
  - simpl. repeat split; auto. lia.
  - change (List.length (r :: rs)) with (S (List.length rs)) in Hlen.
    rewrite Nat2Z.inj_succ in Hlen.
    destruct (warmup_cycle r fs c Hw Hk0) as [A1 [A2 [A3 [A4 _]]]]; [lia|lia|exact Hnd|].
    destruct A4 as [E W1]; [lia|].
    set (c1 := fst (fst (fst (_control_cycle r fs c)))) in *.
    cbn [run_cycles]. rewrite E.
    destruct (IH fs c1) as [I1 [I2 [I3 [I4 [I5 I6]]]]];
      [exact W1|lia|now rewrite A1|rewrite A3, A1; lia|now rewrite A2|].
    destruct (run_cycles rs fs c1) as [[c2 fs2] log] eqn:R.
    cbn [fst snd] in I1, I2, I3, I4, I5, I6 |- *.
    split; [exact I1|]. split; [rewrite I2; reflexivity|]. split; [exact I3|].
    split; [|split; congruence].
    change (List.length (r :: rs)) with (S (List.length rs)).
    rewrite Nat2Z.inj_succ. lia.
Qed.

End RunFacts.


Module RunProperties.

Import Float64 Float64Facts LinearMapFacts MapperFacts.
Import DictFacts HistoryFacts ReadTempsFacts CycleFacts ActuationClaims WindowClaims.
Import ControllerFacts RunFacts.

(** X10.  A history average lies between the smallest and the largest
    valid entry: whenever every entry above 0 is within [lo, hi], so is
    the average. *)
Theorem calc_avg_between (h : list Z) (a lo hi : Z) :
  _calc_avg h = Some a ->
  (forall x, In x h -> 0 < x -> lo <= x <= hi) ->
  lo <= a <= hi.
Proof.
  unfold _calc_avg. cbv zeta. intros Ha Hb.
  set (valid := filter (fun t => 0 <? t) h) in *.
  assert (Hv : Forall (fun x => lo <= x <= hi) valid).
  { apply Forall_forall. intros x Hx. apply filter_In in Hx.
    destruct Hx as [Hx Hp]. apply Z.ltb_lt in Hp. now apply Hb. }
  pose proof (sum_bounds valid lo hi Hv) as [S1 S2].
  destruct valid as [|x l] eqn:E; [discriminate|].
  injection Ha as <-.
  assert (Hlen : 0 < Z.of_nat (List.length (x :: l))) by (simpl; lia).
  split.
  - apply Z.div_le_lower_bound; [exact Hlen|exact S1].
  - apply Z.div_le_upper_bound; [exact Hlen|exact S2].
Qed.

Lemma calc_avg_between_witness :
  (_calc_avg [40; 0; 45] = Some 42 /\
   forall x, In x [40; 0; 45] -> 0 < x -> 40 <= x <= 45) /\
  40 <= 42 <= 45.
Proof.
  assert (H1 : _calc_avg [40; 0; 45] = Some 42) by reflexivity.
  assert (H2 : forall x, In x [40; 0; 45] -> 0 < x -> 40 <= x <= 45).
  { intros x [<-|[<-|[<-|[]]]] Hx; lia. }
  split; [auto|].
  exact (calc_avg_between [40; 0; 45] 42 40 45 H1 H2).
Defined.

(** X11.  A negative [temp_history_size]: as soon as the CPU reports a
    temperature, the trimming loop pops from the emptied history and the
    cycle ends in [IndexError], with the CPU history empty and nothing
    written, pushed or counted. *)
Theorem negative_history_size_raises (r : Readings) (fs : Files) (c : FanController)
    (v : Z) :
  temp_history_size (config c) < 0 -> sensors_cpu r = Some v ->
  _control_cycle r fs c = (with_cpu_history c [], fs, [], Raised IndexError).
Proof.
  intros Hn Hv. unfold _control_cycle, _read_temps. cbv zeta.
  rewrite Hv, (trim_negative _ _ Hn). reflexivity.
Qed.

Lemma negative_history_size_raises_witness :
  (temp_history_size (config (warmed (tuned default_config true (-1) 0 60) [])) < 0 /\
   sensors_cpu r_hot = Some 90) /\
  snd (_control_cycle r_hot (sample_files 60)
         (warmed (tuned default_config true (-1) 0 60) [])) = Raised IndexError.
Proof.
  assert (H1 : temp_history_size (config (warmed (tuned default_config true (-1) 0 60) []))
               < 0) by reflexivity.
  assert (H2 : sensors_cpu r_hot = Some 90) by reflexivity.
  split; [auto|].
  rewrite (negative_history_size_raises r_hot (sample_files 60)
             (warmed (tuned default_config true (-1) 0 60) []) 90 H1 H2).
  reflexivity.
Defined.

(** X12.  A [temp_history_size] of 0 on a controller that is not warmed
    up: every cycle of every run ends in [ZeroDivisionError] at the
    warm-up progress, so the controller never leaves the warm-up and
    never writes the actuator. *)
Theorem zero_history_size_never_warms (rs : list Readings) :
  forall (fs : Files) (c : FanController),
    temp_history_size (config c) = 0 -> is_warmed_up c = false ->
    NoDup (map DiskInfo.id (disks c)) ->
    snd (fst (run_cycles rs fs c)) = fs /\
    snd (run_cycles rs fs c) = map (fun _ => ([], Raised ZeroDivisionError)) rs /\
    is_warmed_up (fst (fst (run_cycles rs fs c))) = false.
Proof.
  induction rs as [|r rs IH]; intros fs c Hn Hw Hnd; [simpl; auto|].
  assert (Hn0 : 0 <= temp_history_size (config c)) by lia.
  destruct (read_temps_unfold r fs c Hn0 Hnd) as [hist [temps [avgs [mx [Er _]]]]].
  assert (E : _control_cycle r fs c =
              (with_warmup (after_read r fs c hist temps avgs mx)
                 (warmup_counter c + 1) false, fs, [], Raised ZeroDivisionError)).
  { unfold _control_cycle. rewrite Er. unfold warmup.
    change (is_warmed_up (after_read r fs c hist temps avgs mx)) with (is_warmed_up c).
    rewrite Hw.
    change (temp_history_size
              (config (with_warmup (after_read r fs c hist temps avgs mx)
                         (warmup_counter (after_read r fs c hist temps avgs mx) + 1)
                         false)))
      with (temp_history_size (config c)).
    rewrite Hn. reflexivity. }
  cbn [run_cycles]. rewrite E.
  set (c1 := with_warmup _ _ false).
  destruct (IH fs c1) as [I1 [I2 I3]];
    [exact Hn|reflexivity|unfold c1; simpl; rewrite polled_ids; exact Hnd|].
  destruct (run_cycles rs fs c1) as [[c2 fs2] log].
  cbn [fst snd] in I1, I2, I3 |- *.
  split; [exact I1|]. split; [rewrite I2; reflexivity|exact I3].
Qed.

Lemma zero_history_size_never_warms_witness :
  (temp_history_size (config (new_controller (tuned default_config true 0 0 60) None)) = 0 /\
   is_warmed_up (new_controller (tuned default_config true 0 0 60) None) = false /\
   NoDup (map DiskInfo.id (disks (new_controller (tuned default_config true 0 0 60) None)))) /\
  snd (run_cycles [r_hot; r_hot] (sample_files 60)
         (new_controller (tuned default_config true 0 0 60) None)) =
    [([], Raised ZeroDivisionError); ([], Raised ZeroDivisionError)].
Proof.
  split; [repeat split; constructor|].
  exact (proj1 (proj2 (zero_history_size_never_warms [r_hot; r_hot] (sample_files 60)
                         (new_controller (tuned default_config true 0 0 60) None)
                         eq_refl eq_refl (NoDup_nil _)))).
Defined.

(** X13.  [start] and the warm-up.  After a stopped controller is
    started, also one that had been warmed up before, the first
    [temp_history_size - 1] cycles are warm-up cycles: they sample but
    write nothing and push nothing; the cycle after them completes the
    warm-up and goes on to the control steps. *)
Theorem warmup_after_start (rs : list Readings) (r : Readings) (fs : Files)
    (c : FanController) :
  running c = false ->
  1 <= temp_history_size (config c) <= 2 ^ 64 ->
  NoDup (map DiskInfo.id (disks c)) ->
  Z.of_nat (List.length rs) = temp_history_size (config c) - 1 ->
  let run := run_cycles rs fs (start c) in
  let c1 := fst (fst run) in
  snd (fst run) = fs /\
  snd run = map (fun _ => ([], Returned WarmingUp)) rs /\
  is_warmed_up c1 = false /\
  is_warmed_up (fst (fst (fst (_control_cycle r fs c1)))) = true /\
  snd (_control_cycle r fs c1) <> Returned WarmingUp.
Proof.
  intros Hr Hn Hnd Hlen run c1.
  assert (Hs : start c = with_warmup (with_running c true) 0 false).
  { unfold start. now rewrite Hr. }
  destruct (run_warmup rs fs (start c)) as [R1 [R2 [R3 [R4 [R5 R6]]]]];
    try (rewrite Hs; simpl; auto; lia).
  fold run in R1, R2, R3, R4, R5, R6. fold c1 in R3, R4, R5, R6.
  assert (Hcfg : config c1 = config c) by (rewrite R5, Hs; reflexivity).
  assert (Hids : map DiskInfo.id (disks c1) = map DiskInfo.id (disks c))
    by (rewrite R6, Hs; reflexivity).
  assert (Hcnt : warmup_counter c1 = temp_history_size (config c) - 1).
  { rewrite R4, Hs. simpl. lia. }
  split; [exact R1|]. split; [exact R2|]. split; [exact R3|].
  destruct (warmup_cycle r fs c1 R3) as [_ [_ [_ [_ A5]]]];
    [lia|lia|rewrite Hcfg; lia|now rewrite Hids|].
  apply A5. rewrite Hcfg. lia.
Qed.

Lemma warmup_after_start_witness :
  (running c_one_disk = false /\
   1 <= temp_history_size (config c_one_disk) <= 2 ^ 64 /\
   NoDup (map DiskInfo.id (disks c_one_disk)) /\
   Z.of_nat (List.length [r_hot; r_hot; r_hot]) = temp_history_size (config c_one_disk) - 1) /\
  snd (run_cycles [r_hot; r_hot; r_hot] (sample_files 60) (start c_one_disk)) =
    [([], Returned WarmingUp); ([], Returned WarmingUp); ([], Returned WarmingUp)].
Proof.
  assert (H1 : running c_one_disk = false) by reflexivity.
  assert (H2 : 1 <= temp_history_size (config c_one_disk) <= 2 ^ 64).
  { split; vm_compute; discriminate. }
  assert (H3 : NoDup (map DiskInfo.id (disks c_one_disk))).
  { simpl. repeat constructor. simpl. tauto. }
  assert (H4 : Z.of_nat (List.length [r_hot; r_hot; r_hot])
               = temp_history_size (config c_one_disk) - 1) by reflexivity.
  split; [auto|].
  exact (proj1 (proj2 (warmup_after_start [r_hot; r_hot; r_hot] r_hot (sample_files 60)
                         c_one_disk H1 H2 H3 H4))).
Defined.

(** X14.  The selection of active disks.  [set_active_disks] records the
    ids in the configuration and flags exactly the disks whose id is
    selected, touching nothing else of the disks; a later [detect_disks]
    flags what it found by the same ids, so the selection survives a
    re-detection. *)
Theorem active_selection (ids : list string) (found : list DiskInfo.t)
    (c : FanController) :
  let c1 := set_active_disks ids c in
  let c2 := detect_disks found c1 in
  active_disks (config c1) = ids /\
  map (fun d => DiskInfo.with_active d false) (disks c1) =
    map (fun d => DiskInfo.with_active d false) (disks c) /\
  (forall d, In d (disks c1) -> DiskInfo.active d = true <-> In (DiskInfo.id d) ids) /\
  map (fun d => DiskInfo.with_active d false) (disks c2) =
    map (fun d => DiskInfo.with_active d false) found /\
  (forall d, In d (disks c2) -> DiskInfo.active d = true <-> In (DiskInfo.id d) ids).
Proof.
  intros c1 c2.
  assert (Hmem : forall (i : string) (l : list string),
             existsb (String.eqb i) l = true <-> In i l).
  { intros i l. rewrite existsb_exists. split.
    - intros [x [Hx E]]. apply String.eqb_eq in E. now subst.
    - intros H. exists i. split; [exact H|apply String.eqb_refl]. }
  split; [reflexivity|]. split; [|split; [|split]].
  - unfold c1, set_active_disks. simpl. rewrite map_map. reflexivity.
  - intros d Hd. unfold c1, set_active_disks in Hd. simpl in Hd.
    apply in_map_iff in Hd. destruct Hd as [d0 [<- _]]. simpl. apply Hmem.
  - unfold c2, detect_disks. simpl. rewrite map_map. reflexivity.
  - intros d Hd. unfold c2, detect_disks in Hd. simpl in Hd.
    apply in_map_iff in Hd. destruct Hd as [d0 [<- _]]. simpl. apply Hmem.
Qed.



(** X16.  The windows stay within [temp_history_size]: after a cycle
    every disk window has at most that many entries, and so has the CPU
    window once it got a reading, or if it was within the bound before. *)
Theorem windows_bounded (r : Readings) (fs : Files) (c : FanController)
    (c' : FanController) (fs' : Files) (ev : list Event) (o : Outcome) :
  0 <= temp_history_size (config c) -> NoDup (map DiskInfo.id (disks c)) ->
  _control_cycle r fs c = (c', fs', ev, o) ->
  let n := temp_history_size (config c) in
  (Z.of_nat (List.length (cpu_temp_history c)) <= n \/ sensors_cpu r <> None ->
   Z.of_nat (List.length (cpu_temp_history c')) <= n) /\
  forall d, In d (disks c) ->
    Z.of_nat (List.length (dict_get_default (DiskInfo.id d) (disk_temp_history c') []))
    <= n.
Proof.
  intros Hn Hnd Hc n.
  destruct (cycle_sampling _ _ _ _ _ _ _ Hn Hnd Hc) as [_ [_ [S3 [_ S5]]]].
  fold n in S3, S5. split.
  - intros H. rewrite S3. unfold cpu_window_step.
    destruct (sensors_cpu r) as [v|].
    + rewrite last_n_length by exact Hn. lia.
    + destruct H as [H|H]; [exact H|now contradiction H].
  - intros d Hd. destruct (S5 d Hd) as [E _].
    unfold dict_get_default. rewrite E. unfold window_of, disk_window_step.
    destruct (reading_of r d) as [v|].
    + rewrite last_n_length by exact Hn. lia.
    + simpl. exact Hn.
Qed.

Lemma windows_bounded_witness :
  (0 <= temp_history_size (config c_one_disk) /\
   NoDup (map DiskInfo.id (disks c_one_disk))) /\
  forall d, In d (disks c_one_disk) ->
    Z.of_nat (List.length
                (dict_get_default (DiskInfo.id d)
                   (disk_temp_history
                      (fst (fst (fst (_control_cycle r_hot (sample_files 60) c_one_disk)))))
                   []))
    <= temp_history_size (config c_one_disk).
Proof.
  assert (H1 : 0 <= temp_history_size (config c_one_disk)) by (vm_compute; discriminate).
  assert (H2 : NoDup (map DiskInfo.id (disks c_one_disk))).
  { simpl. repeat constructor. simpl. tauto. }
  split; [auto|].
  exact (proj2 (windows_bounded _ _ _ _ _ _ _ H1 H2
                  (cycle_eta (_control_cycle r_hot (sample_files 60) c_one_disk)))).
Defined.

(** X17.  [refresh] samples as a cycle does: it feeds one reading into
    every window and renews the averages and the readings of the status,
    while the warm-up, the target and the alert clocks stay as they are. *)
Theorem refresh_feeds_windows (r : Readings) (fs : Files) (c : FanController) :
  0 <= temp_history_size (config c) -> NoDup (map DiskInfo.id (disks c)) ->
  let n := temp_history_size (config c) in
  let c' := fst (refresh r fs c) in
  snd (refresh r fs c) = Ok (status c') /\
  cpu_temp_history c' = cpu_window_step n (cpu_temp_history c) (sensors_cpu r) /\
  Status.cpu_avg_temp (status c') = _calc_avg (cpu_temp_history c') /\
  Status.current_pwm (status c') = read_pwm fs (pwm_control_file (config c)) /\
  (forall d, In d (disks c) ->
     dict_get (DiskInfo.id d) (disk_temp_history c') =
       Some (window_of r n (disk_temp_history c) d) /\
     dict_get (DiskInfo.id d) (Status.disk_avg_temps (status c')) =
       Some (_calc_avg (window_of r n (disk_temp_history c) d))) /\
  (warmup_counter c' = warmup_counter c /\ is_warmed_up c' = is_warmed_up c /\
   Status.target_pwm (status c') = Status.target_pwm (status c) /\
   last_alert_time_cpu c' = last_alert_time_cpu c /\
   last_alert_time_disk c' = last_alert_time_disk c).
Proof.
  intros Hn Hnd n c'.
  destruct (read_temps_unfold r fs c Hn Hnd) as [hist [temps [avgs [mx [Er [Hin _]]]]]].
  unfold c', refresh. rewrite Er. simpl.
  repeat split; auto.
  - now destruct (Hin d H).
  - now destruct (Hin d H) as [_ [I2 _]].
Qed.

Lemma refresh_feeds_windows_witness :
  (0 <= temp_history_size (config c_one_disk) /\
   NoDup (map DiskInfo.id (disks c_one_disk))) /\
  cpu_temp_history (fst (refresh r_hot (sample_files 60) c_one_disk)) = [90] /\
  Status.cpu_avg_temp (status (fst (refresh r_hot (sample_files 60) c_one_disk)))
    = Some 90.
Proof.
  assert (H1 : 0 <= temp_history_size (config c_one_disk)) by (vm_compute; discriminate).
  assert (H2 : NoDup (map DiskInfo.id (disks c_one_disk))).
  { simpl. repeat constructor. simpl. tauto. }
  split; [auto|].
  destruct (refresh_feeds_windows r_hot (sample_files 60) c_one_disk H1 H2)
    as [_ [R2 [R3 _]]].
  split; [rewrite R2; reflexivity|]. rewrite R3, R2. reflexivity.
Defined.

End RunProperties.

Module DetectFacts.

Lemma str_inj (n m : nat) : str n = str m -> n = m.
Proof.
  unfold str. intros H.
  apply (f_equal NilEmpty.uint_of_string) in H. rewrite !NilEmpty.usu in H.
  injection H as H. apply (f_equal Nat.of_uint) in H.
  now rewrite !DecimalNat.Unsigned.of_to in H.
Qed.

Lemma numbered_mono (st st' : Detect) (i : string) :
  (ata st <= ata st')%nat -> (nvme st <= nvme st')%nat -> (usb st <= usb st')%nat ->
  numbered st i -> numbered st' i.
Proof.
  intros A N U [[n [E H]]|[[n [E H]]|[n [E H]]]].
  - left. exists n. split; [exact E|lia].
  - right. left. exists n. split; [exact E|lia].
  - right. right. exists n. split; [exact E|lia].
Qed.

Lemma inv_grow (st : Detect) (seen : list string) (a n u : nat) :
  detect_inv st -> (ata st <= a)%nat -> (nvme st <= n)%nat -> (usb st <= u)%nat ->
  (forall x, In x (seen_devices st) -> In x seen) ->
  detect_inv (mkDetect seen a n u (detected st)).
Proof.
  intros [I1 [I2 I3]] A N U S. split; [exact I1|split; [exact I2|]].
  intros d Hd. destruct (I3 d Hd) as [J1 [J2 [J3 J4]]]. simpl.
  repeat split; auto. eapply numbered_mono; eauto.
Qed.

Lemma nodup_snoc {A : Type} (l : list A) (x : A) :
  NoDup l -> ~ In x l -> NoDup (l ++ [x]).
Proof.
  induction 1 as [|a l Ha Hl IH]; simpl; intros Hx.
  - repeat constructor. tauto.
  - constructor.
    + intros Hin. apply in_app_or in Hin. destruct Hin as [Hin|[<-|[]]]; tauto.
    + apply IH. tauto.
Qed.

Lemma inv_add (st : Detect) (a n u : nat) (d : DiskInfo.t) :
  detect_inv st ->
  (ata st <= a)%nat -> (nvme st <= n)%nat -> (usb st <= u)%nat ->
  ~ In (DiskInfo.device d) (seen_devices st) ->
  numbered (mkDetect (DiskInfo.device d :: seen_devices st) a n u []) (DiskInfo.id d) ->
  ~ numbered st (DiskInfo.id d) ->
  DiskInfo.active d = false -> DiskInfo.temp d = None ->
  detect_inv (mkDetect (DiskInfo.device d :: seen_devices st) a n u (detected st ++ [d])).
Proof.
  intros [I1 [I2 I3]] A N U Hs Hnum Hnew Hact Htemp. unfold detect_inv. simpl.
  rewrite !map_app. simpl. split; [|split].
  - apply nodup_snoc; [exact I1|]. intros Hin. apply in_map_iff in Hin.
    destruct Hin as [d0 [E Hd0]]. apply Hnew. rewrite <- E. now apply I3.
  - apply nodup_snoc; [exact I2|]. intros Hin. apply in_map_iff in Hin.
    destruct Hin as [d0 [E Hd0]]. apply Hs. rewrite <- E. now apply I3.
  - intros d0 Hd0. apply in_app_or in Hd0. destruct Hd0 as [Hd0|[<-|[]]].
    + destruct (I3 d0 Hd0) as [J1 [J2 [J3 J4]]]. repeat split; auto.
      eapply numbered_mono; [| | |exact J1]; simpl; assumption.
    + repeat split; auto.
Qed.

Lemma existsb_eqb_false (x : string) (l : list string) :
  existsb (String.eqb x) l = false -> ~ In x l.
Proof.
  intros H Hin. assert (E : existsb (String.eqb x) l = true).
  { apply existsb_exists. exists x. split; [exact Hin|apply String.eqb_refl]. }
  congruence.
Qed.

Lemma detect_entry_inv (p : Probe) (st : Detect) (e : PathEntry) :
  detect_inv st -> detect_inv (detect_entry p st e).
Proof.
  intros Hinv. unfold detect_entry. cbv zeta.
  destruct (contains "part" (entry_name e)); [exact Hinv|].
  destruct (negb (islink e)); [exact Hinv|].
  destruct (realpath e) as [real_path|]; [|exact Hinv].
  destruct (existsb (String.eqb (basename real_path)) (seen_devices st)) eqn:Hseen;
    [exact Hinv|].
  apply existsb_eqb_false in Hseen.
  assert (Hsub : forall x, In x (seen_devices st) ->
                           In x (basename real_path :: seen_devices st))
    by (intros x Hx; now right).
  destruct (contains "nvme" (entry_name e)).
  { destruct (get_disk_info p (basename real_path)) as [[[model serial] size]|].
    - apply (inv_add st (ata st) (S (nvme st)) (usb st)
               (DiskInfo.mk (String.append "NVMe" (str (S (nvme st)))) (basename real_path) real_path
                  (entry_name e) model serial size "NVMe" None false));
        auto; try lia.
      + left. exists (S (nvme st)). simpl. split; [reflexivity|lia].
      + simpl DiskInfo.id. intros [[n [E H]]|[[n [E H]]|[n [E H]]]].
        * simpl in E. injection E as E. apply str_inj in E. lia.
        * simpl in E. discriminate.
        * simpl in E. discriminate.
    - apply inv_grow; auto; lia. }
  destruct (contains "usb" (entry_name e)).
  { destruct (get_disk_info p (basename real_path)) as [[[model serial] size]|].
    - apply (inv_add st (ata st) (nvme st) (S (usb st))
               (DiskInfo.mk (String.append "USB" (str (S (usb st)))) (basename real_path) real_path
                  (entry_name e) model serial size "USB" None false));
        auto; try lia.
      + right. left. exists (S (usb st)). simpl. split; [reflexivity|lia].
      + simpl DiskInfo.id. intros [[n [E H]]|[[n [E H]]|[n [E H]]]].
        * simpl in E. discriminate.
        * simpl in E. injection E as E. apply str_inj in E. lia.
        * simpl in E. discriminate.
    - apply inv_grow; auto; lia. }
  destruct (contains "ata" (entry_name e)); [|apply inv_grow; auto; lia].
  destruct (match rotational p (basename real_path) with
            | Some (Got content) => Got (if String.eqb content "0" then "SSD" else "HDD")
            | Some Failed => Failed
            | None => Got "HDD"
            end) as [disk_type|]; [|apply inv_grow; auto; lia].
  destruct (get_disk_info p (basename real_path)) as [[[model serial] size]|].
  - apply (inv_add st (S (ata st)) (nvme st) (usb st)
             (DiskInfo.mk (String.append "Disk" (str (S (ata st)))) (basename real_path) real_path
                (entry_name e) model serial size disk_type None false));
      auto; try lia.
    + right. right. exists (S (ata st)). simpl. split; [reflexivity|lia].
    + simpl DiskInfo.id. intros [[n [E H]]|[[n [E H]]|[n [E H]]]].
      * simpl in E. discriminate.
      * simpl in E. discriminate.
      * simpl in E. injection E as E. apply str_inj in E. lia.
  - apply inv_grow; auto; lia.
Qed.

Lemma detect_fold_inv (p : Probe) (es : list PathEntry) :
  forall st, detect_inv st -> detect_inv (fold_left (detect_entry p) es st).
Proof.
  induction es as [|e es IH]; intros st H; [exact H|].
  simpl. apply IH. now apply detect_entry_inv.
Qed.

(** The sample listing: the partition entry is skipped, the disks are
    numbered per kind and the non-rotational disk is an SSD. *)
Lemma detect_all_disks_example :
  map (fun d => (DiskInfo.id d, DiskInfo.device d, DiskInfo.disk_type d))
    (detect_all_disks sample_probe) =
  [("Disk1", "sda", "HDD"); ("Disk2", "sdb", "SSD"); ("NVMe1", "nvme0n1", "NVMe")].
Proof. vm_compute. reflexivity. Qed.

End DetectFacts.


Module DetectProperties.

Import DetectFacts.

(** X18.  Whatever the operating system answers, the disks found by
    [detect_all_disks] carry distinct ids and distinct device names, are
    not active and have no temperature; [detect_disks] keeps the ids, so
    the controller it leaves has distinct disk ids. *)
Theorem detect_all_disks_distinct (p : Probe) (c : FanController) :
  NoDup (map DiskInfo.id (detect_all_disks p)) /\
  NoDup (map DiskInfo.device (detect_all_disks p)) /\
  (forall d, In d (detect_all_disks p) ->
     DiskInfo.active d = false /\ DiskInfo.temp d = None) /\
  NoDup (map DiskInfo.id (disks (detect_disks (detect_all_disks p) c))).
Proof.
  assert (H0 : detect_inv (mkDetect [] 0 0 0 [])).
  { unfold detect_inv. simpl. repeat split; try constructor; contradiction. }
  destruct (detect_fold_inv p (by_path p) _ H0) as [I1 [I2 I3]].
  fold (detect_all_disks p) in I1, I2, I3.
  split; [exact I1|]. split; [exact I2|]. split.
  - intros d Hd. destruct (I3 d Hd) as [_ [_ J]]. exact J.
  - unfold detect_disks. simpl. rewrite map_map. simpl. exact I1.
Qed.

End DetectProperties.


Module ConfigProperties.

Import DictFacts PyConfig ConfigFacts.

Lemma collect_spec (obj : dict value) (names : list string) :
  (forall k, In k names -> exists v, dict_get k obj = Some v) ->
  exists d, collect obj names = Ok d /\ dict_keys d = names /\
            (NoDup names -> forall k, In k names -> dict_get k d = dict_get k obj).
Proof.
  induction names as [|k names IH]; intros H.
  - exists []. simpl. repeat split; auto. intros _ k [].
  - destruct (H k) as [v Hv]; [now left|].
    destruct IH as [d [E [K G]]]; [intros k' Hk'; apply H; now right|].
    exists ((k, v) :: d). cbn [collect]. unfold getattr at 1. rewrite Hv. cbn [bind].
    rewrite E. cbn [bind]. split; [reflexivity|]. split; [simpl; now rewrite K|].
    intros Hnd k' Hk'. inversion Hnd as [|? ? Hn Hnd']. subst.
    simpl. destruct (String.eqb k' k) eqn:Ek.
    + apply String.eqb_eq in Ek. now subst.
    + apply G; [exact Hnd'|]. destruct Hk' as [->|Hk']; [|exact Hk'].
      now rewrite String.eqb_refl in Ek.
Qed.

Lemma fields_present (k : string) :
  In k field_names -> exists v, dict_get k default_instance = Some v.
Proof.
  intros H.
  assert (F : forallb (fun k => dict_mem k default_instance) field_names = true)
    by (vm_compute; reflexivity).
  rewrite forallb_forall in F. specialize (F k H). unfold dict_mem in F.
  destruct (dict_get k default_instance) as [v|]; [eauto|discriminate].
Qed.



End ConfigProperties.

Module LedFacts.

Import DictFacts ControllerFacts Led.

Lemma state_eqb_eq (a b : LedState) : state_eqb a b = true <-> a = b.
Proof.
  split; [|intros ->; unfold state_eqb; apply String.eqb_refl].
  destruct a, b; intros H; try reflexivity; vm_compute in H; discriminate.
Qed.

Lemma run_cmd_present (path : string) (cli : Command -> bool) (cmd : Command) :
  path <> "" -> _run_cmd (Some path) cli cmd = ([cmd], cli cmd).
Proof.
  intros H. unfold _run_cmd.
  replace (String.eqb path "") with false by (symmetry; now apply String.eqb_neq).
  reflexivity.
Qed.

Lemma run_cmd_length (ctl : LedController) (cli : Command -> bool) (cmd : Command) :
  (List.length (fst (_run_cmd ctl cli cmd)) <= 1)%nat.
Proof.
  unfold _run_cmd. destruct ctl as [p|]; [|simpl; lia].
  destruct (String.eqb p ""); simpl; lia.
Qed.

Lemma apply_state_length (cfg : LedConfig) (ctl : LedController) (cli : Command -> bool)
    (name : string) (st : LedState) :
  (List.length (fst (_apply_state cfg ctl cli name st)) <= 1)%nat.
Proof.
  destruct st; unfold _apply_state, turn_off, set_led, set_blink, set_breath; simpl;
    apply run_cmd_length.
Qed.

(** Assigning keeps the other keys and adds at most the key assigned. *)
Lemma dict_mem_set_other {V : Type} (k k' : string) (v : V) (d : dict V) :
  dict_mem k d = true -> dict_mem k (dict_set k' v d) = true.
Proof.
  unfold dict_mem. intros H. destruct (String.eqb k k') eqn:E.
  - apply String.eqb_eq in E. subst. now rewrite dict_get_set_eq.
  - apply String.eqb_neq in E. now rewrite dict_get_set_neq.
Qed.

Lemma fold_set_mem {V W : Type} (f : W -> V) (items : dict W) :
  forall (d : dict V) (k : string),
    dict_mem k d = true \/ In k (dict_keys items) ->
    dict_mem k (fold_left (fun acc item => dict_set (fst item) (f (snd item)) acc)
                  items d) = true.
Proof.
  induction items as [|[k0 w] items IH]; intros d k H; simpl.
  - destruct H as [H|[]]. exact H.
  - apply IH. destruct H as [H|[H|H]].
    + left. now apply dict_mem_set_other.
    + left. simpl in H. subst. unfold dict_mem. now rewrite dict_get_set_eq.
    + now right.
Qed.

Lemma disk_states_keys (cfg : LedConfig) (ds : dict DiskInfo) :
  forall id led, In (id, led) (disk_led_map cfg) ->
                 dict_mem led (disk_states_of cfg ds) = true.
Proof.
  unfold disk_states_of.
  assert (G : forall (items : dict string) (acc : dict LedState) (led : string),
             dict_mem led acc = true \/ In led (map snd items) ->
             dict_mem led
               (fold_left
                  (fun states item =>
                     let '(id, led_name) := item in
                     dict_set led_name
                       match dict_get id ds with
                       | Some disk => determine_disk_state disk
                       | None => RED_BLINK
                       end states) items acc) = true).
  { induction items as [|[i l] items IH]; intros acc led H; simpl.
    - destruct H as [H|[]]. exact H.
    - apply IH. destruct H as [H|[H|H]].
      + left. now apply dict_mem_set_other.
      + left. simpl in H. subst. unfold dict_mem. now rewrite dict_get_set_eq.
      + now right. }
  intros id led H. apply G. right.
  apply in_map_iff. exists (id, led). auto.
Qed.

End LedFacts.


Module LedProperties.

Import DictFacts ControllerFacts Led LedFacts.

(** X20.  The power LED after a network check.  The DNS server is only
    pinged through a gateway that answers, so the LED is red exactly
    when the gateway is down, blue exactly when both answer and yellow
    exactly when the gateway answers and the DNS server does not. *)
Theorem power_state_after_check (cfg : LedConfig) (ping : string -> bool) :
  let st := determine_power_state (check_network cfg ping) in
  (st = RED_BLINK <-> ping (internal_gateway cfg) = false) /\
  (st = BLUE_BREATH <->
   ping (internal_gateway cfg) = true /\ ping (external_dns cfg) = true) /\
  (st = YELLOW_BLINK_NORMAL <->
   ping (internal_gateway cfg) = true /\ ping (external_dns cfg) = false).
Proof.
  unfold determine_power_state, check_network. simpl.
  destruct (ping (internal_gateway cfg)); destruct (ping (external_dns cfg)); simpl;
    repeat split; intros; try discriminate; try tauto;
    match goal with H : _ /\ _ |- _ => destruct H; discriminate end.
Qed.

(** X21.  A busier disk blinks faster.  For two awake disks with a
    device, the busier one is driven with a blink period (on plus off
    time) that is not longer; both are yellow at the configured
    brightness. *)
Theorem busier_blinks_faster (cfg : LedConfig) (path : string) (cli : Command -> bool)
    (name : string) (d1 d2 : DiskInfo) :
  path <> "" -> device d1 <> "" -> device d2 <> "" ->
  is_sleeping d1 = false -> is_sleeping d2 = false ->
  0 < busy_percent d1 <= busy_percent d2 ->
  exists on1 off1 on2 off2,
    fst (_apply_state cfg (Some path) cli name (determine_disk_state d1)) =
      [CmdBlink name (255, 255, 0) (led_brightness cfg) on1 off1] /\
    fst (_apply_state cfg (Some path) cli name (determine_disk_state d2)) =
      [CmdBlink name (255, 255, 0) (led_brightness cfg) on2 off2] /\
    on2 + off2 <= on1 + off1.
Proof.
  intros Hp H1 H2 S1 S2 Hb.
  assert (Hpe : String.eqb path "" = false) by now apply String.eqb_neq.
  unfold determine_disk_state. rewrite S1, S2.
  replace (String.eqb (device d1) "") with false by (symmetry; now apply String.eqb_neq).
  replace (String.eqb (device d2) "") with false by (symmetry; now apply String.eqb_neq).
  cbv zeta.
  replace (busy_percent d1 =? 0) with false by (symmetry; apply Z.eqb_neq; lia).
  replace (busy_percent d2 =? 0) with false by (symmetry; apply Z.eqb_neq; lia).
  destruct (Z.leb_spec (busy_percent d1) 25); destruct (Z.leb_spec (busy_percent d2) 25);
    try lia;
    destruct (Z.leb_spec (busy_percent d1) 50); destruct (Z.leb_spec (busy_percent d2) 50);
    try lia;
    destruct (Z.leb_spec (busy_percent d1) 75); destruct (Z.leb_spec (busy_percent d2) 75);
    try lia;
    unfold _apply_state, set_blink, _run_cmd; rewrite Hpe; simpl;
    do 4 eexists; (split; [reflexivity|split; [reflexivity|lia]]).
Qed.

Lemma busier_blinks_faster_witness :
  ("/usr/bin/ugreen_leds_cli" <> "" /\
   device (mkDisk "Disk1" "sda" false 10) <> "" /\
   device (mkDisk "Disk2" "sdb" false 80) <> "" /\
   is_sleeping (mkDisk "Disk1" "sda" false 10) = false /\
   is_sleeping (mkDisk "Disk2" "sdb" false 80) = false /\
   0 < busy_percent (mkDisk "Disk1" "sda" false 10)
     <= busy_percent (mkDisk "Disk2" "sdb" false 80)) /\
  exists on1 off1 on2 off2,
    fst (_apply_state default_config (Some "/usr/bin/ugreen_leds_cli") (fun _ => true)
           "disk1" (determine_disk_state (mkDisk "Disk1" "sda" false 10))) =
      [CmdBlink "disk1" (255, 255, 0) (led_brightness default_config) on1 off1] /\
    fst (_apply_state default_config (Some "/usr/bin/ugreen_leds_cli") (fun _ => true)
           "disk1" (determine_disk_state (mkDisk "Disk2" "sdb" false 80))) =
      [CmdBlink "disk1" (255, 255, 0) (led_brightness default_config) on2 off2] /\
    on2 + off2 <= on1 + off1.
Proof.
  assert (H1 : "/usr/bin/ugreen_leds_cli" <> "") by discriminate.
  assert (H2 : device (mkDisk "Disk1" "sda" false 10) <> "") by discriminate.
  assert (H3 : device (mkDisk "Disk2" "sdb" false 80) <> "") by discriminate.
  assert (H4 : 0 < busy_percent (mkDisk "Disk1" "sda" false 10)
               <= busy_percent (mkDisk "Disk2" "sdb" false 80)) by (simpl; lia).
  split; [auto 10|].
  exact (busier_blinks_faster default_config "/usr/bin/ugreen_leds_cli" (fun _ => true)
           "disk1" (mkDisk "Disk1" "sda" false 10) (mkDisk "Disk2" "sdb" false 80)
           H1 H2 H3 eq_refl eq_refl H4).
Defined.

(** X22.  [set_state] remembers what it applied.  A call runs at most
    one command and touches no other LED's entry; once a call has
    succeeded, asking for the same state again runs nothing and
    succeeds, whatever the program would answer; a call that fails
    leaves the remembered states as they were, so the state is applied
    again the next time. *)
Theorem set_state_remembers (cfg : LedConfig) (ctl : LedController)
    (cli1 cli2 : Command -> bool) (states : dict LedState) (name : string)
    (st : LedState) :
  let r1 := set_state cfg ctl cli1 states name st in
  let r2 := set_state cfg ctl cli2 (fst (fst r1)) name st in
  (List.length (snd (fst r1)) <= 1)%nat /\
  (forall other, other <> name ->
                 dict_get other (fst (fst r1)) = dict_get other states) /\
  (snd r1 = true ->
   dict_get name (fst (fst r1)) = Some st /\ r2 = (fst (fst r1), [], true)) /\
  (snd r1 = false ->
   fst (fst r1) = states /\ dict_get name states <> Some st /\
   snd (fst r1) = fst (_apply_state cfg ctl cli1 name st)).
Proof.
  intros r1 r2. unfold r2, r1. clear r1 r2. unfold set_state. cbv zeta.
  destruct (match dict_get name states with
            | Some current => state_eqb current st
            | None => false
            end) eqn:U.
  - destruct (dict_get name states) as [cur|] eqn:G; [|discriminate].
    apply state_eqb_eq in U. subst cur. simpl. rewrite G.
    replace (state_eqb st st) with true by (symmetry; now apply state_eqb_eq).
    repeat split; auto; discriminate.
  - pose proof (apply_state_length cfg ctl cli1 name st) as L.
    destruct (_apply_state cfg ctl cli1 name st) as [cmds ok] eqn:A.
    destruct ok; simpl in *.
    + rewrite dict_get_set_eq.
      replace (state_eqb st st) with true by (symmetry; now apply state_eqb_eq).
      repeat split; auto; try discriminate.
      intros other Ho. now apply dict_get_set_neq.
    + repeat split; auto; try discriminate.
      intros E. rewrite E in U.
      assert (state_eqb st st = true) by now apply state_eqb_eq. congruence.
Qed.

(** X23.  Switching the LEDs off forgets the remembered states and
    turns every LED off with one command; after switching them on
    again, the next [set_state] of any LED applies its state anew, also
    a state that had been remembered before. *)
Theorem toggle_forgets_states (cli0 cli1 cli2 : Command -> bool) (svc : MonitorService)
    (name : string) (st : LedState) :
  let off := toggle_leds cli0 svc false in
  let on := toggle_leds cli1 (fst off) true in
  let svc2 := fst on in
  snd off = fst (_run_cmd (controller svc) cli0 (CmdOff "all")) /\
  snd on = [] /\
  led_enabled (config (fst off)) = false /\ led_enabled (config svc2) = true /\
  _current_states svc2 = [] /\ controller svc2 = controller svc /\
  snd (fst (set_state (config svc2) (controller svc2) cli2 (_current_states svc2) name st))
    = fst (_apply_state (config svc2) (controller svc2) cli2 name st).
Proof.
  intros off on svc2. unfold svc2, on, off, toggle_leds. simpl.
  repeat split. unfold set_state. simpl.
  destruct (_apply_state _ _ cli2 name st) as [cmds ok]. now destruct ok.
Qed.

(** X24.  With the LEDs disabled, a turn of the main loop runs no
    command and leaves the remembered states alone, while the simulated
    states are still renewed: they hold the power LED and every LED of
    the disk map. *)
Theorem disabled_leds_run_nothing (s : Sensors) (cli : Command -> bool)
    (svc : MonitorService) :
  led_enabled (config svc) = false ->
  let res := _update_leds s cli svc in
  let svc' := fst (fst res) in
  snd (fst res) = [] /\ _current_states svc' = _current_states svc /\
  config svc' = config svc /\
  dict_mem "power" (_simulated_states svc') = true /\
  forall id led, In (id, led) (disk_led_map (config svc)) ->
                 dict_mem led (_simulated_states svc') = true.
Proof.
  intros He res svc'. unfold svc', res, _update_leds. cbv zeta. rewrite He.
  destruct (check_sleep_change _ _ _ _) as [n1 p1].
  destruct (check_offline_change _ _ _ _) as [n2 p2]. simpl.
  repeat split.
  - apply (fold_set_mem value). now left.
  - intros id led H. apply (fold_set_mem value). right.
    pose proof (disk_states_keys (config svc)
                  (update_all_status (config svc) s (disks svc)) id led H) as M.
    unfold dict_mem in M.
    destruct (dict_get led (disk_states_of (config svc)
                              (update_all_status (config svc) s (disks svc)))) eqn:G;
      [|discriminate].
    apply AlertFacts.dict_get_in in G. apply in_map_iff. exists (led, l). auto.
Qed.

Lemma disabled_leds_run_nothing_witness :
  led_enabled (config (new_service (with_led_enabled default_config false)
                         (Some "/usr/bin/ugreen_leds_cli"))) = false /\
  snd (fst (_update_leds
              (mkSensors (mkNetwork true true) None (fun _ => false) [] 0 9)
              (fun _ => true)
              (new_service (with_led_enabled default_config false)
                 (Some "/usr/bin/ugreen_leds_cli")))) = [].
Proof.
  split; [reflexivity|].
  exact (proj1 (disabled_leds_run_nothing
                  (mkSensors (mkNetwork true true) None (fun _ => false) [] 0 9)
                  (fun _ => true)
                  (new_service (with_led_enabled default_config false)
                     (Some "/usr/bin/ugreen_leds_cli")) eq_refl)).
Defined.

(** X25.  [blink_all] tries every one of the six LEDs, in order, also
    after a failure, and succeeds exactly when every command did. *)
Theorem blink_all_tries_every_led (cfg : LedConfig) (path : string)
    (cli : Command -> bool) (color : string) (speed : string) :
  path <> "" ->
  let cmds := fst (blink_all cfg (Some path) cli color None speed) in
  map (fun c => match c with
                | CmdBlink name _ b _ _ => (name, b)
                | _ => ("", 0)
                end) cmds =
    map (fun led => (led, led_brightness_startup cfg))
      ["power"; "netdev"; "disk1"; "disk2"; "disk3"; "disk4"] /\
  snd (blink_all cfg (Some path) cli color None speed) = forallb cli cmds.
Proof.
  intros Hp cmds. unfold cmds, blink_all. cbv zeta.
  assert (Hpe : String.eqb path "" = false) by now apply String.eqb_neq.
  cbn [blink_each]. unfold set_blink, _run_cmd.
  destruct (dict_get_default speed BLINK_SPEEDS (274, 271)) as [on_ms off_ms].
  rewrite Hpe. simpl.
  split; [reflexivity|].
  repeat match goal with |- context [cli ?c] => destruct (cli c) end; reflexivity.
Qed.

Lemma blink_all_tries_every_led_witness :
  "/usr/bin/ugreen_leds_cli" <> "" /\
  snd (blink_all default_config (Some "/usr/bin/ugreen_leds_cli")
         (fun c => match c with CmdBlink "disk2" _ _ _ _ => false | _ => true end)
         "white" None "fast") = false /\
  List.length (fst (blink_all default_config (Some "/usr/bin/ugreen_leds_cli")
                      (fun c => match c with CmdBlink "disk2" _ _ _ _ => false | _ => true end)
                      "white" None "fast")) = 6%nat.
Proof.
  assert (H : "/usr/bin/ugreen_leds_cli" <> "") by discriminate.
  split; [exact H|].
  pose proof (blink_all_tries_every_led default_config "/usr/bin/ugreen_leds_cli"
                (fun c => match c with CmdBlink "disk2" _ _ _ _ => false | _ => true end)
                "white" "fast" H) as [_ R].
  split; [rewrite R; reflexivity|reflexivity].
Defined.

End LedProperties.

Module NotifierFacts.

Import DictFacts ControllerFacts Led LedFacts.

Lemma in_dict_set {V : Type} (k k' : string) (v v' : V) (d : dict V) :
  In (k, v) (dict_set k' v' d) -> (k = k' /\ v = v') \/ In (k, v) d.
Proof.
  induction d as [|[k0 v0] d IH]; simpl.
  - intros [H|[]]. injection H as <- <-. now left.
  - destruct (String.eqb k' k0) eqn:E; simpl.
    + intros [H|H]; [injection H as <- <-; now left|right; now right].
    + intros [H|H]; [right; now left|].
      destruct (IH H) as [G|G]; [now left|right; now right].
Qed.

Lemma dict_set_same {V : Type} (k : string) (v : V) (d : dict V) :
  dict_get k d = Some v -> dict_set k v d = d.
Proof.
  induction d as [|[k0 v0] d IH]; simpl; [discriminate|].
  destruct (String.eqb k k0) eqn:E.
  - intros H. injection H as ->. apply String.eqb_eq in E. now subst.
  - intros H. now rewrite IH.
Qed.

(** The device names [find_disks] returns are those the entries resolve to. *)
Lemma find_disks_devices (cfg : LedConfig) (listing : option (list (string * os string))) :
  (forall entries name dev,
     listing = Some entries -> In (name, Got dev) entries -> dev <> "") ->
  forall id dev, In (id, dev) (find_disks cfg listing) -> dev <> "".
Proof.
  intros H. unfold find_disks. destruct listing as [entries|]; [|intros id dev []].
  assert (G : forall (items : dict string) (acc : dict string),
             (forall id dev, In (id, dev) acc -> dev <> "") ->
             forall id dev,
               In (id, dev)
                 (fold_left
                    (fun result item =>
                       let '(id, pci_pattern) := item in
                       match find (fun e => contains pci_pattern (fst e)
                                            && negb (contains "part" (fst e))) entries with
                       | Some (_, Got dev) => dict_set id dev result
                       | _ => result
                       end) items acc) -> dev <> "").
  { induction items as [|[i pat] items IH]; intros acc Hacc id dev; simpl; [apply Hacc|].
    apply IH. intros id' dev' Hin.
    destruct (find _ entries) as [[name [d|]]|] eqn:F; try (now apply (Hacc id' dev')).
    apply in_dict_set in Hin. destruct Hin as [[_ ->]|Hin]; [|now apply (Hacc id' dev')].
    apply find_some in F. destruct F as [F _]. now apply (H entries name d). }
  apply G. intros id dev [].
Qed.

Lemma present_set (ds : dict DiskInfo) (id k : string) (info : DiskInfo) :
  device info <> "" -> present ds id <> None -> present (dict_set k info ds) id <> None.
Proof.
  intros Hd Hp. unfold present in *. destruct (String.eqb id k) eqn:E.
  - apply String.eqb_eq in E. subst. rewrite dict_get_set_eq.
    replace (String.eqb (device info) "") with false
      by (symmetry; now apply String.eqb_neq).
    discriminate.
  - apply String.eqb_neq in E. now rewrite dict_get_set_neq.
Qed.

(** [update_disk_map] never takes a device name away. *)
Lemma update_disk_map_present (disk_map : dict string) :
  (forall id dev, In (id, dev) disk_map -> dev <> "") ->
  forall (ds : dict DiskInfo) (id : string),
    present ds id <> None -> present (update_disk_map disk_map ds) id <> None.
Proof.
  unfold update_disk_map.
  induction disk_map as [|[k dev] items IH]; intros H ds id Hp; simpl; [exact Hp|].
  apply IH; [intros i d Hin; apply (H i d); now right|].
  apply present_set; [|exact Hp]. simpl. apply (H k dev). now left.
Qed.

Lemma present_map (f : string * DiskInfo -> string * DiskInfo) (ds : dict DiskInfo)
    (id : string) :
  (forall k info, fst (f (k, info)) = k /\ device (snd (f (k, info))) = device info) ->
  present ds id <> None -> present (map f ds) id <> None.
Proof.
  intros Hf. unfold present.
  induction ds as [|[k info] ds IH]; simpl; [auto|].
  destruct (Hf k info) as [F1 F2]. destruct (f (k, info)) as [k' info'] eqn:E.
  simpl in F1, F2. subst k'.
  destruct (String.eqb id k); [|exact IH].
  rewrite F2. destruct (String.eqb (device info) ""); [auto|discriminate].
Qed.

Lemma update_all_status_present (cfg : LedConfig) (s : Sensors) (ds : dict DiskInfo)
    (id : string) :
  (forall entries name dev,
     by_path s = Some entries -> In (name, Got dev) entries -> dev <> "") ->
  present ds id <> None -> present (update_all_status cfg s ds) id <> None.
Proof.
  intros H Hp. unfold update_all_status. apply present_map.
  - intros k info. destruct (String.eqb (device info) ""); [auto|].
    destruct (check_sleep_status (hdparm s) (device info)); auto.
  - apply update_disk_map_present; [|exact Hp].
    now apply find_disks_devices.
Qed.

(** The ids [offline_scan] adds to its two lists have no device. *)
Lemma offline_scan_lists (ds : dict DiskInfo) (ids : list string) :
  forall health off new,
    let r := offline_scan ds ids health off new in
    (forall x, In x (snd (fst r)) -> In x off \/ (In x ids /\ present ds x = None)) /\
    (forall x, In x (snd r) -> In x new \/ (In x ids /\ present ds x = None)).
Proof.
  induction ids as [|i ids IH]; intros health off new; simpl; [tauto|].
  destruct (present ds i) eqn:P.
  - destruct (IH (dict_set i true health) off new) as [A B].
    split; intros x Hx; [destruct (A x Hx)|destruct (B x Hx)]; tauto.
  - destruct (IH (dict_set i false health) (off ++ [i])
                (if dict_get_default i health true then new ++ [i] else new)) as [A B].
    split; intros x Hx.
    + destruct (A x Hx) as [H|H]; [|tauto].
      apply in_app_or in H. destruct H as [H|[<-|[]]]; [tauto|]. right. tauto.
    + destruct (B x Hx) as [H|H]; [|tauto].
      destruct (dict_get_default i health true); [|tauto].
      apply in_app_or in H. destruct H as [H|[<-|[]]]; [tauto|]. right. tauto.
Qed.

Lemma check_sleep_change_pushes (cfg : LedConfig) (now : Float64.float)
    (ds : dict DiskInfo) (n : PushNotifier) :
  snd (check_sleep_change cfg now ds n) = [] \/
  (snd (check_sleep_change cfg now ds n) = [StatusChange (push_hostname cfg) (status_icons ds)] /\
   (exists data, _pending_change_data n = Some data) /\
   Float64.sub_ge_int now (_pending_change_time n) (push_confirm_delay cfg) = true /\
   _pending_change_data (fst (check_sleep_change cfg now ds n)) = None /\
   _last_sleep_states (fst (check_sleep_change cfg now ds n)) =
     fst (sleep_scan ds (_last_sleep_states n) push_disk_ids [] [])).
Proof.
  unfold check_sleep_change.
  destruct (sleep_scan ds (_last_sleep_states n) push_disk_ids [] []) as [cur changed].
  destruct changed as [|c changed]; [now left|].
  destruct (_pending_change_data n) as [data|]; [|now left].
  destruct (Float64.sub_ge_int now (_pending_change_time n) (push_confirm_delay cfg));
    simpl; [right|now left].
  repeat split; eauto.
Qed.

Lemma check_offline_change_pushes (cfg : LedConfig) (hour : Z) (ds : dict DiskInfo)
    (n : PushNotifier) :
  forall m, In m (snd (check_offline_change cfg hour ds n)) ->
    exists ids, m = DisksOffline (push_hostname cfg) ids /\
                forall x, In x ids -> In x push_disk_ids /\ present ds x = None.
Proof.
  unfold check_offline_change.
  pose proof (offline_scan_lists ds push_disk_ids (_last_health_states n) [] []) as L.
  cbv zeta in L.
  destruct (offline_scan ds push_disk_ids (_last_health_states n) [] [])
    as [[health off] new]. simpl in L. destruct L as [A B].
  assert (A' : forall x, In x off -> In x push_disk_ids /\ present ds x = None).
  { intros x Hx. destruct (A x Hx) as [[]|H]; exact H. }
  assert (B' : forall x, In x new -> In x push_disk_ids /\ present ds x = None).
  { intros x Hx. destruct (B x Hx) as [[]|H]; exact H. }
  destruct new as [|x new].
  - cbn [_last_push_hour].
    destruct (existsb (Z.eqb hour) (push_scheduled_hours cfg)
              && negb (_last_push_hour n =? hour)); [|intros m []].
    destruct off as [|y off]; [intros m []|].
    intros m [<-|[]]. eauto.
  - intros m [<-|[]]. eauto.
Qed.

Lemma offline_scan_health (ds : dict DiskInfo) (ids : list string) :
  NoDup ids ->
  forall health off new,
    let h := fst (fst (offline_scan ds ids health off new)) in
    (forall id, In id ids ->
       dict_get id h = Some (match present ds id with Some _ => true | None => false end)) /\
    (forall id, ~ In id ids -> dict_get id h = dict_get id health).
Proof.
  induction 1 as [|i ids Hi Hnd IH]; intros health off new; simpl; [tauto|].
  destruct (present ds i) eqn:P.
  - destruct (IH (dict_set i true health) off new) as [A B]. split.
    + intros id [<-|Hin]; [|now apply A].
      rewrite B by exact Hi. rewrite dict_get_set_eq, P. reflexivity.
    + intros id Hn. rewrite B by tauto. apply dict_get_set_neq. intros ->. tauto.
  - destruct (IH (dict_set i false health) (off ++ [i])
                (if dict_get_default i health true then new ++ [i] else new)) as [A B].
    split.
    + intros id [<-|Hin]; [|now apply A].
      rewrite B by exact Hi. rewrite dict_get_set_eq, P. reflexivity.
    + intros id Hn. rewrite B by tauto. apply dict_get_set_neq. intros ->. tauto.
Qed.

Lemma offline_scan_settled (ds : dict DiskInfo) (ids : list string) :
  forall health off new,
    (forall id, In id ids ->
       dict_get id health = Some (match present ds id with Some _ => true | None => false end)) ->
    fst (fst (offline_scan ds ids health off new)) = health /\
    snd (offline_scan ds ids health off new) = new.
Proof.
  induction ids as [|i ids IH]; intros health off new H; simpl; [auto|].
  pose proof (H i (or_introl eq_refl)) as Hi.
  destruct (present ds i) eqn:P.
  - rewrite (dict_set_same _ _ _ Hi).
    apply IH. intros id Hin. apply H. now right.
  - rewrite (dict_set_same _ _ _ Hi).
    unfold dict_get_default. rewrite Hi.
    apply IH. intros id Hin. apply H. now right.
Qed.

Lemma push_disk_ids_nodup : NoDup push_disk_ids.
Proof. unfold push_disk_ids. repeat constructor; simpl; intuition discriminate. Qed.

Lemma sleep_scan_fresh (ds : dict DiskInfo) (ids : list string) :
  forall cur changed, snd (sleep_scan ds [] ids cur changed) = changed.
Proof.
  induction ids as [|i ids IH]; intros cur changed; simpl; [reflexivity|].
  destruct (present ds i); apply IH.
Qed.

End NotifierFacts.


Module NotifierProperties.

Import DictFacts ControllerFacts Led LedFacts NotifierFacts.

(** X26.  A disk once detected is never reported lost.  The disk map
    only ever assigns device names, so a disk that has a device keeps
    one through every turn of the main loop, also when its entry has
    gone from the directory or the directory itself is missing; no
    offline message of the turn lists it. *)
Theorem detected_disk_stays_online (s : Sensors) (cli : Command -> bool)
    (svc : MonitorService) (id : string) :
  present (disks svc) id <> None ->
  (forall entries name dev,
     by_path s = Some entries -> In (name, Got dev) entries -> dev <> "") ->
  let res := _update_leds s cli svc in
  present (disks (fst (fst res))) id <> None /\
  forall host ids, In (DisksOffline host ids) (snd res) -> ~ In id ids.
Proof.
  intros Hp Hdev res.
  pose proof (update_all_status_present (config svc) s (disks svc) id Hdev Hp) as Hp'.
  unfold res, _update_leds. cbv zeta.
  set (ds := update_all_status (config svc) s (disks svc)) in *.
  destruct (if led_enabled (config svc) then _ else _) as [cur cmds].
  pose proof (check_sleep_change_pushes (config svc) (time_time s) ds (push_notifier svc))
    as Hs.
  destruct (check_sleep_change (config svc) (time_time s) ds (push_notifier svc))
    as [n1 p1].
  pose proof (check_offline_change_pushes (config svc) (tm_hour s) ds n1) as Ho.
  destruct (check_offline_change (config svc) (tm_hour s) ds n1) as [n2 p2].
  simpl in *. split; [exact Hp'|].
  intros host ids Hin Hid. apply in_app_or in Hin. destruct Hin as [Hin|Hin].
  - destruct Hs as [->|[-> _]]; [contradiction|].
    destruct Hin as [Hin|[]]. discriminate.
  - destruct (Ho _ Hin) as [ids' [E G]]. injection E as _ <-.
    destruct (G id Hid) as [_ N]. contradiction.
Qed.

Lemma detected_disk_stays_online_witness :
  (present [("Disk1", mkDisk "Disk1" "sda" false 0)] "Disk1" <> None /\
   forall entries name dev,
     @None (list (string * os string)) = Some entries ->
     In (name, Got dev) entries -> dev <> "") /\
  present
    (disks (fst (fst (_update_leds
                        (mkSensors (mkNetwork true true) None (fun _ => false) [] 0 9)
                        (fun _ => true)
                        (mkService default_config None
                           [("Disk1", mkDisk "Disk1" "sda" false 0)] [] [] new_notifier)))))
    "Disk1" <> None.
Proof.
  assert (H1 : present [("Disk1", mkDisk "Disk1" "sda" false 0)] "Disk1" <> None)
    by discriminate.
  assert (H2 : forall entries name dev,
             @None (list (string * os string)) = Some entries ->
             In (name, Got dev) entries -> dev <> "") by discriminate.
  split; [auto|].
  exact (proj1 (detected_disk_stays_online
                  (mkSensors (mkNetwork true true) None (fun _ => false) [] 0 9)
                  (fun _ => true)
                  (mkService default_config None
                     [("Disk1", mkDisk "Disk1" "sda" false 0)] [] [] new_notifier)
                  "Disk1" H1 H2)).
Defined.

(** X27.  The offline check over disks that do not change.  Every call
    pushes at most one message, and only ids among Disk1 to Disk4 that
    have no device.  The first call settles the remembered health
    states; from then on no disk is newly offline, so a call pushes
    nothing unless its hour is a scheduled one not yet served, and the
    call after such a summary, in the same hour, pushes nothing. *)
Theorem offline_check_settles (cfg : LedConfig) (h1 h2 : Z) (ds : dict DiskInfo)
    (n : PushNotifier) :
  let r1 := check_offline_change cfg h1 ds n in
  let r2 := check_offline_change cfg h2 ds (fst r1) in
  let r3 := check_offline_change cfg h2 ds (fst r2) in
  ((List.length (snd r1) <= 1)%nat /\ (List.length (snd r2) <= 1)%nat) /\
  (forall m, In m (snd r1 ++ snd r2) ->
     exists ids, m = DisksOffline (push_hostname cfg) ids /\
                 forall x, In x ids -> In x push_disk_ids /\ present ds x = None) /\
  (snd r2 <> [] ->
   existsb (Z.eqb h2) (push_scheduled_hours cfg) = true /\
   _last_push_hour (fst r1) <> h2 /\ _last_push_hour (fst r2) = h2) /\
  snd r3 = [].
Proof.
  intros r1 r2 r3.
  assert (Hlen : forall h n0, (List.length (snd (check_offline_change cfg h ds n0)) <= 1)%nat).
  { intros h n0. unfold check_offline_change.
    destruct (offline_scan ds push_disk_ids (_last_health_states n0) [] [])
      as [[health off] new].
    destruct new; [|simpl; lia]. cbn [_last_push_hour].
    destruct (existsb (Z.eqb h) (push_scheduled_hours cfg)
              && negb (_last_push_hour n0 =? h)); [|simpl; lia].
    destruct off; simpl; lia. }
  assert (Hset : forall h n0,
             settled ds (_last_health_states (fst (check_offline_change cfg h ds n0)))).
  { intros h n0 id Hid. unfold check_offline_change.
    pose proof (offline_scan_health ds push_disk_ids push_disk_ids_nodup
                  (_last_health_states n0) [] []) as [A _].
    destruct (offline_scan ds push_disk_ids (_last_health_states n0) [] [])
      as [[health off] new]. simpl in A.
    destruct new; [|simpl; now apply A]. cbn [_last_push_hour].
    destruct (existsb (Z.eqb h) (push_scheduled_hours cfg)
              && negb (_last_push_hour n0 =? h)); simpl; now apply A. }
  assert (Hstable : forall h n0,
             settled ds (_last_health_states n0) ->
             (snd (check_offline_change cfg h ds n0) <> [] ->
              existsb (Z.eqb h) (push_scheduled_hours cfg) = true /\
              _last_push_hour n0 <> h /\
              _last_push_hour (fst (check_offline_change cfg h ds n0)) = h) /\
             (_last_push_hour n0 = h -> snd (check_offline_change cfg h ds n0) = []) /\
             (existsb (Z.eqb h) (push_scheduled_hours cfg) = true ->
              _last_push_hour (fst (check_offline_change cfg h ds n0)) = h)).
  { intros h n0 Hs. unfold check_offline_change.
    destruct (offline_scan_settled ds push_disk_ids (_last_health_states n0) [] [] Hs)
      as [E1 E2].
    destruct (offline_scan ds push_disk_ids (_last_health_states n0) [] [])
      as [[health off] new]. simpl in E1, E2. subst. cbn [_last_push_hour].
    destruct (existsb (Z.eqb h) (push_scheduled_hours cfg)) eqn:Sch; simpl.
    - destruct (_last_push_hour n0 =? h) eqn:L; simpl.
      + apply Z.eqb_eq in L.
        split; [intros N; now contradiction N|]. split; [reflexivity|auto].
      + apply Z.eqb_neq in L. split; [auto|]. split; [intros; contradiction|auto].
    - split; [intros N; now contradiction N|]. split; [reflexivity|discriminate]. }
  split; [split; apply Hlen|]. split.
  - intros m Hin. apply in_app_or in Hin.
    destruct Hin as [Hin|Hin]; eapply check_offline_change_pushes; exact Hin.
  - pose proof (Hset h1 n) as S1. fold r1 in S1.
    destruct (Hstable h2 (fst r1) S1) as [A [_ D]]. fold r2 in A, D.
    split; [exact A|].
    pose proof (Hset h2 (fst r1)) as S2. fold r2 in S2.
    destruct (Hstable h2 (fst r2) S2) as [B [C _]]. fold r3 in B, C.
    destruct (existsb (Z.eqb h2) (push_scheduled_hours cfg)) eqn:Sch.
    + apply C. now apply D.
    + destruct (snd r3) as [|m3 l3] eqn:E3; [reflexivity|].
      destruct B as [B1 _]; [discriminate|discriminate].
Qed.

(** X28.  The sleep announcement is held back.  A call pushes at most
    one message; with nothing pending it pushes none, so the turn that
    first sees a change only records it; a message is pushed only when
    the pending change is at least [push_confirm_delay] old, and then
    the pending change is cleared and the states seen are remembered.
    With no state remembered, as at start-up, nothing is pushed. *)
Theorem sleep_change_is_confirmed (cfg : LedConfig) (now : Float64.float)
    (ds : dict DiskInfo) (n : PushNotifier) :
  let r := check_sleep_change cfg now ds n in
  (List.length (snd r) <= 1)%nat /\
  (_pending_change_data n = None -> snd r = []) /\
  (_last_sleep_states n = [] -> snd r = []) /\
  (snd r <> [] ->
   snd r = [StatusChange (push_hostname cfg) (status_icons ds)] /\
   Float64.sub_ge_int now (_pending_change_time n) (push_confirm_delay cfg) = true /\
   _pending_change_data (fst r) = None /\
   _last_sleep_states (fst r) =
     fst (sleep_scan ds (_last_sleep_states n) push_disk_ids [] [])).
Proof.
  intros r.
  pose proof (check_sleep_change_pushes cfg now ds n) as H. fold r in H.
  split; [|split; [|split]].
  - destruct H as [->|[-> _]]; simpl; lia.
  - intros Hp. destruct H as [H|[_ [[data Hd] _]]]; [exact H|congruence].
  - intros Hl. unfold r, check_sleep_change. rewrite Hl.
    pose proof (sleep_scan_fresh ds push_disk_ids [] []) as F.
    destruct (sleep_scan ds [] push_disk_ids [] []) as [cur changed].
    simpl in F. subst. reflexivity.
  - intros Hn. destruct H as [H|[H1 [_ [H3 [H4 H5]]]]]; [contradiction|]. auto.
Qed.

End NotifierProperties.


Module DisplayFacts.

Import DictFacts ControllerFacts Led LedFacts.

Lemma dict_get_app {V : Type} (k : string) (a b : dict V) :
  dict_get k (a ++ b) = match dict_get k a with
                        | Some v => Some v
                        | None => dict_get k b
                        end.
Proof.
  induction a as [|[k0 v0] a IH]; simpl; [reflexivity|].
  destruct (String.eqb k k0); [reflexivity|exact IH].
Qed.

(** After a fold of assignments the last one made to a key holds. *)
Lemma fold_set_get {V W : Type} (f : W -> V) (items : dict W) :
  forall (d : dict V) (k : string),
    dict_get k (fold_left (fun acc item => dict_set (fst item) (f (snd item)) acc)
                  items d) =
    match dict_get k (rev items) with
    | Some w => Some (f w)
    | None => dict_get k d
    end.
Proof.
  induction items as [|[k0 w0] items IH]; intros d k; simpl; [reflexivity|].
  rewrite IH, dict_get_app. destruct (dict_get k (rev items)); [reflexivity|].
  simpl. destruct (String.eqb k k0) eqn:E.
  - apply String.eqb_eq in E. subst. now rewrite dict_get_set_eq.
  - apply String.eqb_neq in E. now rewrite dict_get_set_neq.
Qed.

Lemma apply_state_ok (cfg : LedConfig) (path : string) (cli : Command -> bool)
    (name : string) (st : LedState) :
  path <> "" -> (forall c, cli c = true) ->
  snd (_apply_state cfg (Some path) cli name st) = true.
Proof.
  intros Hp Hc.
  assert (Hpe : String.eqb path "" = false) by now apply String.eqb_neq.
  destruct st; unfold _apply_state, turn_off, set_led, set_blink, set_breath, _run_cmd;
    rewrite Hpe; simpl; apply Hc.
Qed.

Lemma set_state_ok (cfg : LedConfig) (path : string) (cli : Command -> bool)
    (cur : dict LedState) (name : string) (st : LedState) :
  path <> "" -> (forall c, cli c = true) ->
  forall k, dict_get k (fst (fst (set_state cfg (Some path) cli cur name st))) =
            if String.eqb k name then Some st else dict_get k cur.
Proof.
  intros Hp Hc k. unfold set_state. cbv zeta.
  destruct (match dict_get name cur with
            | Some current => state_eqb current st
            | None => false
            end) eqn:U.
  - simpl. destruct (String.eqb k name) eqn:E; [|reflexivity].
    apply String.eqb_eq in E. subst k.
    destruct (dict_get name cur) as [c|]; [|discriminate].
    apply state_eqb_eq in U. now subst.
  - pose proof (apply_state_ok cfg path cli name st Hp Hc) as A.
    destruct (_apply_state cfg (Some path) cli name st) as [cmds ok].
    simpl in A. subst ok. simpl.
    destruct (String.eqb k name) eqn:E.
    + apply String.eqb_eq in E. subst. apply dict_get_set_eq.
    + apply String.eqb_neq in E. now apply dict_get_set_neq.
Qed.

Lemma set_states_ok (cfg : LedConfig) (path : string) (cli : Command -> bool)
    (todo : dict LedState) :
  path <> "" -> (forall c, cli c = true) ->
  forall (cur : dict LedState) (k : string),
    dict_get k (fst (set_states cfg (Some path) cli cur todo)) =
    match dict_get k (rev todo) with
    | Some st => Some st
    | None => dict_get k cur
    end.
Proof.
  intros Hp Hc. induction todo as [|[name st] todo IH]; intros cur k; [reflexivity|].
  cbn [set_states].
  pose proof (set_state_ok cfg path cli cur name st Hp Hc) as S.
  destruct (set_state cfg (Some path) cli cur name st) as [[cur1 c1] ok]. simpl in S.
  specialize (IH cur1 k).
  destruct (set_states cfg (Some path) cli cur1 todo) as [cur2 c2]. simpl in IH |- *.
  rewrite IH, dict_get_app. destruct (dict_get k (rev todo)); [reflexivity|].
  simpl. rewrite S. destruct (String.eqb k name); reflexivity.
Qed.

End DisplayFacts.


Module DisplayProperties.

Import DictFacts ControllerFacts Led LedFacts DisplayFacts.

(** X29.  The simulated display agrees with the LEDs.  With the LEDs
    enabled, the program found and every command succeeding, after a
    turn of the main loop every LED shown in the simulated states is
    remembered in the very state shown. *)
Theorem display_agrees_with_leds (s : Sensors) (cli : Command -> bool)
    (svc : MonitorService) (path : string) :
  led_enabled (config svc) = true -> controller svc = Some path -> path <> "" ->
  (forall c, cli c = true) ->
  let svc' := fst (fst (_update_leds s cli svc)) in
  forall led shown,
    dict_get led (_simulated_states svc') = Some shown ->
    exists st, dict_get led (_current_states svc') = Some st /\ value st = shown.
Proof.
  intros He Hctl Hp Hc svc' led shown. unfold svc', _update_leds. cbv zeta.
  rewrite He, Hctl.
  set (ds := update_all_status (config svc) s (disks svc)).
  set (power := determine_power_state (network s)).
  set (todo := disk_states_of (config svc) ds).
  pose proof (set_states_ok (config svc) path cli (("power", power) :: todo) Hp Hc
                (_current_states svc) led) as S.
  destruct (set_states (config svc) (Some path) cli (_current_states svc)
              (("power", power) :: todo)) as [cur cmds].
  destruct (check_sleep_change _ _ _ _) as [n1 p1].
  destruct (check_offline_change _ _ _ _) as [n2 p2].
  simpl in S |- *.
  rewrite (fold_set_get value todo). rewrite S, dict_get_app.
  destruct (dict_get led (rev todo)) as [st|].
  - intros E. injection E as <-. eauto.
  - simpl. destruct (String.eqb led "power"); [|discriminate].
    intros E. injection E as <-. eauto.
Qed.

Lemma display_agrees_with_leds_witness :
  (led_enabled (config (new_service default_config (Some "/usr/bin/ugreen_leds_cli"))) = true /\
   controller (new_service default_config (Some "/usr/bin/ugreen_leds_cli"))
     = Some "/usr/bin/ugreen_leds_cli" /\
   "/usr/bin/ugreen_leds_cli" <> "" /\ forall c : Command, (fun _ => true) c = true) /\
  forall led shown,
    dict_get led
      (_simulated_states
         (fst (fst (_update_leds
                      (mkSensors (mkNetwork true true) None (fun _ => false) [] 0 9)
                      (fun _ => true)
                      (new_service default_config (Some "/usr/bin/ugreen_leds_cli"))))))
      = Some shown ->
    exists st,
      dict_get led
        (_current_states
           (fst (fst (_update_leds
                        (mkSensors (mkNetwork true true) None (fun _ => false) [] 0 9)
                        (fun _ => true)
                        (new_service default_config (Some "/usr/bin/ugreen_leds_cli"))))))
        = Some st /\ value st = shown.
Proof.
  assert (H3 : "/usr/bin/ugreen_leds_cli" <> "") by discriminate.
  assert (H4 : forall c : Command, (fun _ => true) c = true) by reflexivity.
  split; [auto|].
  exact (display_agrees_with_leds
           (mkSensors (mkNetwork true true) None (fun _ => false) [] 0 9)
           (fun _ => true)
           (new_service default_config (Some "/usr/bin/ugreen_leds_cli"))
           "/usr/bin/ugreen_leds_cli" eq_refl eq_refl H3 H4).
Defined.

End DisplayProperties.


Module LoadProperties.

Import DictFacts PyConfig ConfigFacts.

Lemma update_app (rt : list string) (pre rest : dict value) :
  forall obj,
    update rt obj (pre ++ rest) =
      match update rt obj pre with
      | (obj', None) => update rt obj' rest
      | (obj', Some e) => (obj', Some e)
      end.
Proof.
  induction pre as [|[k v] pre IH]; intros obj; simpl; [reflexivity|].
  destruct (hasattr rt obj k); [|apply IH].
  destruct (setattr obj k v) as [obj'|e]; [apply IH|reflexivity].
Qed.

Lemma update_no_raise (rt : list string) (data : dict value) :
  (forall k, In k (dict_keys data) -> mem k reserved_names = false) ->
  forall obj, snd (update rt obj data) = None.
Proof.
  induction data as [|[k v] data IH]; intros H obj; simpl; [reflexivity|].
  assert (H' : forall k', In k' (dict_keys data) -> mem k' reserved_names = false).
  { intros k' Hk. apply H. simpl. now right. }
  destruct (hasattr rt obj k); [|now apply IH].
  rewrite (setattr_plain obj k v) by (apply H; simpl; now left).
  now apply IH.
Qed.

(** X30.  [update] stops at the first guarded key.  When the payload
    names [__class__] after keys that are not guarded, the keys before
    it are applied, [TypeError] is raised and the keys after it are
    never looked at.  [load] swallows that exception: a configuration
    file with such a key yields the configuration updated by the keys
    before it only; a missing or unreadable file yields the defaults. *)
Theorem update_stops_at_guarded_key (rt : list string) (obj pre post : dict value)
    (v : value) :
  (forall k, In k (dict_keys pre) -> mem k reserved_names = false) ->
  update rt obj (pre ++ ("__class__", v) :: post) =
    (fst (update rt obj pre), Some TypeError) /\
  load rt (Some (Some (pre ++ ("__class__", v) :: post))) = load rt (Some (Some pre)) /\
  load rt None = default_instance /\ load rt (Some None) = default_instance.
Proof.
  intros H.
  assert (E : forall o, update rt o (pre ++ ("__class__", v) :: post) =
                        (fst (update rt o pre), Some TypeError)).
  { intros o. rewrite update_app.
    pose proof (update_no_raise rt pre H o) as N.
    destruct (update rt o pre) as [o' e]. simpl in N. subst e. simpl.
    unfold hasattr. simpl. rewrite !orb_true_r. reflexivity. }
  split; [apply E|]. split; [|split; reflexivity].
  unfold load. now rewrite E.
Qed.

Lemma update_stops_at_guarded_key_witness :
  (forall k, In k (dict_keys [("enabled", VBool false)]) -> mem k reserved_names = false) /\
  update [] default_instance
    ([("enabled", VBool false)] ++ ("__class__", VInt 1) :: [("alert_enabled", VBool false)])
  = (fst (update [] default_instance [("enabled", VBool false)]), Some TypeError).
Proof.
  assert (H : forall k, In k (dict_keys [("enabled", VBool false)]) ->
                        mem k reserved_names = false).
  { intros k [<-|[]]. reflexivity. }
  split; [exact H|].
  exact (proj1 (update_stops_at_guarded_key [] default_instance [("enabled", VBool false)]
                  [("alert_enabled", VBool false)] (VInt 1) H)).
Defined.

End LoadProperties.
